(** * ai-buddy: quiz parsing, answer checking, retrieval context, vector index,
      saved quizzes and voice intent, embedded from the Python sources.

    Text is modelled by [string], one [ascii] per character of an ASCII
    Python [str]: the character classes ([isspace], [\s], [\d], [\w]) and the
    case mappings are Python's on the code points below 128, and a code above
    127 is a caseless symbol.  The few characters beyond ASCII that the
    sources themselves write (emoji in messages) stand as their UTF-8 bytes.

    No call of the embedded functions raises in this model unless a
    definition says so (a missing key, a division by zero, a collaborator
    that fails), so the [try]/[except] wrappers that only log and return an
    error value appear where such a failure can reach them. *)

From Stdlib Require Import Ascii String ZArith Lia Bool.
From Stdlib Require Import Floats Uint63.
From stdpp Require Import base strings pretty gmap list.

(** ** Python [str] methods *)

Module PyStr.

Definition code (c : ascii) : nat := nat_of_ascii c.

Definition between (lo hi : nat) (c : ascii) : bool :=
  Nat.leb lo (code c) && Nat.leb (code c) hi.

(** [c.isspace()] on the ASCII range: TAB..CR, FS..US and the blank. *)
Definition isspace (c : ascii) : bool :=
  between 9 13 c || between 28 32 c.

Definition isdigit (c : ascii) : bool := between 48 57 c.
Definition isupper (c : ascii) : bool := between 65 90 c.
Definition islower (c : ascii) : bool := between 97 122 c.

(** [\w]: letters, digits and the underscore. *)
Definition isword (c : ascii) : bool :=
  isupper c || islower c || isdigit c || Nat.eqb (code c) 95.

Definition lower_char (c : ascii) : ascii :=
  if isupper c then ascii_of_nat (code c + 32) else c.
Definition upper_char (c : ascii) : ascii :=
  if islower c then ascii_of_nat (code c - 32) else c.

Fixpoint map_chars (f : ascii -> ascii) (s : string) : string :=
  match s with
  | EmptyString => EmptyString
  | String c s' => String (f c) (map_chars f s')
  end.

(** [s.lower()], [s.upper()] *)
Definition lower : string -> string := map_chars lower_char.
Definition upper : string -> string := map_chars upper_char.

(** [len(s)] *)
Definition len (s : string) : nat := String.length s.

(** [s.lstrip()], [s.rstrip()], [s.strip()] *)
Fixpoint lstrip (s : string) : string :=
  match s with
  | EmptyString => EmptyString
  | String c s' => if isspace c then lstrip s' else s
  end.
Definition rstrip (s : string) : string :=
  String.rev (lstrip (String.rev s)).
Definition strip (s : string) : string := rstrip (lstrip s).

(** [s.startswith(p)] *)
Fixpoint startswith (p s : string) : bool :=
  match p, s with
  | EmptyString, _ => true
  | String a p', String b s' => Ascii.eqb a b && startswith p' s'
  | String _ _, EmptyString => false
  end.

(** [s.endswith(p)]: [p] is [s] or ends the text after its first character. *)
Fixpoint endswith (p s : string) : bool :=
  String.eqb p s ||
  match s with
  | EmptyString => false
  | String _ s' => endswith p s'
  end.

(** [p in s] *)
Fixpoint contains (p s : string) : bool :=
  startswith p s ||
  match s with
  | EmptyString => false
  | String _ s' => contains p s'
  end.

(** The text after the first [n] characters. *)
Fixpoint drop (n : nat) (s : string) : string :=
  match n, s with
  | O, _ => s
  | S n', String _ s' => drop n' s'
  | S _, EmptyString => EmptyString
  end.

(** [s.split(sep)] for a non-empty separator: the pieces between the
    occurrences of [sep], empty pieces kept.  [skip] counts the characters
    of a separator still to be passed over, [cur] is the piece being read,
    in reverse. *)
Fixpoint split_go (sep : string) (skip : nat) (cur : string) (s : string)
  : list string :=
  match s with
  | EmptyString => [String.rev cur]
  | String c s' =>
      match skip with
      | S k => split_go sep k cur s'
      | O =>
          if startswith sep s
          then String.rev cur :: split_go sep (len sep - 1) EmptyString s'
          else split_go sep 0 (String c cur) s'
      end
  end.
Definition split (sep s : string) : list string :=
  split_go sep 0 EmptyString s.

(** [s.split()]: the maximal runs of characters that are not white space. *)
Fixpoint words_go (cur : option string) (s : string) : list string :=
  match s with
  | EmptyString =>
      match cur with Some w => [String.rev w] | None => [] end
  | String c s' =>
      if isspace c
      then match cur with
           | Some w => String.rev w :: words_go None s'
           | None => words_go None s'
           end
      else words_go (Some (String c (default EmptyString cur))) s'
  end.
Definition split_ws (s : string) : list string := words_go None s.

(** [sep.join(parts)] *)
Fixpoint join (sep : string) (parts : list string) : string :=
  match parts with
  | [] => EmptyString
  | [p] => p
  | p :: rest => p +:+ sep +:+ join sep rest
  end.

Definition nl : string := String (ascii_of_nat 10) EmptyString.
Definition dquote : string := String (ascii_of_nat 34) EmptyString.

End PyStr.

(** ** The fragment of Python's [re] the sources use

    A backtracking matcher in continuation-passing style.  Repetition is
    only ever applied to a single character class in the patterns of this
    repository ([\s+], [\s*], [\d+], [.*], [.*?], [.+]), so [Star] and
    [Plus] take a class. *)

Module Re.

Record flags := Flags { IGNORECASE : bool; MULTILINE : bool; DOTALL : bool }.

Inductive cls :=
| Ch (c : ascii)              (* a literal character *)
| Range (lo hi : ascii)       (* [lo-hi] *)
| Space                       (* \s *)
| Digit                       (* \d *)
| Dot                         (* . *)
| Union (a b : cls).          (* [ab] *)

Inductive re :=
| Lit (s : string)            (* literal text *)
| Cls (c : cls)               (* one character of a class *)
| Star (c : cls)              (* c*  greedy *)
| StarLazy (c : cls)          (* c*? *)
| Plus (c : cls)              (* c+  greedy *)
| Seq (a b : re)
| Alt (a b : re)              (* a|b, also inside (?:...) *)
| Group (n : nat) (r : re)    (* the n-th capturing group *)
| Lookahead (r : re)          (* (?=r) *)
| Bol                         (* ^ *)
| Eol                         (* $ *)
| WordB.                      (* \b *)

(** Captured groups: group number, start and end offsets in the subject. *)
Definition captures := list (nat * (nat * nat)).

Definition newline (c : ascii) : bool := Nat.eqb (PyStr.code c) 10.

(** A character against a class, case-sensitively; without DOTALL the dot
    refuses a newline. *)
Fixpoint cls_has (dotall : bool) (cl : cls) (c : ascii) : bool :=
  match cl with
  | Ch d => Ascii.eqb c d
  | Range lo hi => PyStr.between (PyStr.code lo) (PyStr.code hi) c
  | Space => PyStr.isspace c
  | Digit => PyStr.isdigit c
  | Dot => dotall || negb (newline c)
  | Union a b => cls_has dotall a c || cls_has dotall b c
  end.

(** Under IGNORECASE either case of the character may match. *)
Definition cls_match (fl : flags) (cl : cls) (c : ascii) : bool :=
  cls_has (DOTALL fl) cl c ||
  (IGNORECASE fl &&
     (cls_has (DOTALL fl) cl (PyStr.lower_char c) ||
      cls_has (DOTALL fl) cl (PyStr.upper_char c))).

Definition chr_eq (fl : flags) (a b : ascii) : bool :=
  if IGNORECASE fl
  then Ascii.eqb (PyStr.lower_char a) (PyStr.lower_char b)
  else Ascii.eqb a b.

(** Literal text at the head of the subject: the rest and the last
    character read. *)
Fixpoint lit_match (fl : flags) (p : string) (prev : option ascii) (s : string)
  : option (option ascii * string) :=
  match p with
  | EmptyString => Some (prev, s)
  | String a p' =>
      match s with
      | String b s' => if chr_eq fl a b then lit_match fl p' (Some b) s' else None
      | EmptyString => None
      end
  end.

Definition at_bol (fl : flags) (prev : option ascii) : bool :=
  match prev with
  | None => true
  | Some c => MULTILINE fl && newline c
  end.

Definition at_eol (fl : flags) (s : string) : bool :=
  match s with
  | EmptyString => true
  | String c EmptyString => newline c
  | String c _ => MULTILINE fl && newline c
  end.

Definition at_wordb (prev : option ascii) (s : string) : bool :=
  let before := match prev with Some c => PyStr.isword c | None => false end in
  let after := match s with String c _ => PyStr.isword c | EmptyString => false end in
  xorb before after.

Section Matcher.
Context {R : Type}.
Variable fl : flags.

(** The continuation receives the last character read, the offset and the
    rest of the subject, and the groups captured so far. *)
Definition cont := option ascii -> nat -> string -> captures -> option R.

(** [c*]: the longest run first, giving characters back one at a time. *)
Fixpoint star_greedy (cl : cls) (prev : option ascii) (pos : nat) (s : string)
  (caps : captures) (k : cont) : option R :=
  match s with
  | String c s' =>
      if cls_match fl cl c then
        match star_greedy cl (Some c) (S pos) s' caps k with
        | Some r => Some r
        | None => k prev pos s caps
        end
      else k prev pos s caps
  | EmptyString => k prev pos s caps
  end.

(** [c*?]: the shortest run first. *)
Fixpoint star_lazy (cl : cls) (prev : option ascii) (pos : nat) (s : string)
  (caps : captures) (k : cont) : option R :=
  match k prev pos s caps with
  | Some r => Some r
  | None =>
      match s with
      | String c s' =>
          if cls_match fl cl c then star_lazy cl (Some c) (S pos) s' caps k
          else None
      | EmptyString => None
      end
  end.

End Matcher.

Fixpoint rmatch {R : Type} (fl : flags) (r : re) (prev : option ascii)
  (pos : nat) (s : string) (caps : captures) (k : @cont R) : option R :=
  match r with
  | Lit p =>
      match lit_match fl p prev s with
      | Some (prev', s') => k prev' (pos + PyStr.len p) s' caps
      | None => None
      end
  | Cls cl =>
      match s with
      | String c s' => if cls_match fl cl c then k (Some c) (S pos) s' caps else None
      | EmptyString => None
      end
  | Star cl => star_greedy fl cl prev pos s caps k
  | StarLazy cl => star_lazy fl cl prev pos s caps k
  | Plus cl =>
      match s with
      | String c s' =>
          if cls_match fl cl c then star_greedy fl cl (Some c) (S pos) s' caps k
          else None
      | EmptyString => None
      end
  | Seq a b =>
      rmatch fl a prev pos s caps (fun prev' pos' s' caps' => rmatch fl b prev' pos' s' caps' k)
  | Alt a b =>
      match rmatch fl a prev pos s caps k with
      | Some res => Some res
      | None => rmatch fl b prev pos s caps k
      end
  | Group n a =>
      rmatch fl a prev pos s caps
        (fun prev' pos' s' caps' => k prev' pos' s' ((n, (pos, pos')) :: caps'))
  | Lookahead a =>
      match rmatch fl a prev pos s caps (fun _ _ _ caps' => Some caps') with
      | Some caps' => k prev pos s caps'
      | None => None
      end
  | Bol => if at_bol fl prev then k prev pos s caps else None
  | Eol => if at_eol fl s then k prev pos s caps else None
  | WordB => if at_wordb prev s then k prev pos s caps else None
  end.

(** A match object: where the match starts and ends, and the groups. *)
Record match_obj := Match { m_start : nat; m_end : nat; m_caps : captures }.

Definition match_here (fl : flags) (r : re) (prev : option ascii) (pos : nat)
  (s : string) : option match_obj :=
  rmatch fl r prev pos s [] (fun _ e _ caps => Some (Match pos e caps)).

(** [re.match(r, s, fl)]: a match at the start of the subject only. *)
Definition re_match (fl : flags) (r : re) (s : string) : option match_obj :=
  match_here fl r None 0 s.

(** [re.search(r, s, fl)]: the leftmost match. *)
Fixpoint search_from (fl : flags) (r : re) (prev : option ascii) (pos : nat)
  (s : string) : option match_obj :=
  match match_here fl r prev pos s with
  | Some m => Some m
  | None =>
      match s with
      | String c s' => search_from fl r (Some c) (S pos) s'
      | EmptyString => None
      end
  end.
Definition search (fl : flags) (r : re) (s : string) : option match_obj :=
  search_from fl r None 0 s.

(** [m.group(n)] read in the subject [s]; [None] for a group that took no
    part in the match. *)
Definition span (n : nat) (m : match_obj) : option (nat * nat) :=
  snd <$> List.find (fun e => Nat.eqb (fst e) n) (m_caps m).
Definition group (s : string) (n : nat) (m : match_obj) : option string :=
  (fun se : nat * nat => String.substring (fst se) (snd se - fst se) s) <$> span n m.

(** [re.findall(r, s, fl)]: the matches found left to right, none
    overlapping; [skip] counts the characters of the last match still to be
    passed over.  The patterns of this repository match no empty text. *)
Fixpoint findall_go (fl : flags) (r : re) (skip : nat) (prev : option ascii)
  (pos : nat) (s : string) : list match_obj :=
  match skip with
  | S k =>
      match s with
      | String c s' => findall_go fl r k (Some c) (S pos) s'
      | EmptyString => []
      end
  | O =>
      match match_here fl r prev pos s with
      | Some m =>
          m :: match s with
               | String c s' => findall_go fl r (m_end m - pos - 1) (Some c) (S pos) s'
               | EmptyString => []
               end
      | None =>
          match s with
          | String c s' => findall_go fl r 0 (Some c) (S pos) s'
          | EmptyString => []
          end
      end
  end.
Definition findall (fl : flags) (r : re) (s : string) : list match_obj :=
  findall_go fl r 0 None 0 s.

(** [re.sub(r, repl, s)] for a replacement text without back-references:
    the text between the matches, with [repl] in the place of each. *)
Fixpoint sub_go (repl s : string) (pos : nat) (ms : list match_obj) : string :=
  match ms with
  | [] => PyStr.drop pos s
  | m :: ms' =>
      String.substring pos (m_start m - pos) s +:+ repl +:+ sub_go repl s (m_end m) ms'
  end.
Definition sub (fl : flags) (r : re) (repl s : string) : string :=
  sub_go repl s 0 (findall fl r s).

(** A pattern read left to right. *)
Fixpoint seq (rs : list re) : re :=
  match rs with
  | [] => Lit ""
  | [r] => r
  | r :: rs' => Seq r (seq rs')
  end.

(** [a|b|c] *)
Fixpoint alt (rs : list re) : re :=
  match rs with
  | [] => Lit ""
  | [r] => r
  | r :: rs' => Alt r (alt rs')
  end.

Definition no_flags : flags := Flags false false false.
Definition I_ : flags := Flags true false false.
Definition IM : flags := Flags true true false.
Definition S_ : flags := Flags false false true.
Definition SI : flags := Flags true false true.

End Re.

(** ** The [logging] calls of the quiz parser and checker

    A function that logs returns its value with the warnings and errors it
    wrote, in order; [info] records are left out. *)

Inductive log_record :=
| WARNING (msg : string)
| ERROR (msg : string).

Definition Log (A : Type) : Type := A * list log_record.

Definition log_ret {A} (x : A) : Log A := (x, []).
Definition log_bind {A B} (m : Log A) (f : A -> Log B) : Log B :=
  let (y, l) := f (fst m) in (y, snd m ++ l).
Definition warning (msg : string) : Log unit := (tt, [WARNING msg]).
Definition error (msg : string) : Log unit := (tt, [ERROR msg]).

#[global] Instance Log_ret : MRet Log := @log_ret.
#[global] Instance Log_bind : MBind Log := fun A B f m => log_bind m f.

(** [str(n)] inside an f-string *)
Definition str_of_nat (n : nat) : string := pretty n.
Definition str_of_Z (z : Z) : string := pretty z.

(** ** Python [float] and [int] arithmetic

    A Python [float] is an IEEE 754 binary64 number, as is Rocq's primitive
    [float]; true division of two lengths is the correctly rounded quotient,
    which for integers below 2^53 is the division of their conversions. *)

Module PyFloat.

Definition of_nat (n : nat) : float :=
  PrimFloat.of_uint63 (Uint63.of_Z (Z.of_nat n)).

(** [a / b] on ints: [None] stands for ZeroDivisionError. *)
Definition truediv (a b : nat) : option float :=
  match b with
  | O => None
  | _ => Some (PrimFloat.div (of_nat a) (of_nat b))
  end.

(** The integer nearest to [n / d], ties to even ([d] positive). *)
Definition round_half_even (n d : Z) : Z :=
  let q := (n / d)%Z in
  match (2 * (n mod d) ?= d)%Z with
  | Lt => q
  | Gt => (q + 1)%Z
  | Eq => if Z.even q then q else (q + 1)%Z
  end.

(** The sign of [x] and its magnitude in tenths, rounded on the exact binary
    value of [x] as [round(x, 1)] and the format [.1f] both do. *)
Definition tenths (x : float) : option (bool * Z) :=
  match Prim2SF x with
  | S754_zero s => Some (s, 0%Z)
  | S754_finite s m e =>
      Some (s, if (0 <=? e)%Z then (10 * Z.pos m * 2 ^ e)%Z
               else round_half_even (10 * Z.pos m) (2 ^ (- e)))
  | _ => None
  end.

(** [round(x, 1)]: the float nearest to the rounded decimal. *)
Definition round1 (x : float) : float :=
  match tenths x with
  | Some (s, t) =>
      let y := PrimFloat.div (PrimFloat.of_uint63 (Uint63.of_Z t)) 10%float in
      if s then PrimFloat.opp y else y
  | None => x
  end.

(** [f"{x:.1f}"] *)
Definition format_1f (x : float) : string :=
  match tenths x with
  | Some (s, t) =>
      (if s then "-" else "") +:+ pretty (t / 10)%Z +:+ "." +:+ pretty (t mod 10)%Z
  | None => "nan"
  end.

(** [x >= y] *)
Definition ge (x y : float) : bool := PrimFloat.leb y x.

End PyFloat.

(** ** backend/services/base.py: ServiceResponse *)

Record ServiceResponse (D : Type) := Response {
  success : bool;
  message : string;
  data : option D
}.
Arguments Response {D}.
Arguments success {D}.
Arguments message {D}.
Arguments data {D}.

Definition success_response {D} (message : string) (data : option D) : ServiceResponse D :=
  Response true message data.
Definition error_response {D} (message : string) (data : option D) : ServiceResponse D :=
  Response false message data.

(** ** backend/utils/text_utils.py: TextProcessor *)

(** A parsed multiple-choice question: the dict built by
    [_parse_single_mcq_block]. *)
Record Question := {
  number : Z;
  question : string;
  options : gmap string string;
  correct_answer : string
}.

(** An open-ended question: the dict built by [parse_open_ended_questions]. *)
Record OpenQuestion := {
  open_number : Z;
  open_question : string
}.

Module TextProcessor.
Import PyStr Re.

Definition letters : list string := ["A"; "B"; "C"; "D"].

(** [A-Da-d] and [\)\.] *)
Definition AD_ad : cls := Union (Range "A" "D") (Range "a" "d").
Definition paren_or_dot : cls := Union (Ch ")") (Ch ".").

(** r'Question\s+(\d+):\s*(.*?)(?=Question\s+\d+:|$)' *)
Definition pattern1 : re :=
  seq [Lit "Question"; Plus Space; Group 1 (Plus Digit); Lit ":"; Star Space;
       Group 2 (StarLazy Dot);
       Lookahead (Alt (seq [Lit "Question"; Plus Space; Plus Digit; Lit ":"]) Eol)].

(** r'(\d+)[\.\)]\s*(.*?)(?=\d+[\.\)]|$)' *)
Definition pattern2 : re :=
  seq [Group 1 (Plus Digit); Cls (Union (Ch ".") (Ch ")")); Star Space;
       Group 2 (StarLazy Dot);
       Lookahead (Alt (seq [Plus Digit; Cls (Union (Ch ".") (Ch ")"))]) Eol)].

(** [match[1].strip()] for the tuples of [findall] *)
Definition second_group_stripped (content : string) (m : match_obj) : string :=
  strip (default "" (group content 2 m)).

(** The test of Pattern 3 on a block. *)
Definition looks_like_question (block : string) : bool :=
  (contains "A)" block || contains "a)" block) &&
  (contains "B)" block || contains "b)" block) &&
  (contains "?" block || contains ":" block).

Definition nonblank_stripped (pieces : list string) : list string :=
  strip <$> List.filter (fun p => negb (String.eqb (strip p) "")) pieces.

Definition _split_into_question_blocks (content : string) : Log (list string) :=
  let matches1 := findall SI pattern1 content in
  if negb (bool_decide (matches1 = [])) then
    log_ret (second_group_stripped content <$> matches1)
  else
  let matches2 := findall S_ pattern2 content in
  if negb (bool_decide (matches2 = [])) then
    log_ret (second_group_stripped content <$> matches2)
  else
  let blocks := nonblank_stripped (split (nl +:+ nl) content) in
  let question_blocks := List.filter looks_like_question blocks in
  if negb (bool_decide (question_blocks = [])) then
    log_ret question_blocks
  else
    error "No recognizable question pattern found";;
    log_ret [].

(** r'^[A-Da-d][\)\.]' *)
Definition option_line : re := seq [Bol; Cls AD_ad; Cls paren_or_dot].
Definition is_option_line (line : string) : bool :=
  bool_decide (is_Some (re_match no_flags option_line line)).

Definition ends_like_question (line : string) : bool :=
  endswith "?" line || endswith ":" line || endswith "." line.

Definition _extract_question_text (lines : list string) : string :=
  match List.find (fun line =>
                     negb (is_option_line line) &&
                     negb (contains "Correct Answer:" line) &&
                     negb (contains "Answer:" line) &&
                     ends_like_question line) lines with
  | Some line => line
  | None =>
      match List.find (fun line =>
                         negb (is_option_line line) &&
                         negb (contains "Answer:" line)) lines with
      | Some line => line
      | None => ""
      end
  end.

(** r'^([A-D])[\)\.][\s]*(.+)$' and r'^([a-d])[\)\.][\s]*(.+)$' *)
Definition option_patterns : list re :=
  [ seq [Bol; Group 1 (Cls (Range "A" "D")); Cls paren_or_dot; Star Space;
         Group 2 (Plus Dot); Eol];
    seq [Bol; Group 1 (Cls (Range "a" "d")); Cls paren_or_dot; Star Space;
         Group 2 (Plus Dot); Eol] ].

(** The inner loop of [_extract_options]: the first pattern that matches the
    line decides, and the loop breaks. *)
Fixpoint option_of_line (patterns : list re) (line : string)
  (options : gmap string string) : gmap string string :=
  match patterns with
  | [] => options
  | pattern :: rest =>
      match re_match I_ pattern line with
      | Some m =>
          let letter := upper (default "" (group line 1 m)) in
          let text := strip (default "" (group line 2 m)) in
          if negb (String.eqb text "") then <[letter := text]> options else options
      | None => option_of_line rest line options
      end
  end.

Definition _extract_options (lines : list string) : gmap string string :=
  foldl (fun options line => option_of_line option_patterns line options) ∅ lines.

(** Strategy 1 of [_extract_correct_answer] *)
Definition answer_patterns : list re :=
  [ seq [Lit "Correct"; Plus Space; Lit "Answer:"; Star Space; Group 1 (Cls AD_ad)];
    seq [Lit "Answer:"; Star Space; Group 1 (Cls AD_ad)];
    seq [Lit "Correct:"; Star Space; Group 1 (Cls AD_ad)];
    seq [Lit "The"; Plus Space; Lit "correct"; Plus Space; Lit "answer"; Plus Space;
         Lit "is"; Star Space; Group 1 (Cls AD_ad)];
    seq [Lit "Answer"; Star Space; Lit "is"; Star Space; Group 1 (Cls AD_ad)];
    seq [Lit "**"; Group 1 (Cls AD_ad); Lit "**"];
    seq [Bol; Star Space; Group 1 (Cls AD_ad); Star Space; Lit "(correct)"] ].

(** Strategy 4 of [_extract_correct_answer] *)
Definition emphasis_patterns : list re :=
  [ seq [Group 1 (Cls (Range "A" "D")); Lit ")"; Star Dot;
         alt [Lit "**"; Lit "*"; Lit "__"; Lit "<b>"; Lit "<strong>"]];
    seq [Group 1 (Cls (Range "A" "D")); Lit ")"; Star Dot; Lit "(answer)"] ].

(** [for pattern in patterns: match = re.search(...); if match: return
    match.group(1).upper()] *)
Fixpoint first_search (fl : flags) (patterns : list re) (block : string)
  : option string :=
  match patterns with
  | [] => None
  | pattern :: rest =>
      match search fl pattern block with
      | Some m => Some (upper (default "" (group block 1 m)))
      | None => first_search fl rest block
      end
  end.

(** Strategy 2: an asterisk next to a letter, anywhere in the block. *)
Definition asterisk_marker (block : string) : option string :=
  List.find (fun letter =>
               contains ("*" +:+ letter) block || contains (letter +:+ "*") block)
            letters.

(** Strategy 3: an option line that carries "(correct)" or an asterisk. *)
Definition marked_letter (line : string) : option string :=
  List.find (fun letter =>
               (startswith (letter +:+ ")") line || startswith (letter +:+ ".") line) &&
               (contains "(correct)" (lower line) || contains "*" line))
            letters.
Fixpoint option_marker (lines : list string) : option string :=
  match lines with
  | [] => None
  | line :: rest =>
      match marked_letter line with
      | Some letter => Some letter
      | None => option_marker rest
      end
  end.

Definition _extract_correct_answer (block : string) (lines : list string)
  : Log (option string) :=
  match first_search IM answer_patterns block with
  | Some answer => log_ret (Some answer)
  | None =>
  match asterisk_marker block with
  | Some letter => log_ret (Some letter)
  | None =>
  match option_marker lines with
  | Some letter => log_ret (Some letter)
  | None =>
  match first_search I_ emphasis_patterns block with
  | Some answer => log_ret (Some answer)
  | None =>
      warning "No correct answer pattern found";;
      log_ret None
  end end end end.

(** [for letter in ['A','B','C','D']: if letter not in options:
    options[letter] = f"Option {letter}"] *)
Definition fill_missing (options : gmap string string) : gmap string string :=
  foldl (fun options letter =>
           match options !! letter with
           | Some _ => options
           | None => <[letter := "Option " +:+ letter]> options
           end) options letters.

(** [repr] of the extracted answer inside the warning's f-string *)
Definition show_answer (a : option string) : string :=
  match a with Some s => s | None => "None" end.

Definition _parse_single_mcq_block (question_num : Z) (block : string)
  : Log (option Question) :=
  let lines := nonblank_stripped (split nl block) in
  let question_text := _extract_question_text lines in
  if String.eqb question_text "" then
    warning ("No question text found in block " +:+ str_of_Z question_num);;
    log_ret None
  else
  let options := _extract_options lines in
  options ←
    (if Nat.ltb (size options) 4 then
       warning ("Only " +:+ str_of_nat (size options) +:+
                " options found for question " +:+ str_of_Z question_num);;
       log_ret (fill_missing options)
     else log_ret options);
  found ← _extract_correct_answer block lines;
  correct_answer ←
    (match found with
     | Some a =>
         if negb (String.eqb a "") && bool_decide (a ∈ letters) then log_ret a
         else
           warning ("Invalid or missing correct answer for question " +:+
                    str_of_Z question_num +:+ ": '" +:+ show_answer found +:+
                    "', defaulting to A");;
           log_ret "A"
     | None =>
         warning ("Invalid or missing correct answer for question " +:+
                  str_of_Z question_num +:+ ": '" +:+ show_answer found +:+
                  "', defaulting to A");;
         log_ret "A"
     end);
  log_ret (Some {| number := question_num;
                   question := question_text;
                   options := options;
                   correct_answer := correct_answer |}).

(** The loop of [parse_mcq_questions] over [enumerate(question_blocks, 1)]. *)
Fixpoint parse_blocks (i : Z) (question_blocks : list string) : Log (list Question) :=
  match question_blocks with
  | [] => log_ret []
  | block :: rest =>
      question_data ← _parse_single_mcq_block i block;
      match question_data with
      | Some q =>
          questions ← parse_blocks (i + 1) rest;
          log_ret (q :: questions)
      | None =>
          warning ("Failed to parse question block " +:+ str_of_Z i);;
          parse_blocks (i + 1) rest
      end
  end.

Definition parse_mcq_questions (content : string) : Log (list Question) :=
  question_blocks ← _split_into_question_blocks content;
  match question_blocks with
  | [] =>
      error "No question blocks found";;
      log_ret []
  | _ => parse_blocks 1 question_blocks
  end.

(** r'<think>.*?</think>', r'<thinking>.*?</thinking>', r'\n{3,}' and
    r'[ \t]+' *)
Definition think_tags : re := seq [Lit "<think>"; StarLazy Dot; Lit "</think>"].
Definition thinking_tags : re := seq [Lit "<thinking>"; StarLazy Dot; Lit "</thinking>"].
Definition newline_char : ascii := ascii_of_nat 10.
Definition three_newlines : re :=
  seq [Cls (Ch newline_char); Cls (Ch newline_char); Plus (Ch newline_char)].
Definition blanks : re := Plus (Union (Ch " ") (Ch (ascii_of_nat 9))).

Definition clean_ai_output (text : string) : string :=
  if String.eqb text "" then ""
  else
    let text := sub S_ think_tags "" text in
    let text := sub S_ thinking_tags "" text in
    let text := sub no_flags three_newlines (nl +:+ nl) text in
    let text := sub no_flags blanks " " text in
    strip text.

(** [int(s)] for a run of decimal digits *)
Definition int_of_digits (s : string) : Z :=
  foldl (fun acc c => (10 * acc + Z.of_nat (code c - 48))%Z) 0%Z (list_ascii_of_string s).

Definition parse_open_ended_questions (content : string) : list OpenQuestion :=
  let matches := findall SI pattern1 content in
  omap (fun m =>
          let question_num := default "" (group content 1 m) in
          let question_text := strip (default "" (group content 2 m)) in
          let question_text := sub no_flags (Plus (Ch newline_char)) " " question_text in
          let question_text := sub no_flags (Plus Space) " " question_text in
          if negb (String.eqb question_text "") then
            Some {| open_number := int_of_digits question_num;
                    open_question := question_text |}
          else None) matches.

(** The characters outside the Latin range that the feedback uses, as their
    UTF-8 bytes. *)
Definition utf8 (bytes : list nat) : string :=
  string_of_list_ascii (ascii_of_nat <$> bytes).
Definition party_popper : string := utf8 [240; 159; 142; 137].
Definition confetti_ball : string := utf8 [240; 159; 142; 138].
Definition thumbs_up : string := utf8 [240; 159; 145; 141].
Definition ok_hand : string := utf8 [240; 159; 145; 140].
Definition books : string := utf8 [240; 159; 147; 154].

(** [sum] of the loop [if user_answers.get(q_num) == question['correct_answer']:
    correct_count += 1] *)
Definition is_correct (user_answers : gmap Z string) (q : Question) : bool :=
  bool_decide (user_answers !! number q = Some (correct_answer q)).
Definition count_correct (user_answers : gmap Z string) (questions : list Question) : nat :=
  length (List.filter (is_correct user_answers) questions).

(** The band of a percentage: the emoji and the message. *)
Definition band (percentage : float) : string * string :=
  if PyFloat.ge percentage 90 then (party_popper, "Excellent work!")
  else if PyFloat.ge percentage 80 then (confetti_ball, "Great job!")
  else if PyFloat.ge percentage 70 then (thumbs_up, "Good effort!")
  else if PyFloat.ge percentage 60 then (ok_hand, "Not bad!")
  else (books, "Keep studying!").

(** The f-string returned by [check_mcq_answers]. *)
Definition results_text (emoji : string) (correct_count total_questions : nat)
  (percentage : float) (message : string) : string :=
  nl +:+ "## " +:+ emoji +:+ " Quiz Results" +:+ nl +:+ nl +:+
  "**Score:** " +:+ str_of_nat correct_count +:+ "/" +:+ str_of_nat total_questions +:+
  " (" +:+ PyFloat.format_1f percentage +:+ "%)" +:+ nl +:+ nl +:+
  "**" +:+ message +:+ "**" +:+ nl.

Definition check_mcq_answers (user_answers : gmap Z string) (questions : list Question)
  : string :=
  if bool_decide (user_answers = ∅) || bool_decide (questions = []) then
    "No answers to check."
  else
    let correct_count := count_correct user_answers questions in
    let total_questions := length questions in
    match PyFloat.truediv correct_count total_questions with
    | Some ratio =>
        let percentage := PrimFloat.mul ratio 100 in
        let '(emoji, message) := band percentage in
        results_text emoji correct_count total_questions percentage message
    | None => "Error checking answers."
    end.

End TextProcessor.

(** ** backend/services/quiz.py: QuizService *)

Module QuizService.

(** The list handed back by either parser. *)
Inductive Questions :=
| MCQ (questions : list Question)
| OpenEnded (questions : list OpenQuestion).

Definition parse_quiz_questions (quiz_content quiz_type : string)
  : Log (ServiceResponse Questions) :=
  if String.eqb quiz_type "MCQ" then
    questions ← TextProcessor.parse_mcq_questions quiz_content;
    match questions with
    | [] =>
        error "No valid questions could be parsed";;
        log_ret (error_response "No valid questions could be parsed" None)
    | _ =>
        log_ret (success_response
                   ("Parsed " +:+ str_of_nat (length questions) +:+ " questions")
                   (Some (MCQ questions)))
    end
  else
    let questions := TextProcessor.parse_open_ended_questions quiz_content in
    match questions with
    | [] =>
        error "No valid questions could be parsed";;
        log_ret (error_response "No valid questions could be parsed" None)
    | _ =>
        log_ret (success_response
                   ("Parsed " +:+ str_of_nat (length questions) +:+ " questions")
                   (Some (OpenEnded questions)))
    end.

(** The dict [score_data]. *)
Record ScoreData := {
  score : string;
  percentage : float;
  correct_count : nat;
  total_questions : nat;
  feedback : string
}.

Definition check_mcq_answers (questions : list Question) (user_answers : gmap Z string)
  : Log (ServiceResponse ScoreData) :=
  if bool_decide (user_answers = ∅) then
    log_ret (error_response "Please answer at least one question" None)
  else
    let feedback := TextProcessor.check_mcq_answers user_answers questions in
    let correct_count := TextProcessor.count_correct user_answers questions in
    let total_questions := length questions in
    match PyFloat.truediv correct_count total_questions with
    | Some ratio =>
        let score_data :=
          {| score := str_of_nat correct_count +:+ "/" +:+ str_of_nat total_questions;
             percentage := PyFloat.round1 (PrimFloat.mul ratio 100);
             correct_count := correct_count;
             total_questions := total_questions;
             feedback := feedback |} in
        log_ret (success_response ("Quiz completed: " +:+ score score_data) (Some score_data))
    | None =>
        error "Error checking MCQ answers: division by zero";;
        log_ret (error_response "Failed to check answers" None)
    end.

End QuizService.

(** ** The file system under [settings.FAISS_PATH]

    Paths are compared as text: no symbolic link and no [..] is resolved.  A
    saved FAISS index is one node, holding the documents it was built from. *)

Record Document := {
  page_content : string;
  metadata : gmap string string
}.

Inductive node :=
| Directory
| FaissIndex (docs : list Document).

Module Os.
Import PyStr.

(** [os.path.join(a, b)] on POSIX *)
Definition path_join (a b : string) : string :=
  if startswith "/" b then b
  else if String.eqb a "" || endswith "/" a then a +:+ b
  else a +:+ "/" +:+ b.

(** [os.path.exists(path)] *)
Definition exists_ (fs : gmap string node) (path : string) : bool :=
  bool_decide (is_Some (fs !! path)).

(** The proper ancestors of a path, outermost first: its prefixes that end
    just before a separator. *)
Fixpoint parents_go (seen : string) (s : string) : list string :=
  match s with
  | EmptyString => []
  | String c s' =>
      let here := if Ascii.eqb c "/" && negb (String.eqb seen "")
                  then [String.rev seen] else [] in
      here ++ parents_go (String c seen) s'
  end.
Definition parents (path : string) : list string := parents_go "" path.

Definition mkdir (fs : gmap string node) (path : string) : gmap string node :=
  match fs !! path with
  | Some _ => fs
  | None => <[path := Directory]> fs
  end.

(** [os.makedirs(path, exist_ok=True)]: the missing ancestors and the leaf. *)
Definition makedirs (fs : gmap string node) (path : string) : gmap string node :=
  foldl mkdir fs (parents path ++ [path]).

(** [shutil.rmtree(path, ignore_errors=True)]: the node and all below it. *)
Definition rmtree (fs : gmap string node) (path : string) : gmap string node :=
  filter (fun kv => negb (String.eqb (fst kv) path) &&
                    negb (startswith (path +:+ "/") (fst kv))) fs.

End Os.

(** ** backend/services/vector.py: VectorService *)

(** One entry of the list [formatted]. *)
Record SearchHit := {
  content : string;
  hit_metadata : gmap string string;
  hit_score : float
}.

Module VectorService.

(** What [create_pdf_vectors] hands back as data. *)
Record Created := {
  vector_path : string;
  chunk_count : nat
}.

Section Service.
(** [settings.FAISS_PATH] *)
Variable FAISS_PATH : string.
(** [db.similarity_search(query, k)] on an index built from [docs], the
    embedding of the query included; [inl msg] is an exception whose text
    is [msg]. *)
Variable similarity_search : list Document -> string -> Z -> string + list Document.
(** [FAISS.from_documents(documents, embeddings)]: [Some msg] when the
    embedding provider raises. *)
Variable from_documents_error : list Document -> option string.
(** The text of the exception [FAISS.load_local] raises on a directory
    that holds no index. *)
Variable load_error : string -> string.

Definition _get_vector_path (fs : gmap string node) (user_id pdf_id : string)
  : string * gmap string node :=
  let user_vector_dir := Os.path_join (Os.path_join FAISS_PATH user_id) "vectors" in
  let fs := Os.makedirs fs user_vector_dir in
  (Os.path_join user_vector_dir (pdf_id +:+ "_vectors"), fs).

Definition create_pdf_vectors (fs : gmap string node) (user_id pdf_id : string)
  (documents : list Document) : ServiceResponse Created * gmap string node :=
  match documents with
  | [] => (error_response "No documents to process" None, fs)
  | _ =>
      match from_documents_error documents with
      | Some e => (error_response ("Failed to create vectors: " +:+ e) None, fs)
      | None =>
          let '(vector_path, fs) := _get_vector_path fs user_id pdf_id in
          (success_response "Vectors created successfully"
             (Some {| vector_path := vector_path; chunk_count := length documents |}),
           <[vector_path := FaissIndex documents]> fs)
      end
  end.

Definition format_hit (doc : Document) : SearchHit :=
  {| content := page_content doc; hit_metadata := metadata doc; hit_score := 1.0 |}.

Definition search_pdf_vectors (fs : gmap string node) (user_id pdf_id query : string)
  (n_results : Z) : ServiceResponse (list SearchHit) * gmap string node :=
  let '(vector_path, fs) := _get_vector_path fs user_id pdf_id in
  match fs !! vector_path with
  | None =>
      (error_response "Vector database not found. Please re-upload the PDF." None, fs)
  | Some Directory =>
      (error_response ("Search failed: " +:+ load_error vector_path) None, fs)
  | Some (FaissIndex stored) =>
      match similarity_search stored query n_results with
      | inl e => (error_response ("Search failed: " +:+ e) None, fs)
      | inr docs =>
          let formatted := format_hit <$> docs in
          (success_response
             ("Found " +:+ str_of_nat (length formatted) +:+ " documents")
             (Some formatted), fs)
      end
  end.

Definition delete_pdf_vectors (fs : gmap string node) (user_id pdf_id : string)
  : ServiceResponse unit * gmap string node :=
  let '(vector_path, fs) := _get_vector_path fs user_id pdf_id in
  let fs := if Os.exists_ fs vector_path then Os.rmtree fs vector_path else fs in
  (success_response "PDF vectors deleted successfully" None, fs).

End Service.

End VectorService.


(** ** backend/services/chat.py: ChatService *)

(** The record behind [pdf_service.get_pdf_by_id]; only [processed] is read. *)
Record PDF := {
  processed : bool
}.

(** The data of a chat response. *)
Record ChatData := {
  response : string;
  mode : string;
  context_used : nat
}.

(** What a request acts on: the file system, and the prompts sent to the
    language model so far, oldest first. *)
Record World := {
  fs : gmap string node;
  llm_calls : list string
}.

Module ChatService.
Import PyStr.

Definition common_words : gset string :=
  list_to_set ["the"; "a"; "an"; "and"; "or"; "but"; "in"; "on"; "at"; "to";
               "for"; "of"; "with"; "by"].

(** [set(s.lower().split())] *)
Definition word_set (s : string) : gset string := list_to_set (split_ws (lower s)).

Definition _is_context_too_weak (question context : string) : bool :=
  if Nat.ltb (len (strip context)) 50 then true
  else
    let question_words := word_set question in
    let context_words := word_set context in
    let question_words := question_words ∖ common_words in
    let overlap := size (question_words ∩ context_words) in
    if Nat.eqb overlap 0 && Nat.ltb (len context) 200 then true
    else false.

Definition explanation_template (question context : string) : string :=
  "
You are an AI tutor. Answer the student's question clearly and helpfully using the reference material provided.

Question: " +:+
  question +:+
  "
Reference material: " +:+
  context +:+
  "

Provide a clear, educational answer that helps the student understand the topic. Be concise but thorough.
Base your answer on the reference material provided. If the material doesn't contain sufficient information to answer the question, say so clearly.

Answer:
".

Definition enhanced_question_text (quiz_context question : string) : string :=
  "
Quiz Context: " +:+
  quiz_context +:+
  "

Student's Question/Answer: " +:+
  question +:+
  "

Please provide helpful feedback based on the quiz context and reference material.
".

Definition quiz_feedback_template (question context : string) : string :=
  "
You are providing feedback for a quiz. Be direct, helpful, and educational.

Context: The student is working on a quiz and needs guidance.

Question/Answer: " +:+
  question +:+
  "
Reference material: " +:+
  context +:+
  "

Provide clear, constructive feedback that helps the student learn. If they got something wrong, explain why and guide them to the correct understanding.
Base your feedback on the reference material provided.

Feedback:
".

Definition tutor_quiz_template (quiz_context question context : string) : string :=
  "
You are an AI tutor helping a student with their quiz. Here's the current situation:

QUIZ CONTEXT:
" +:+
  quiz_context +:+
  "

STUDENT'S QUESTION: " +:+
  question +:+
  "

REFERENCE MATERIAL: " +:+
  context +:+
  "

INSTRUCTIONS:
- Help the student understand concepts without giving direct answers
- If they ask about a specific question, refer to it by number
- Provide hints and explanations that guide learning
- Be encouraging and supportive
- Focus on helping them learn, not just get the right answer
- Base your guidance on the reference material

Response:
".

Definition tutor_template (question context : string) : string :=
  "
You are an AI tutor. The student has a question about the material.

Question: " +:+
  question +:+
  "
Reference material: " +:+
  context +:+
  "

Provide helpful tutoring guidance that promotes understanding and learning.
Base your response on the reference material provided.

Response:
".

Definition not_enough_information : string :=
  "I couldn't find enough relevant information in the document to answer your question thoroughly. The document may not cover this specific topic in detail.".

(** U+26A0 U+FE0F, as UTF-8 bytes *)
Definition warning_sign : string := TextProcessor.utf8 [226; 154; 160; 239; 184; 143].

(** [if s:] on an optional string *)
Definition truthy (s : option string) : option string :=
  match s with
  | Some "" => None
  | _ => s
  end.

Section Service.
(** The vector service's collaborators and [settings.FAISS_PATH]. *)
Variable FAISS_PATH : string.
Variable similarity_search : list Document -> string -> Z -> string + list Document.
Variable load_error : string -> string.
(** [self.pdf_service.get_pdf_by_id(pdf_id, user_id)] *)
Variable get_pdf_by_id : string -> string -> option PDF.
(** [self.model]: [None] when the cached model could not be loaded; a loaded
    model maps the rendered prompt to its reply, [inl] when it raises. *)
Variable model : option (string -> string + string).

(** [chain.invoke(...)] inside the [try] of a generator: the prompt is
    recorded, and an exception becomes the empty reply. *)
Definition invoke (w : World) (prompt : string) : string * World :=
  let w' := {| fs := fs w; llm_calls := llm_calls w ++ [prompt] |} in
  match model with
  | Some m =>
      match m prompt with
      | inr reply => (reply, w')
      | inl _ => ("", w')
      end
  | None => ("", w)
  end.

Definition _generate_explanation (w : World) (question context : string) : string * World :=
  invoke w (explanation_template question context).

Definition _generate_quiz_feedback (w : World) (question context : string)
  (quiz_context : option string) : string * World :=
  let enhanced_question :=
    match truthy quiz_context with
    | Some qc => enhanced_question_text qc question
    | None => question
    end in
  invoke w (quiz_feedback_template enhanced_question context).

Definition _generate_tutor_response (w : World) (question context : string)
  (quiz_context : option string) : string * World :=
  match truthy quiz_context with
  | Some qc => invoke w (tutor_quiz_template qc question context)
  | None => invoke w (tutor_template question context)
  end.

Definition chat_with_pdf (w : World) (user_id pdf_id question mode : string)
  (quiz_context : option string) : ServiceResponse ChatData * World :=
  match model with
  | None => (error_response "AI model not available" None, w)
  | Some _ =>
  match get_pdf_by_id pdf_id user_id with
  | None => (error_response "PDF not found" None, w)
  | Some pdf =>
  if negb (processed pdf) then (error_response "PDF is still being processed" None, w)
  else
  let '(search_result, fs') :=
    VectorService.search_pdf_vectors FAISS_PATH similarity_search load_error
      (fs w) user_id pdf_id question 6 in
  let w := {| fs := fs'; llm_calls := llm_calls w |} in
  match (if success search_result then data search_result else None) with
  | None | Some [] =>
      (error_response "No relevant information found in the PDF" None, w)
  | Some hits =>
  let context := join (nl +:+ nl) (content <$> hits) in
  if _is_context_too_weak question context then
    (success_response "Response generated successfully"
       (Some {| response := not_enough_information; mode := mode; context_used := 0 |}), w)
  else
  let '(response, w) :=
    if String.eqb mode "Quiz Me" then _generate_quiz_feedback w question context quiz_context
    else if String.eqb mode "Tutor" then _generate_tutor_response w question context quiz_context
    else _generate_explanation w question context in
  if String.eqb response "" then (error_response "Failed to generate response" None, w)
  else
  let clean_response := TextProcessor.clean_ai_output response in
  let clean_response :=
    if Nat.ltb (len context) 100
    then warning_sign +:+ " The document may not fully cover this topic." +:+ nl +:+ nl +:+
         clean_response
    else clean_response in
  (success_response "Response generated successfully"
     (Some {| response := clean_response; mode := mode; context_used := length hits |}), w)
  end end end.

End Service.

End ChatService.

(** ** backend/models/saved_quiz.py: SavedQuiz *)

(** The Python values a saved quiz holds and a document stores. *)
#[local] Set Warnings "-register-all".
Inductive pyval :=
| PNone
| PStr (s : string)
| PInt (z : Z)
| PBool (b : bool)
| PDatetime (t : Z)
| PList (l : list pyval)
| PDict (d : list (string * pyval)).

Module SavedQuiz.

(** The attributes of an instance; [_id] is set by the database only. *)
Record t := {
  user_id : pyval;
  folder_id : pyval;
  pdf_id : pyval;
  pdf_name : pyval;
  quiz_name : pyval;
  quiz_type : pyval;
  difficulty : pyval;
  questions_data : pyval;
  topic_focus : pyval;
  created_at : pyval;
  updated_at : pyval;
  _id : option pyval
}.

Section Clock.
(** [datetime.utcnow()]: the n-th reading of the clock during a call. *)
Variable utcnow : nat -> pyval.

(** [SavedQuiz(...)], the readings of the clock starting at [tick]. *)
Definition __init__ (tick : nat)
  (user_id folder_id pdf_id pdf_name quiz_name quiz_type difficulty questions_data
     topic_focus : pyval) : t :=
  {| user_id := user_id;
     folder_id := folder_id;
     pdf_id := pdf_id;
     pdf_name := pdf_name;
     quiz_name := quiz_name;
     quiz_type := quiz_type;
     difficulty := difficulty;
     questions_data := questions_data;
     topic_focus := topic_focus;
     created_at := utcnow tick;
     updated_at := utcnow (S tick);
     _id := None |}.

Definition to_dict (self : t) : gmap string pyval :=
  list_to_map
    [ ("user_id", user_id self);
      ("folder_id", folder_id self);
      ("pdf_id", pdf_id self);
      ("pdf_name", pdf_name self);
      ("quiz_name", quiz_name self);
      ("quiz_type", quiz_type self);
      ("difficulty", difficulty self);
      ("questions_data", questions_data self);
      ("topic_focus", topic_focus self);
      ("created_at", created_at self);
      ("updated_at", updated_at self) ].

(** [data[key]] gives [None] for KeyError; [data.get(key)] defaults to
    Python's None, and the defaults of the two timestamps are read off the
    clock before the lookup. *)
Definition from_dict (data : gmap string pyval) : option t :=
  user_id ← data !! "user_id";
  folder_id ← data !! "folder_id";
  pdf_id ← data !! "pdf_id";
  pdf_name ← data !! "pdf_name";
  quiz_name ← data !! "quiz_name";
  quiz_type ← data !! "quiz_type";
  difficulty ← data !! "difficulty";
  questions_data ← data !! "questions_data";
  let quiz := __init__ 0 user_id folder_id pdf_id pdf_name quiz_name quiz_type
                difficulty questions_data (default PNone (data !! "topic_focus")) in
  let created := default (utcnow 2) (data !! "created_at") in
  let updated := default (utcnow 3) (data !! "updated_at") in
  Some {| user_id := SavedQuiz.user_id quiz;
          folder_id := SavedQuiz.folder_id quiz;
          pdf_id := SavedQuiz.pdf_id quiz;
          pdf_name := SavedQuiz.pdf_name quiz;
          quiz_name := SavedQuiz.quiz_name quiz;
          quiz_type := SavedQuiz.quiz_type quiz;
          difficulty := SavedQuiz.difficulty quiz;
          questions_data := SavedQuiz.questions_data quiz;
          topic_focus := SavedQuiz.topic_focus quiz;
          created_at := created;
          updated_at := updated;
          _id := SavedQuiz._id quiz |}.

End Clock.

End SavedQuiz.

(** ** frontend/components/voice_interface.py: the voice intent classifier *)

Module VoiceInterface.
Import PyStr.

Definition direct_patterns : list string :=
  ["what is the answer"; "which option"; "is it a"; "is it b"; "tell me the answer";
   "correct answer"].
Definition concept_patterns : list string :=
  ["explain"; "what does"; "what is"; "how does"; "why is"; "define"; "what means"].
Definition help_patterns : list string :=
  ["help"; "stuck"; "don't understand"; "confused"; "how to solve"; "hint"; "guide me"].

(** [any(pattern in text for pattern in patterns)] *)
Definition any_in (patterns : list string) (text : string) : bool :=
  existsb (fun pattern => contains pattern text) patterns.

Definition _classify_voice_question (user_text : string) : string :=
  let user_lower := lower user_text in
  if any_in direct_patterns user_lower then "direct_answer_request"
  else if any_in concept_patterns user_lower then "concept_explanation"
  else if any_in help_patterns user_lower then "help_request"
  else "general".

Definition guide_thinking_prompt (user_text : string) : string :=
  "
                    The student is asking for a direct answer: " +:+
  dquote +:+
  user_text +:+
  dquote +:+
  "
                    
                    IMPORTANT: Don't give the answer directly since the quiz isn't complete.
                    Instead, guide their thinking:
                    1. What concept is this question testing?
                    2. What should they consider or look for?
                    3. What approach works for this type of question?
                    
                    Be specific to the actual question content, not generic.
                    Keep response under 100 words for voice delivery.
                    ".

Definition explain_answer_prompt (user_text : string) : string :=
  "The quiz is complete. Explain why the correct answer is right: " +:+
  user_text.

Definition concept_prompt (user_text : string) : string :=
  "
                Student wants concept explanation: " +:+
  dquote +:+
  user_text +:+
  dquote +:+
  "
                
                Provide a clear, specific explanation using:
                1. Content from the PDF
                2. Real examples 
                3. How it relates to the current question
                4. Why this concept matters
                
                Be educational and specific, not generic. Keep under 100 words for voice.
                ".

Definition help_prompt (user_text : string) : string :=
  "
                Student needs help: " +:+
  dquote +:+
  user_text +:+
  dquote +:+
  "
                
                Provide step-by-step guidance:
                1. Break down what the question is asking
                2. What information they need to find
                3. How to approach this type of problem
                4. What to look for in the answer choices (if MCQ)
                
                Reference specific PDF content when possible. Keep under 100 words for voice.
                ".

Definition enhanced_prompt_text (quiz_type current_question progress difficulty user_text : string) : string :=
  "
        CONTEXT: You are an expert AI tutor helping a student with a " +:+
  quiz_type +:+
  " quiz.
        
        STUDENT SITUATION:
        - Current Question: " +:+
  dquote +:+
  current_question +:+
  dquote +:+
  "
        - Quiz Progress: " +:+
  progress +:+
  "
        - Difficulty Level: " +:+
  difficulty +:+
  "
        - Student asked: " +:+
  dquote +:+
  user_text +:+
  dquote +:+
  "
        
        INSTRUCTIONS:
        1. ALWAYS reference the actual PDF content in your response
        2. Be specific - avoid generic advice like " +:+
  dquote +:+
  "think about key concepts" +:+
  dquote +:+
  "
        3. If it's an MCQ and quiz isn't complete, give conceptual hints, NOT letter answers
        4. If student is stuck, break down the question into smaller parts
        5. Keep response conversational but educational (under 100 words for voice)
        6. Use examples from the PDF when possible
        
        RESPONSE STYLE: Conversational, encouraging, specific, and directly helpful
        
        Now provide a specific, logical response based on the PDF content:
        ".

(** [quiz_context.get(key, default)] *)
Definition get (quiz_context : gmap string string) (key default_ : string) : string :=
  default default_ (quiz_context !! key).

Definition _create_enhanced_quiz_voice_prompt (user_text : string)
  (quiz_context : gmap string string) : string :=
  let current_question := get quiz_context "current_question" "" in
  let quiz_type := get quiz_context "quiz_type" "Unknown" in
  let progress := get quiz_context "progress" "Unknown" in
  let difficulty := get quiz_context "difficulty" "Medium" in
  enhanced_prompt_text quiz_type current_question progress difficulty user_text.

(** The prompt [_handle_voice_message_enhanced] builds before it calls the
    chat service; [quiz_completed] is [st.session_state.get('quiz_completed',
    False)]. *)
Definition enhanced_prompt (user_text : string) (quiz_context : gmap string string)
  (quiz_completed : bool) : string :=
  let question_type := _classify_voice_question user_text in
  if String.eqb question_type "direct_answer_request" then
    if negb quiz_completed then guide_thinking_prompt user_text
    else explain_answer_prompt user_text
  else if String.eqb question_type "concept_explanation" then concept_prompt user_text
  else if String.eqb question_type "help_request" then help_prompt user_text
  else _create_enhanced_quiz_voice_prompt user_text quiz_context.

(** U+1F3A4, as UTF-8 bytes *)
Definition microphone : string := TextProcessor.utf8 [240; 159; 142; 164].

Section Handler.
Variable FAISS_PATH : string.
Variable similarity_search : list Document -> string -> Z -> string + list Document.
Variable load_error : string -> string.
Variable get_pdf_by_id : string -> string -> option PDF.
Variable model : option (string -> string + string).
(** The clean-up of a reply for speech, a text-to-text function of its own. *)
Variable _optimize_for_voice : string -> string.

(** The reply spoken to the student, the messages appended to the text chat
    (role and content), and the world after the call. *)
Definition _handle_voice_message_enhanced (w : World) (quiz_user_id quiz_pdf_id : string)
  (quiz_completed : bool) (user_text : string) (quiz_context : gmap string string)
  : string * list (string * string) * World :=
  let '(result, w) :=
    ChatService.chat_with_pdf FAISS_PATH similarity_search load_error get_pdf_by_id model
      w quiz_user_id quiz_pdf_id (enhanced_prompt user_text quiz_context quiz_completed)
      "Tutor" None in
  match (if success result then data result else None) with
  | Some d =>
      let optimized_response := _optimize_for_voice (response d) in
      (optimized_response,
       [("user", microphone +:+ " " +:+ user_text); ("assistant", optimized_response)], w)
  | None =>
      ("I'm having trouble accessing the PDF content right now. Can you try rephrasing your question?",
       [], w)
  end.

End Handler.

End VoiceInterface.

(** ** backend/services/voice_service.py: VoiceService *)

Module VoiceService.
Import PyStr Re.

(** The patterns of [_is_asking_for_direct_answer]. *)
Definition a_d : cls := Range "a" "d".
Definition direct_answer_patterns : list re :=
  [ seq [WordB; Lit "is"; Plus Space; Cls a_d; Plus Space; Lit "correct"];
    seq [WordB; Lit "what"; Star Dot; Lit "answer"];
    seq [WordB; Lit "which"; Star Dot; Lit "correct"];
    seq [WordB; Lit "what"; Star Dot; Lit "right"];
    seq [WordB; Lit "tell me"; Star Dot; Lit "answer"];
    seq [WordB; Lit "what"; Star Dot; Lit "letter"];
    seq [WordB; Lit "should i choose"];
    seq [WordB; Lit "give me"; Star Dot; Lit "answer"];
    seq [WordB; Lit "whats"; Star Dot; Lit "answer"];
    seq [WordB; Lit "what is"; Star Dot; Lit "answer"] ].

Definition _is_asking_for_direct_answer (user_text : string) : bool :=
  let user_text_lower := lower user_text in
  existsb (fun pattern => bool_decide (is_Some (search no_flags pattern user_text_lower)))
          direct_answer_patterns.

(** [str(b)] *)
Definition str_of_bool (b : bool) : string := if b then "True" else "False".

(** [max(quiz_answers.keys())] on a non-empty dict *)
Definition max_key (quiz_answers : gmap Z string) : option Z :=
  match elements (dom quiz_answers) with
  | [] => None
  | k :: ks => Some (foldl Z.max k ks)
  end.

Definition _create_minimal_quiz_context (quiz_questions : list Question)
  (quiz_type : string) (quiz_answers : gmap Z string) (quiz_completed : bool) : string :=
  let context :=
    "Quiz Type: " +:+ quiz_type +:+ ", " +:+
    "Total Questions: " +:+ str_of_nat (length quiz_questions) +:+ ", " +:+
    "Answered: " +:+ str_of_nat (size quiz_answers) +:+ ", " +:+
    "Completed: " +:+ str_of_bool quiz_completed in
  if negb (bool_decide (quiz_answers = ∅)) && negb quiz_completed &&
     negb (bool_decide (quiz_questions = [])) then
    match max_key quiz_answers with
    | Some last_answered =>
        if (last_answered <=? Z.of_nat (length quiz_questions))%Z then
          match List.find (fun q => (number q =? last_answered)%Z) quiz_questions with
          | Some current_q =>
              context +:+ ", Current: " +:+ String.substring 0 50 (question current_q) +:+ "..."
          | None => context
          end
        else context
    | None => context
    end
  else context.

Definition hint_only_prompt (user_text quiz_context : string) : string :=
  "
                Student asked via voice: " +:+
  dquote +:+
  user_text +:+
  dquote +:+
  "
                
                VOICE RESPONSE RULES:
                - Keep under 25 words
                - Sound natural when spoken aloud
                - Give conceptual hints only, no direct answers
                - Be encouraging and conversational
                - No formatting or bullet points
                
                Quiz context: " +:+
  quiz_context +:+
  "
                
                Give a SHORT spoken hint that helps them think without revealing the answer.
                ".

Definition tutoring_prompt (user_text quiz_context : string) : string :=
  "
                Student asked via voice: " +:+
  dquote +:+
  user_text +:+
  dquote +:+
  "
                
                VOICE RESPONSE RULES:
                - Keep under 30 words
                - Sound natural and conversational when spoken
                - Be helpful and encouraging
                - No bullet points, formatting, or technical language
                - Speak as if talking to a friend
                
                Quiz context: " +:+
  quiz_context +:+
  "
                
                Give a SHORT conversational response as if speaking to them directly.
                ".

(** The prompt [get_voice_response] sends to the chat service. *)
Definition voice_prompt (user_text quiz_context : string) (quiz_completed : bool) : string :=
  let is_asking_for_answer := _is_asking_for_direct_answer user_text in
  if is_asking_for_answer && negb quiz_completed
  then hint_only_prompt user_text quiz_context
  else tutoring_prompt user_text quiz_context.

(** The data of a voice response; the error response carries a fallback text. *)
Inductive VoiceData :=
| Spoken (response : string) (word_count : nat) (voice_ready : bool)
| Fallback (fallback_text : string).

Section Service.
Variable FAISS_PATH : string.
Variable similarity_search : list Document -> string -> Z -> string + list Document.
Variable load_error : string -> string.
Variable get_pdf_by_id : string -> string -> option PDF.
Variable model : option (string -> string + string).
(** [self.check_voice_service_available()]: the health check of the speech
    service, an HTTP call. *)
Variable voice_available : bool.
(** The clean-up of a reply for speech, a text-to-text function of its own. *)
Variable _optimize_for_voice : string -> string.

Definition get_voice_response (w : World) (user_text user_id pdf_id : string)
  (quiz_questions : list Question) (quiz_type : string) (quiz_answers : gmap Z string)
  (quiz_completed : bool) : ServiceResponse VoiceData * World :=
  if negb voice_available then
    (error_response "Voice service not available"
       (Some (Fallback "Voice service is not running. Please start voicemode service.")), w)
  else
    let quiz_context :=
      _create_minimal_quiz_context quiz_questions quiz_type quiz_answers quiz_completed in
    let prompt := voice_prompt user_text quiz_context quiz_completed in
    let '(result, w) :=
      ChatService.chat_with_pdf FAISS_PATH similarity_search load_error get_pdf_by_id model
        w user_id pdf_id prompt "Tutor" None in
    match (if success result then data result else None) with
    | Some d =>
        let voice_response := _optimize_for_voice (response d) in
        let word_count := length (split_ws voice_response) in
        (success_response "Voice response generated"
           (Some (Spoken voice_response word_count true)), w)
    | None =>
        let fallback := "I'm not sure about that. Can you try asking differently?" in
        (success_response "Fallback response"
           (Some (Spoken fallback (length (split_ws fallback)) true)), w)
    end.

End Service.

End VoiceService.

(** ** Vocabulary of the properties *)

(** The numbers of the capturing groups of a pattern. *)
Fixpoint groups (r : Re.re) : list nat :=
  match r with
  | Re.Group n a => n :: groups a
  | Re.Seq a b | Re.Alt a b => groups a ++ groups b
  | Re.Lookahead a => groups a
  | _ => []
  end.

(** [caps'] is [caps] with captures of the groups [ns] put in front. *)
Definition extends (ns : list nat) (caps caps' : Re.captures) : Prop :=
  ∃ added, caps' = added ++ caps ∧ Forall (fun e => fst e ∈ ns) added.

(** The option letters as a set. *)
Definition letter_set : gset string := list_to_set TextProcessor.letters.

(** The first answer among the outcomes of strategies tried in order. *)
Fixpoint first_some {A} (outcomes : list (option A)) : option A :=
  match outcomes with
  | [] => None
  | Some a :: _ => Some a
  | None :: rest => first_some rest
  end.

(** The stripped non-blank lines of a block, as [_parse_single_mcq_block]
    reads them. *)
Definition block_lines (block : string) : list string :=
  TextProcessor.nonblank_stripped (PyStr.split PyStr.nl block).

(** The answer key kept for a block, given what the strategies found. *)
Definition kept_answer (found : option string) : string :=
  match found with
  | Some a =>
      if negb (String.eqb a "") && bool_decide (a ∈ TextProcessor.letters) then a else "A"
  | None => "A"
  end.

(** The options kept for a block, given the options its lines carry. *)
Definition kept_options (options : gmap string string) : gmap string string :=
  if Nat.ltb (size options) 4 then TextProcessor.fill_missing options else options.

(** The questions of a list of blocks numbered from [i]: each block gives its
    question or nothing. *)
Fixpoint parsed_from (i : Z) (blocks : list string) : list Question :=
  match blocks with
  | [] => []
  | block :: rest =>
      match fst (TextProcessor._parse_single_mcq_block i block) with
      | Some q => q :: parsed_from (i + 1) rest
      | None => parsed_from (i + 1) rest
      end
  end.

(** A block the per-block parse gives up on: it has no question text. *)
Definition unparseable (block : string) : bool :=
  String.eqb (TextProcessor._extract_question_text (block_lines block)) "".

(** Sample blocks: four labelled options with an explicit answer line, four
    options and no answer marker, and two options only. *)
Definition block_marked : string :=
  "What is 2+2?
A) 1
B) 2
C) 4
D) 5
Correct Answer: C".

Definition block_unmarked : string :=
  "Which planet is closest to the sun?
A) Venus
B) Mercury
C) Mars
D) Earth".

Definition block_two_options : string :=
  "Is water wet?
A) Yes
B) No
Answer: B".

(** A quiz as the model is asked to write it. *)
Definition quiz_text : string :=
  "Question 1: What is 2+2?
A) 1
B) 2
C) 4
D) 5
Correct Answer: C

Question 2: Which planet is closest to the sun?
A) Venus
B) Mercury
C) Mars
D) Earth
".

(** The three segmentations of [_split_into_question_blocks], in the order
    they are tried. *)
Definition by_question_marker (content : string) : list string :=
  TextProcessor.second_group_stripped content <$>
    Re.findall Re.SI TextProcessor.pattern1 content.
Definition by_numbering (content : string) : list string :=
  TextProcessor.second_group_stripped content <$>
    Re.findall Re.S_ TextProcessor.pattern2 content.
Definition by_blank_lines (content : string) : list string :=
  List.filter TextProcessor.looks_like_question
    (TextProcessor.nonblank_stripped (PyStr.split (PyStr.nl +:+ PyStr.nl) content)).

(** The first list that is not empty. *)
Fixpoint first_nonempty {A} (ls : list (list A)) : list A :=
  match ls with
  | [] => []
  | [] :: rest => first_nonempty rest
  | l :: _ => l
  end.

(** Parsing an MCQ quiz ends in the error of [parse_quiz_questions]. *)
Definition fails_to_parse (content : string) : Prop :=
  fst (QuizService.parse_quiz_questions content "MCQ") =
    error_response "No valid questions could be parsed" None.

(** A quiz whose only block has option and answer lines but no question
    text. *)
Definition quiz_without_question_text : string :=
  "Question 1: A) x
B) y
Correct Answer: A".

(** A question with number [n] and key [key]; the text and the options play
    no part in checking. *)
Definition keyed (n : Z) (key : string) : Question :=
  {| number := n; question := "?"; options := ∅; correct_answer := key |}.

(** Five questions, and answers of which the first three are right, the
    fourth is wrong and the fifth is missing. *)
Definition five_questions : list Question :=
  [keyed 1 "A"; keyed 2 "B"; keyed 3 "C"; keyed 4 "D"; keyed 5 "A"].
Definition three_right : gmap Z string :=
  <[1%Z := "A"]> (<[2%Z := "B"]> (<[3%Z := "C"]> (<[4%Z := "A"]> ∅))).

(** The percentage before rounding: [(correct_count / total_questions) * 100]. *)
Definition raw_percentage (correct_count total_questions : nat) : float :=
  PrimFloat.mul (PrimFloat.div (PyFloat.of_nat correct_count) (PyFloat.of_nat total_questions))
                100.

(** A sample index: two chunks stored for user [u1], document [d1], found by
    a search that returns the stored chunks as they are. *)
Definition sample_docs : list Document :=
  [ {| page_content := "Plants turn light into sugar."; metadata := ∅ |};
    {| page_content := "Chlorophyll absorbs light."; metadata := ∅ |} ].
Definition return_stored (docs : list Document) (query : string) (k : Z)
  : string + list Document := inr docs.
Definition sample_fs : gmap string node :=
  snd (VectorService.create_pdf_vectors "data/faiss" (fun _ => None) ∅ "u1" "d1" sample_docs).

(** [n] blanks. *)
Fixpoint blanks (n : nat) : string :=
  match n with
  | O => ""
  | S n' => String " " (blanks n')
  end.

(** A context of 60 characters, 24 of them trailing blanks, that shares a
    word with the question asked about it. *)
Definition padded_context : string := "photosynthesis converts light energy" +:+ blanks 24.
Definition padded_question : string := "explain photosynthesis".

(** A world holding the sample index, a loaded model that always replies, and
    a processed document. *)
Definition sample_world : World := {| fs := sample_fs; llm_calls := [] |}.
Definition sample_model : option (string -> string + string) :=
  Some (fun prompt => inr "Plants make sugar from light.").
Definition sample_pdf (pdf_id user_id : string) : option PDF := Some {| processed := true |}.

(** ** Further vocabulary *)

From Stdlib Require Import Sorted.

(** A pattern that captures exactly one character of an allowed class as its
    group 1, and has no other group: the group alone, the group followed by
    a pattern without groups, or such a pattern after one without groups. *)
Inductive letter_pattern (allowed : Re.cls -> Prop) : Re.re -> Prop :=
| lp_group cl :
    allowed cl -> letter_pattern allowed (Re.Group 1 (Re.Cls cl))
| lp_group_then cl post :
    allowed cl -> groups post = [] ->
    letter_pattern allowed (Re.Seq (Re.Group 1 (Re.Cls cl)) post)
| lp_after pre r :
    groups pre = [] -> letter_pattern allowed r ->
    letter_pattern allowed (Re.Seq pre r).

(** The two classes of answer letters the parser's patterns capture. *)
Definition answer_class (cl : Re.cls) : Prop :=
  cl = TextProcessor.AD_ad \/ cl = Re.Range "A" "D".

(** A line that may be taken for the question text: no option line, and no
    answer line. *)
Definition eligible (line : string) : bool :=
  negb (TextProcessor.is_option_line line) && negb (PyStr.contains "Answer:" line).

(** An identifier as the database hands it out: not empty and with no path
    separator in it. *)
Definition plain_id (s : string) : Prop :=
  s ≠ "" ∧ PyStr.contains "/" s = false.

(** What a search answers, given the node found at the path of the index. *)
Definition answer_of
  (similarity_search : list Document -> string -> Z -> string + list Document)
  (load_error : string -> string)
  (found : option node) (vector_path query : string) (k : Z)
  : ServiceResponse (list SearchHit) :=
  match found with
  | None => error_response "Vector database not found. Please re-upload the PDF." None
  | Some Directory => error_response ("Search failed: " +:+ load_error vector_path) None
  | Some (FaissIndex stored) =>
      match similarity_search stored query k with
      | inl e => error_response ("Search failed: " +:+ e) None
      | inr docs =>
          success_response ("Found " +:+ str_of_nat (length docs) +:+ " documents")
            (Some (VectorService.format_hit <$> docs))
      end
  end.

(** The text [os.path.join] puts before a relative user id: the root of the
    indexes, and a separator unless the root is empty or ends in one. *)
Definition root_of (FAISS_PATH : string) : string :=
  if String.eqb FAISS_PATH "" || PyStr.endswith "/" FAISS_PATH
  then FAISS_PATH else FAISS_PATH +:+ "/".

(** The keys [SavedQuiz.from_dict] reads with [data[key]], and all the keys
    [SavedQuiz.to_dict] writes. *)
Definition required_keys : list string :=
  [ "user_id"; "folder_id"; "pdf_id"; "pdf_name"; "quiz_name"; "quiz_type";
    "difficulty"; "questions_data" ].
Definition stored_keys : list string :=
  required_keys ++ [ "topic_focus"; "created_at"; "updated_at" ].

(** ** backend/services/quiz.py: QuizService.generate_quiz

    The arguments are taken as the caller may pass them: a text argument is
    a [str] or None, and the number of questions is any of the values the
    code tells apart. *)

Inductive num_arg :=
| NumNone                     (* None *)
| NumInt (n : Z)              (* an int *)
| NumBool (b : bool)          (* a bool, which is an int to [isinstance] *)
| NumFloat (x : float)        (* a float *)
| NumStr (s : string)         (* a str *)
| NumOther.                   (* a value of any other type *)

(** [int(x)] on a float: the value cut towards zero, ValueError on a NaN and
    OverflowError on an infinity. *)
Inductive int_result :=
| IntValue (n : Z)
| ValueError
| OverflowError.

Module QuizGenerator.
Import PyStr.

Definition int_of_float (x : float) : int_result :=
  match Prim2SF x with
  | S754_zero _ => IntValue 0
  | S754_infinity _ => OverflowError
  | S754_nan => ValueError
  | S754_finite s m e =>
      let magnitude := Z.shiftl (Z.pos m) e in
      IntValue (if s then (- magnitude)%Z else magnitude)
  end.

(** The prompts of [_generate_mcq_quiz] and [_generate_open_ended_quiz]: the
    f-string with the number and the difficulty put in, and the context in
    the place of the one variable left to the prompt template. *)
Definition mcq_prompt (context : string) (num_questions : Z) (difficulty : string) : string :=
  "
Create EXACTLY " +:+
  str_of_Z num_questions +:+
  " multiple choice questions based on the content below.

IMPORTANT RULES:
- Do NOT ask about page numbers, line numbers, or document structure
- Do NOT ask about specific locations in the document  
- Focus on CONCEPTS, PRINCIPLES, and UNDERSTANDING
- Do NOT show any thinking process or <think> tags
- Make questions test comprehension, not memorization
- Each question must have exactly 4 options (A, B, C, D)
- Make questions at " +:+
  difficulty +:+
  " difficulty level
- Clearly indicate the correct answer

GOOD QUESTION TYPES:
- What is the main purpose of...?
- Which principle states that...?
- What are the key characteristics of...?
- Why is [concept] important?
- How does [concept A] relate to [concept B]?
- Which of the following best describes...?

BAD QUESTION TYPES (NEVER ASK):
- On which page can you find...?
- In which section is...?
- What page number contains...?
- Where in the document...?
- Which paragraph mentions...?
- On what line does it say...?

FORMAT:
Question 1: [Question text here - focus on concepts]
A) [Option A]
B) [Option B] 
C) [Option C]
D) [Option D]
Correct Answer: A

Question 2: [Question text here - focus on understanding]
A) [Option A]
B) [Option B]
C) [Option C] 
D) [Option D]
Correct Answer: B

CONTENT: " +:+
  context +:+
  "

Generate " +:+
  str_of_Z num_questions +:+
  " CONCEPTUAL questions now (NO page numbers or document locations):
".

Definition open_ended_prompt (context : string) (num_questions : Z) (difficulty : string) : string :=
  "
Create EXACTLY " +:+
  str_of_Z num_questions +:+
  " open-ended questions based on the content below.

IMPORTANT RULES:
- Do NOT ask about page numbers, sections, or document structure
- Focus on ANALYSIS, EXPLANATION, and CRITICAL THINKING
- Do NOT show any thinking process or <think> tags
- Make questions require detailed explanations
- Test deep understanding, not memorization
- Make questions at " +:+
  difficulty +:+
  " difficulty level

GOOD QUESTION TYPES:
- Explain the significance of...
- Analyze the relationship between...
- Discuss why [concept] is important...
- Compare and contrast [concept A] and [concept B]...
- Evaluate the effectiveness of...
- Describe how you would apply...
- What are the implications of...?

BAD QUESTION TYPES (NEVER ASK):
- List the page numbers where...
- Where in the document can you find...?
- What section discusses...?
- On which page is...?
- Which paragraph contains...?

FORMAT:
Question 1: [Analytical question requiring explanation]

Question 2: [Critical thinking question]

Question 3: [Application or evaluation question]

CONTENT: " +:+
  context +:+
  "

Generate " +:+
  str_of_Z num_questions +:+
  " ANALYTICAL questions now (focus on understanding and application):
".


(** [context = "\n\n".join([result['content'] for result in ...])] *)
Definition context_of (hits : list SearchHit) : string :=
  join (nl +:+ nl) (content <$> hits).

(** The data of a generated quiz. *)
Record QuizData := {
  content : string;
  type : string;
  num_questions : Z;
  difficulty : string;
  topic_focus : string
}.

Section Service.
Variable FAISS_PATH : string.
Variable similarity_search : list Document -> string -> Z -> string + list Document.
Variable load_error : string -> string.
Variable get_pdf_by_id : string -> string -> option PDF.
Variable model : option (string -> string + string).
(** [float(s)] on a str; [None] is ValueError. *)
Variable float_of_str : string -> option float.

(** The helpers send one prompt; an exception of the chain gives the empty
    text.  [generate_quiz] calls them with one of the three difficulty
    names, which hold no brace, so the template has the one variable
    [context]. *)
Definition _generate_mcq_quiz (w : World) (context : string) (num_questions : Z)
  (difficulty topic_focus : string) : string * World :=
  ChatService.invoke model w (mcq_prompt context num_questions difficulty).

Definition _generate_open_ended_quiz (w : World) (context : string) (num_questions : Z)
  (difficulty topic_focus : string) : string * World :=
  ChatService.invoke model w (open_ended_prompt context num_questions difficulty).

(** The conversion of [num_questions] inside its [try]: ValueError and
    TypeError are caught and give 3, OverflowError is not caught there. *)
Definition converted (num_questions : num_arg) : int_result :=
  match num_questions with
  | NumStr s =>
      match float_of_str s with
      | Some x => int_of_float x
      | None => ValueError
      end
  | NumFloat x => int_of_float x
  | NumInt n => IntValue n
  | NumBool b => IntValue (Z.b2z b)
  | NumNone | NumOther => IntValue 3
  end.

Definition generate_quiz (w : World) (user_id pdf_id quiz_type : option string)
  (num_questions : num_arg) (difficulty topic_focus : option string)
  : ServiceResponse QuizData * World :=
  match user_id with
  | None => (error_response "User ID is required" None, w)
  | Some user_id =>
  match pdf_id with
  | None => (error_response "PDF ID is required" None, w)
  | Some pdf_id =>
  let quiz_type := match quiz_type with None => "MCQ" | Some t => t end in
  let quiz_type :=
    if bool_decide (quiz_type ∈ ["MCQ"; "Open-ended"]) then quiz_type else "MCQ" in
  let num_questions := match num_questions with NumNone => NumInt 3 | n => n end in
  match converted num_questions with
  | OverflowError =>
      (error_response "Quiz generation failed: cannot convert float infinity to integer" None,
       w)
  | outcome =>
  let num_questions := match outcome with IntValue n => n | _ => 3%Z end in
  let num_questions :=
    if (num_questions <? 1)%Z || (10 <? num_questions)%Z
    then Z.min (Z.max num_questions 1) 10
    else num_questions in
  let difficulty := match difficulty with None => "Medium" | Some d => d end in
  let difficulty :=
    if bool_decide (difficulty ∈ ["Easy"; "Medium"; "Hard"]) then difficulty else "Medium" in
  let topic_focus := match topic_focus with None => "" | Some t => t end in
  match model with
  | None => (error_response "AI model not available" None, w)
  | Some _ =>
  match get_pdf_by_id pdf_id user_id with
  | None => (error_response "PDF not found" None, w)
  | Some pdf =>
  if negb (processed pdf) then (error_response "PDF is still being processed" None, w)
  else
  let search_query :=
    difficulty +:+ " " +:+ quiz_type +:+ " quiz " +:+ str_of_Z num_questions +:+ " questions" in
  let search_query :=
    if negb (String.eqb topic_focus "")
    then search_query +:+ " about " +:+ topic_focus else search_query in
  let '(search_result, fs') :=
    VectorService.search_pdf_vectors FAISS_PATH similarity_search load_error
      (fs w) user_id pdf_id search_query 8 in
  let w := {| fs := fs'; llm_calls := llm_calls w |} in
  match (if success search_result then data search_result else None) with
  | None | Some [] =>
      (error_response "No content available to generate quiz" None, w)
  | Some hits =>
  let context := context_of hits in
  let '(quiz_content, w) :=
    if String.eqb quiz_type "MCQ"
    then _generate_mcq_quiz w context num_questions difficulty topic_focus
    else _generate_open_ended_quiz w context num_questions difficulty topic_focus in
  if String.eqb quiz_content "" then
    (error_response "Failed to generate quiz content" None, w)
  else
  let clean_content := TextProcessor.clean_ai_output quiz_content in
  (success_response "Quiz generated successfully"
     (Some {| content := clean_content;
              type := quiz_type;
              num_questions := num_questions;
              difficulty := difficulty;
              topic_focus := topic_focus |}), w)
  end end end end end end.

End Service.

End QuizGenerator.

(** The choice among allowed names that stands for an argument: the name
    given when it is allowed, the fallback otherwise. *)
Definition normal_choice (allowed : list string) (fallback : string)
  (given : option string) : string :=
  match given with
  | Some name => if bool_decide (name ∈ allowed) then name else fallback
  | None => fallback
  end.

(** The number of questions that stands for a converted argument: the
    nearest number between 1 and 10, and 3 for an argument that does not
    convert. *)
Definition normal_count (outcome : int_result) : Z :=
  match outcome with
  | IntValue n => Z.max 1 (Z.min n 10)
  | _ => 3
  end.

(** The query [generate_quiz] searches the index with. *)
Definition quiz_query (difficulty quiz_type : string) (num_questions : Z)
  (topic_focus : string) : string :=
  difficulty +:+ " " +:+ quiz_type +:+ " quiz " +:+ str_of_Z num_questions +:+ " questions" +:+
  (if String.eqb topic_focus "" then "" else " about " +:+ topic_focus).

(** The prompt of a quiz type. *)
Definition quiz_prompt (quiz_type context : string) (num_questions : Z)
  (difficulty : string) : string :=
  if String.eqb quiz_type "MCQ"
  then QuizGenerator.mcq_prompt context num_questions difficulty
  else QuizGenerator.open_ended_prompt context num_questions difficulty.

(** ** backend/services/saved_quiz_service.py: SavedQuizService

    The collection [saved_quizzes] holds the documents this service writes
    for arguments of their declared types: texts for the ids and names, a
    list for the questions, a text or None for the topic.  An ObjectId is
    known by a number; the instants of the clock are integers.  A query on
    such documents matches a field that equals the value asked for. *)

Module SavedQuizService.
Import PyStr.

Record document := {
  _id : nat;
  user_id : string;
  folder_id : string;
  pdf_id : string;
  pdf_name : string;
  quiz_name : string;
  quiz_type : string;
  difficulty : string;
  questions_data : list pyval;
  topic_focus : option string;
  created_at : Z;
  updated_at : Z
}.

(** The documents in their natural order, the oldest first. *)
Definition collection := list document.

(** The dict of [SavedQuiz.get_display_info]. *)
Record DisplayInfo := {
  info_id : string;
  info_name : string;
  info_type : string;
  info_difficulty : string;
  info_question_count : nat;
  info_pdf_name : string;
  info_created_at : string;
  info_topic_focus : string
}.

(** The data of [get_quiz_by_id]. *)
Record QuizDetails := {
  quiz_info : DisplayInfo;
  questions : list pyval;
  details_pdf_id : string;
  details_pdf_name : string
}.

(** [s.replace(old, new)] for a non-empty [old]: the occurrences are found
    left to right, none overlapping; [skip] counts the characters of an
    occurrence still to be passed over. *)
Fixpoint replace_go (old new : string) (skip : nat) (s : string) : string :=
  match s with
  | EmptyString => EmptyString
  | String c s' =>
      match skip with
      | S k => replace_go old new k s'
      | O =>
          if startswith old s then new +:+ replace_go old new (len old - 1) s'
          else String c (replace_go old new 0 s')
      end
  end.
Definition replace (old new s : string) : string := replace_go old new 0 s.

(** The filters of the queries. *)
Definition named (user_id folder_id quiz_name : string) (d : document) : bool :=
  String.eqb (SavedQuizService.user_id d) user_id &&
  String.eqb (SavedQuizService.folder_id d) folder_id &&
  String.eqb (SavedQuizService.quiz_name d) quiz_name.
Definition owned (quiz_id : nat) (user_id : string) (d : document) : bool :=
  Nat.eqb (_id d) quiz_id && String.eqb (SavedQuizService.user_id d) user_id.
Definition of_pdf (pdf_id user_id : string) (d : document) : bool :=
  String.eqb (SavedQuizService.pdf_id d) pdf_id &&
  String.eqb (SavedQuizService.user_id d) user_id.
Definition of_folder (folder_id user_id : string) (d : document) : bool :=
  String.eqb (SavedQuizService.folder_id d) folder_id &&
  String.eqb (SavedQuizService.user_id d) user_id.

(** [collection.delete_one(filter)]: the first match goes. *)
Fixpoint delete_one (filter : document -> bool) (c : collection) : collection * nat :=
  match c with
  | [] => ([], 0)
  | d :: rest =>
      if filter d then (rest, 1)
      else let '(rest', n) := delete_one filter rest in (d :: rest', n)
  end.

(** [collection.delete_many(filter)] *)
Definition delete_many (filter : document -> bool) (c : collection) : collection * nat :=
  (List.filter (fun d => negb (filter d)) c, length (List.filter filter c)).

(** [collection.update_one(filter, {"$set": ...})]: the first match is
    changed; the count of modified documents is 0 when the change leaves it
    as it was. *)
Fixpoint update_one (filter : document -> bool) (change : document -> document)
  (same : document -> document -> bool) (c : collection) : collection * nat :=
  match c with
  | [] => ([], 0)
  | d :: rest =>
      if filter d then (change d :: rest, if same d (change d) then 0 else 1)
      else let '(rest', n) := update_one filter change same rest in (d :: rest', n)
  end.

Section Service.
(** [datetime.utcnow()]: the n-th reading of the clock during a call. *)
Variable utcnow : nat -> Z.
(** [ObjectId(quiz_id)]: the id, or the text of the InvalidId raised. *)
Variable ObjectId : string -> string + nat.
(** [str(oid)] *)
Variable str_of_ObjectId : nat -> string.
(** The id [insert_one] gives the new document of a collection. *)
Variable inserted_id : collection -> nat.
(** [t.strftime("%m/%d/%Y")] for an instant, and for [datetime.now()]. *)
Variable strftime : Z -> string.
Variable today : string.

(** [SavedQuiz.get_display_info] on the quiz of a document. *)
Definition get_display_info (d : document) : DisplayInfo :=
  {| info_id := str_of_ObjectId (_id d);
     info_name := quiz_name d;
     info_type := quiz_type d;
     info_difficulty := difficulty d;
     info_question_count := length (questions_data d);
     info_pdf_name := pdf_name d;
     info_created_at := strftime (created_at d);
     info_topic_focus :=
       match topic_focus d with
       | None | Some "" => "General"
       | Some topic => topic
       end |}.

Definition save_quiz (c : collection)
  (user_id folder_id pdf_id pdf_name quiz_name quiz_type difficulty : string)
  (questions_data : list pyval) (topic_focus : option string)
  : ServiceResponse DisplayInfo * collection :=
  match List.find (named user_id folder_id quiz_name) c with
  | Some _ =>
      (error_response
         "Quiz name already exists in this folder. Please choose a different name." None, c)
  | None =>
      let saved_quiz :=
        {| _id := inserted_id c;
           user_id := user_id;
           folder_id := folder_id;
           pdf_id := pdf_id;
           pdf_name := pdf_name;
           quiz_name := quiz_name;
           quiz_type := quiz_type;
           difficulty := difficulty;
           questions_data := questions_data;
           topic_focus := topic_focus;
           created_at := utcnow 0;
           updated_at := utcnow 1 |} in
      (success_response "Quiz saved successfully!" (Some (get_display_info saved_quiz)),
       c ++ [saved_quiz])
  end.

Definition get_quiz_by_id (c : collection) (quiz_id user_id : string)
  : ServiceResponse QuizDetails :=
  match ObjectId quiz_id with
  | inl e => error_response ("Error retrieving quiz: " +:+ e) None
  | inr oid =>
      match List.find (owned oid user_id) c with
      | None => error_response "Quiz not found" None
      | Some quiz_data =>
          success_response "Quiz retrieved successfully"
            (Some {| quiz_info := get_display_info quiz_data;
                     questions := questions_data quiz_data;
                     details_pdf_id := pdf_id quiz_data;
                     details_pdf_name := pdf_name quiz_data |})
      end
  end.

Definition update_quiz_name (c : collection) (quiz_id user_id new_name : string)
  : ServiceResponse unit * collection :=
  match ObjectId quiz_id with
  | inl e => (error_response ("Error updating quiz name: " +:+ e) None, c)
  | inr oid =>
      match List.find (owned oid user_id) c with
      | None => (error_response "Quiz not found" None, c)
      | Some quiz_data =>
          match List.find (fun d => named user_id (folder_id quiz_data) new_name d &&
                                    negb (Nat.eqb (_id d) oid)) c with
          | Some _ => (error_response "Quiz name already exists in this folder" None, c)
          | None =>
              let '(c', modified_count) :=
                update_one (owned oid user_id)
                  (fun d =>
                     {| _id := _id d;
                        user_id := SavedQuizService.user_id d;
                        folder_id := folder_id d;
                        pdf_id := pdf_id d;
                        pdf_name := pdf_name d;
                        quiz_name := new_name;
                        quiz_type := quiz_type d;
                        difficulty := difficulty d;
                        questions_data := questions_data d;
                        topic_focus := topic_focus d;
                        created_at := created_at d;
                        updated_at := utcnow 0 |})
                  (fun d d' => String.eqb (quiz_name d) (quiz_name d') &&
                               Z.eqb (updated_at d) (updated_at d'))
                  c in
              if Nat.ltb 0 modified_count
              then (success_response "Quiz name updated successfully" None, c')
              else (error_response "No changes made" None, c')
          end
      end
  end.

Definition delete_quiz (c : collection) (quiz_id user_id : string)
  : ServiceResponse unit * collection :=
  match ObjectId quiz_id with
  | inl e => (error_response ("Error deleting quiz: " +:+ e) None, c)
  | inr oid =>
      let '(c', deleted_count) := delete_one (owned oid user_id) c in
      if Nat.ltb 0 deleted_count
      then (success_response "Quiz deleted successfully" None, c')
      else (error_response "Quiz not found" None, c')
  end.

Definition delete_quizzes_by_pdf (c : collection) (pdf_id user_id : string)
  : ServiceResponse nat * collection :=
  let '(c', deleted_count) := delete_many (of_pdf pdf_id user_id) c in
  (success_response ("Deleted " +:+ str_of_nat deleted_count +:+ " associated quizzes")
     (Some deleted_count), c').

Definition delete_quizzes_by_folder (c : collection) (folder_id user_id : string)
  : ServiceResponse nat * collection :=
  let '(c', deleted_count) := delete_many (of_folder folder_id user_id) c in
  (success_response ("Deleted " +:+ str_of_nat deleted_count +:+ " quizzes from folder")
     (Some deleted_count), c').

Definition get_quiz_count_by_pdf (c : collection) (pdf_id user_id : string) : nat :=
  length (List.filter (of_pdf pdf_id user_id) c).

(** The name tried for a number. *)
Definition default_name (quiz_number : nat) (clean_pdf_name : string) : string :=
  "Quiz " +:+ str_of_nat quiz_number +:+ " - " +:+ clean_pdf_name +:+ " - " +:+ today.

(** The [while] loop of [generate_default_quiz_name], run for at most [fuel]
    names: the number goes up while the name is taken in the folder. *)
Fixpoint free_name (fuel : nat) (c : collection) (folder_id user_id clean_pdf_name : string)
  (quiz_number : nat) : option string :=
  match fuel with
  | O => None
  | S fuel' =>
      let name := default_name quiz_number clean_pdf_name in
      match List.find (fun d => String.eqb (SavedQuizService.folder_id d) folder_id &&
                                String.eqb (SavedQuizService.user_id d) user_id &&
                                String.eqb (quiz_name d) name) c with
      | Some _ => free_name fuel' c folder_id user_id clean_pdf_name (S quiz_number)
      | None => Some name
      end
  end.

Definition generate_default_quiz_name (fuel : nat) (c : collection)
  (pdf_name folder_id user_id : string) : option string :=
  let existing_count := length (List.filter (of_folder folder_id user_id) c) in
  let quiz_number := existing_count + 1 in
  let clean_pdf_name := replace ".PDF" "" (replace ".pdf" "" pdf_name) in
  free_name fuel c folder_id user_id clean_pdf_name quiz_number.

End Service.

End SavedQuizService.

(** What a saved quiz is known by in its folder: the user, the folder and
    the name. *)
Definition quiz_key (d : SavedQuizService.document) : string * string * string :=
  (SavedQuizService.user_id d, SavedQuizService.folder_id d, SavedQuizService.quiz_name d).

(** The collection holds no two documents with one id, and no two documents
    of one user and folder with one name. *)
Definition well_kept (c : SavedQuizService.collection) : Prop :=
  NoDup (SavedQuizService._id <$> c) ∧ NoDup (quiz_key <$> c).

(** A sample collection: two quizzes of one user in one folder; ids handed
    out in sequence. *)
Definition sample_quiz (id : nat) (name : string) : SavedQuizService.document :=
  {| SavedQuizService._id := id;
     SavedQuizService.user_id := "u1";
     SavedQuizService.folder_id := "f1";
     SavedQuizService.pdf_id := "d1";
     SavedQuizService.pdf_name := "notes.pdf";
     SavedQuizService.quiz_name := name;
     SavedQuizService.quiz_type := "MCQ";
     SavedQuizService.difficulty := "Medium";
     SavedQuizService.questions_data := [];
     SavedQuizService.topic_focus := None;
     SavedQuizService.created_at := 0;
     SavedQuizService.updated_at := 0 |}.
Definition sample_collection : SavedQuizService.collection :=
  [ sample_quiz 1 "Quiz 3 - notes - 11/04/2026"; sample_quiz 2 "Midterm" ].
Definition next_id (c : SavedQuizService.collection) : nat :=
  S (foldr Nat.max 0 (SavedQuizService._id <$> c)).
Definition sample_ObjectId (s : string) : string + nat :=
  if String.eqb s "1" then inr 1
  else if String.eqb s "2" then inr 2
  else inl ("'" +:+ s +:+ "' is not a valid ObjectId").

(** * Properties *)

#[local] Set Warnings "-clear-no-such-hyp".

(** ** Text *)

Section StringFacts.
Import PyStr.

Lemma length_app (a b : string) :
  String.length (a +:+ b) = String.length a + String.length b.
Proof. induction a as [|c a IH]; simpl; [reflexivity | now rewrite IH]. Qed.

Lemma length_rev_app (a b : string) :
  String.length (String.rev_app a b) = String.length a + String.length b.
Proof.
  revert b. induction a as [|c a IH]; intros b; simpl; [reflexivity|].
  rewrite IH. simpl. lia.
Qed.

Lemma length_rev (a : string) : String.length (String.rev a) = String.length a.
Proof. unfold String.rev. rewrite length_rev_app. simpl. lia. Qed.

Lemma len_lstrip (s : string) : len (lstrip s) <= len s.
Proof.
  unfold len. induction s as [|c s IH]; simpl; [lia|].
  destruct (isspace c); simpl; lia.
Qed.

Lemma len_rstrip (s : string) : len (rstrip s) <= len s.
Proof.
  unfold rstrip, len. rewrite length_rev.
  pose proof (len_lstrip (String.rev s)) as H. unfold len in H.
  rewrite length_rev in H. exact H.
Qed.

Lemma len_strip (s : string) : len (strip s) <= len s.
Proof.
  unfold strip. pose proof (len_rstrip (lstrip s)). pose proof (len_lstrip s). lia.
Qed.

End StringFacts.

(** ** The matcher *)

Section MatcherFacts.
Import Re.

Lemma extends_refl ns caps : extends ns caps caps.
Proof. exists []. split; [reflexivity | constructor]. Qed.

Lemma extends_trans ns1 ns2 ns c1 c2 c3 :
  ns1 ⊆ ns → ns2 ⊆ ns →
  extends ns1 c1 c2 → extends ns2 c2 c3 → extends ns c1 c3.
Proof.
  intros H1 H2 (a1 & -> & F1) (a2 & -> & F2). exists (a2 ++ a1). split.
  - now rewrite app_assoc.
  - apply Forall_app. split; (eapply Forall_impl; [eassumption|]); simpl; intros; set_solver.
Qed.

Lemma star_greedy_inv {R} fl cl prev pos s caps (k : @cont R) res :
  star_greedy fl cl prev pos s caps k = Some res →
  ∃ prev' pos' s', k prev' pos' s' caps = Some res.
Proof.
  revert prev pos. induction s as [|c s IH]; intros prev pos; simpl.
  - eauto.
  - destruct (cls_match fl cl c); [|eauto].
    destruct (star_greedy fl cl (Some c) (S pos) s caps k) eqn:E.
    + intros [= <-]. eauto.
    + eauto.
Qed.

Lemma star_lazy_inv {R} fl cl prev pos s caps (k : @cont R) res :
  star_lazy fl cl prev pos s caps k = Some res →
  ∃ prev' pos' s', k prev' pos' s' caps = Some res.
Proof.
  revert prev pos. induction s as [|c s IH]; intros prev pos; simpl.
  - destruct (k prev pos "" caps) eqn:E; [|discriminate]. intros [= <-]. eauto.
  - destruct (k prev pos (String c s) caps) eqn:E.
    + intros [= <-]. eauto.
    + destruct (cls_match fl cl c); [eauto | discriminate].
Qed.

(** A successful match hands its result over from the continuation, called
    with the captures it started from and those of the pattern's own groups. *)
Lemma rmatch_inv r : ∀ R fl prev pos s caps (k : @cont R) res,
  rmatch fl r prev pos s caps k = Some res →
  ∃ prev' pos' s' caps',
    k prev' pos' s' caps' = Some res ∧ extends (groups r) caps caps'.
Proof.
  induction r as [p|cl|cl|cl|cl|a IHa b IHb|a IHa b IHb|n a IHa|a IHa| | |];
    intros R fl prev pos s caps k res; simpl.
  - destruct (lit_match fl p prev s) as [[prev' s']|]; [|discriminate].
    intros H. eauto 8 using extends_refl.
  - destruct s as [|c s]; [discriminate|].
    destruct (cls_match fl cl c); [|discriminate]. eauto 8 using extends_refl.
  - intros (?&?&?&?)%star_greedy_inv. eauto 8 using extends_refl.
  - intros (?&?&?&?)%star_lazy_inv. eauto 8 using extends_refl.
  - destruct s as [|c s]; [discriminate|].
    destruct (cls_match fl cl c); [|discriminate].
    intros (?&?&?&?)%star_greedy_inv. eauto 8 using extends_refl.
  - intros (p1 & q1 & s1 & c1 & H1 & E1)%IHa.
    apply IHb in H1 as (p2 & q2 & s2 & c2 & H2 & E2).
    exists p2, q2, s2, c2. split; [exact H2|].
    eapply extends_trans; [| |exact E1|exact E2]; set_solver.
  - destruct (rmatch fl a prev pos s caps k) eqn:E.
    + intros [= <-]. apply IHa in E as (p1 & q1 & s1 & c1 & H1 & E1).
      exists p1, q1, s1, c1. split; [exact H1|].
      eapply extends_trans; [| |exact E1|apply extends_refl]; set_solver.
    + intros (p1 & q1 & s1 & c1 & H1 & E1)%IHb.
      exists p1, q1, s1, c1. split; [exact H1|].
      eapply extends_trans; [| |exact E1|apply (extends_refl [])]; set_solver.
  - intros (p1 & q1 & s1 & c1 & H1 & (added & -> & F))%IHa.
    exists p1, q1, s1, ((n, (pos, q1)) :: added ++ caps). split; [exact H1|].
    exists ((n, (pos, q1)) :: added). split; [reflexivity|].
    constructor; [set_solver|]. eapply Forall_impl; [exact F|]. simpl. set_solver.
  - destruct (rmatch fl a prev pos s caps (λ _ _ _ caps', Some caps')) eqn:E; [|discriminate].
    apply IHa in E as (p1 & q1 & s1 & c1 & [= ->] & E1). eauto 8.
  - destruct (at_bol fl prev); [|discriminate]. eauto 8 using extends_refl.
  - destruct (at_eol fl s); [|discriminate]. eauto 8 using extends_refl.
  - destruct (at_wordb prev s); [|discriminate]. eauto 8 using extends_refl.
Qed.

End MatcherFacts.

(** ** The quiz parser *)

Section ParserFacts.
Import PyStr Re TextProcessor.

Lemma substring_0_0 s : String.substring 0 0 s = "".
Proof. destruct s; reflexivity. Qed.

(** Peels a successful run of the matcher: a test that must have passed, a
    character that must have been there, a repetition that handed over. *)
Ltac peel H :=
  repeat match type of H with
    | (if ?b then _ else None) = Some _ =>
        let E := fresh "E" in destruct b eqn:E; [|discriminate H]
    | match ?s with EmptyString => None | String _ _ => _ end = Some _ =>
        let c := fresh "c" in let s' := fresh "s" in
        destruct s as [|c s']; [discriminate H|]
    | star_greedy _ _ _ _ _ _ _ = Some _ =>
        let p := fresh "prev" in let q := fresh "pos" in let s' := fresh "s" in
        apply star_greedy_inv in H as (p & q & s' & H)
    | star_lazy _ _ _ _ _ _ _ = Some _ =>
        let p := fresh "prev" in let q := fresh "pos" in let s' := fresh "s" in
        apply star_lazy_inv in H as (p & q & s' & H)
    end.

Lemma option_pattern_letter pattern line m :
  pattern ∈ option_patterns → re_match I_ pattern line = Some m →
  ∃ c, (cls_match I_ (Range "A" "D") c || cls_match I_ (Range "a" "d") c) = true ∧
       group line 1 m = Some (String c "").
Proof.
  intros Hp H. unfold re_match, match_here in H.
  unfold option_patterns in Hp.
  apply elem_of_cons in Hp as [->|Hp]; [|apply elem_of_cons in Hp as [->|Hp]; [|inversion Hp]].
  all: destruct line as [|c s]; [vm_compute in H; discriminate|].
  all: cbn [seq rmatch at_bol] in H; peel H.
  all: injection H as <-; exists c; split; [rewrite E; auto using orb_true_r|].
  all: reflexivity.
Qed.

(** The letters a class of option letters lets through, in upper case. *)
Lemma upper_option_letter c :
  (cls_match I_ (Range "A" "D") c || cls_match I_ (Range "a" "d") c) = true →
  upper (String c "") ∈ letters.
Proof.
  destruct c as [[] [] [] [] [] [] [] []]; vm_compute; intros H; try discriminate H.
  all: unfold letters; set_solver.
Qed.

Lemma option_of_line_dom pats line options :
  (∀ p, p ∈ pats → p ∈ option_patterns) →
  dom options ⊆ letter_set →
  dom (option_of_line pats line options) ⊆ letter_set.
Proof.
  intros Hp Hd. induction pats as [|p pats IH]; simpl; [exact Hd|].
  destruct (re_match I_ p line) as [m|] eqn:E.
  - destruct (option_pattern_letter p line m) as (c & Hc & Hg);
      [apply Hp; left | exact E |].
    rewrite Hg. simpl.
    destruct (negb _); [|exact Hd].
    rewrite dom_insert. apply upper_option_letter in Hc.
    unfold letter_set. set_solver.
  - apply IH. intros q Hq. apply Hp. now right.
Qed.

Lemma extract_options_dom lines : dom (_extract_options lines) ⊆ letter_set.
Proof.
  unfold _extract_options.
  assert (∀ init : gmap string string, dom init ⊆ letter_set →
          dom (foldl (λ options line, option_of_line option_patterns line options)
                 init lines) ⊆ letter_set) as H.
  { induction lines as [|l lines IH]; intros init Hi; cbn [foldl]; [exact Hi|].
    apply IH. apply (option_of_line_dom option_patterns l init); auto. }
  apply H. set_solver.
Qed.

Lemma fill_lookup ls (options : gmap string string) letter :
  foldl (λ options letter,
           match options !! letter with
           | Some _ => options
           | None => <[letter := "Option " +:+ letter]> options
           end) options ls !! letter =
    match options !! letter with
    | Some text => Some text
    | None => if bool_decide (letter ∈ ls) then Some ("Option " +:+ letter) else None
    end.
Proof.
  revert options. induction ls as [|l ls IH]; intros options; cbn [foldl].
  - destruct (options !! letter); [reflexivity|].
    rewrite bool_decide_eq_false_2; [reflexivity | apply not_elem_of_nil].
  - rewrite IH. destruct (options !! l) eqn:El.
    + destruct (options !! letter) eqn:E; [reflexivity|].
      assert (letter ≠ l) by congruence.
      repeat case_bool_decide; try reflexivity; set_solver.
    + destruct (decide (letter = l)) as [->|Hne].
      * rewrite lookup_insert_eq, El.
        rewrite bool_decide_eq_true_2; [reflexivity | left].
      * rewrite lookup_insert_ne by congruence.
        destruct (options !! letter); [reflexivity|].
        repeat case_bool_decide; try reflexivity; set_solver.
Qed.

Lemma fill_missing_lookup options letter :
  fill_missing options !! letter =
    match options !! letter with
    | Some text => Some text
    | None => if bool_decide (letter ∈ letters) then Some ("Option " +:+ letter) else None
    end.
Proof. apply fill_lookup. Qed.

Lemma fill_missing_dom options : dom (fill_missing options) = dom options ∪ letter_set.
Proof.
  apply set_eq. intros k. rewrite elem_of_union, !elem_of_dom, fill_missing_lookup.
  unfold letter_set. rewrite elem_of_list_to_set.
  unfold is_Some.
  destruct (options !! k); [naive_solver|].
  case_bool_decide; naive_solver.
Qed.

Lemma size_letter_set : size letter_set = 4.
Proof. reflexivity. Qed.

(** The options of a parsed question, whether or not placeholders were put in. *)
Lemma filled_options_dom (options : gmap string string) :
  dom options ⊆ letter_set →
  dom (if Nat.ltb (size options) 4 then fill_missing options else options) = letter_set.
Proof.
  intros Hd. destruct (Nat.ltb_spec (size options) 4) as [Hlt|Hge].
  - rewrite fill_missing_dom. set_solver.
  - apply set_subseteq_size_eq; [exact Hd|].
    rewrite size_dom, size_letter_set. lia.
Qed.

(** What [_parse_single_mcq_block] returns, the log apart. *)
Lemma parse_single_value n block :
  fst (_parse_single_mcq_block n block) =
    let lines := block_lines block in
    let question_text := _extract_question_text lines in
    if String.eqb question_text "" then None
    else Some {| number := n;
                 question := question_text;
                 options := kept_options (_extract_options lines);
                 correct_answer := kept_answer (fst (_extract_correct_answer block lines)) |}.
Proof.
  unfold _parse_single_mcq_block, block_lines, kept_options, kept_answer.
  cbv zeta.
  destruct (String.eqb _ "") eqn:Eq; [reflexivity|].
  unfold mbind, Log_bind, log_bind.
  destruct (Nat.ltb _ 4); simpl;
    destruct (_extract_correct_answer _ _) as [[a|] lg]; simpl; try reflexivity.
  all: destruct (negb (a =? "")%string && bool_decide (a ∈ letters)); reflexivity.
Qed.

End ParserFacts.

Section ParserClaims.
Import PyStr Re TextProcessor.

Lemma extract_correct_answer_value block lines :
  fst (_extract_correct_answer block lines) =
    first_some [ first_search IM answer_patterns block;
                 asterisk_marker block;
                 option_marker lines;
                 first_search I_ emphasis_patterns block ].
Proof.
  unfold _extract_correct_answer. cbn [first_some].
  destruct (first_search IM answer_patterns block); [reflexivity|].
  destruct (asterisk_marker block); [reflexivity|].
  destruct (option_marker lines); [reflexivity|].
  destruct (first_search I_ emphasis_patterns block); reflexivity.
Qed.

Lemma kept_answer_letter found : kept_answer found ∈ letters.
Proof.
  unfold kept_answer. destruct found as [a|]; [|unfold letters; set_solver].
  destruct (negb _) ; simpl; [|unfold letters; set_solver].
  case_bool_decide; [assumption | unfold letters; set_solver].
Qed.

Lemma kept_options_dom lines : dom (kept_options (_extract_options lines)) = letter_set.
Proof. apply filled_options_dom, extract_options_dom. Qed.

Lemma parse_single_some n block q :
  fst (_parse_single_mcq_block n block) = Some q →
  q = {| number := n;
         question := _extract_question_text (block_lines block);
         options := kept_options (_extract_options (block_lines block));
         correct_answer :=
           kept_answer (fst (_extract_correct_answer block (block_lines block))) |}
  ∧ unparseable block = false.
Proof.
  rewrite parse_single_value. cbv zeta. unfold unparseable.
  destruct (String.eqb _ ""); [discriminate|]. intros [= <-]. split; reflexivity.
Qed.

Lemma parse_single_none n block :
  fst (_parse_single_mcq_block n block) = None ↔ unparseable block = true.
Proof.
  rewrite parse_single_value. cbv zeta. unfold unparseable.
  destruct (String.eqb _ ""); split; congruence.
Qed.

Lemma parse_blocks_value i blocks :
  fst (parse_blocks i blocks) = parsed_from i blocks.
Proof.
  revert i. induction blocks as [|b blocks IH]; intros i; [reflexivity|].
  cbn [parse_blocks parsed_from]. unfold mbind, Log_bind, log_bind.
  destruct (_parse_single_mcq_block i b) as [[q|] lg]; cbn [fst snd].
  - specialize (IH (i + 1)%Z). destruct (parse_blocks (i + 1) blocks) as [qs lg'].
    cbn in *. now rewrite IH.
  - specialize (IH (i + 1)%Z). destruct (parse_blocks (i + 1) blocks) as [qs lg'].
    cbn in *. exact IH.
Qed.

Lemma parse_mcq_questions_value content :
  fst (parse_mcq_questions content) =
    parsed_from 1 (fst (_split_into_question_blocks content)).
Proof.
  unfold parse_mcq_questions, mbind, Log_bind, log_bind.
  destruct (_split_into_question_blocks content) as [[|b blocks] lg]; cbn [fst snd].
  - reflexivity.
  - pose proof (parse_blocks_value 1 (b :: blocks)) as H.
    destruct (parse_blocks 1 (b :: blocks)) as [qs lg']. exact H.
Qed.

Lemma parsed_from_Forall (P : Question → Prop) i blocks :
  (∀ n block q, fst (_parse_single_mcq_block n block) = Some q → P q) →
  Forall P (parsed_from i blocks).
Proof.
  intros HP. revert i. induction blocks as [|b blocks IH]; intros i; cbn [parsed_from].
  - constructor.
  - destruct (fst (_parse_single_mcq_block i b)) as [q|] eqn:E; [|apply IH].
    constructor; [eapply HP, E | apply IH].
Qed.

End ParserClaims.

(** ** Claims on the quiz parser *)

Section ParserTheorems.
Import PyStr Re TextProcessor.


(** C2.  Every question the parser returns has an options mapping with
    exactly the four keys A, B, C, D, and a correct answer that is one of
    them.  The text found for a letter is kept; when fewer than four options
    are found, each missing letter gets the placeholder "Option X", and the
    block is not failed for it.  The sample block with two labelled options
    gets a four-entry mapping with the placeholders "Option C" and
    "Option D". *)
Theorem C2_four_options_invariant (content : string) :
  Forall (λ q, dom (options q) = letter_set ∧ size (options q) = 4 ∧
               correct_answer q ∈ dom (options q))
         (fst (parse_mcq_questions content))
  ∧ (∀ n block q,
       fst (_parse_single_mcq_block n block) = Some q →
       let found := _extract_options (block_lines block) in
       (∀ letter text, found !! letter = Some text → options q !! letter = Some text) ∧
       (size found < 4 → ∀ letter, letter ∈ letters → found !! letter = None →
          options q !! letter = Some ("Option " +:+ letter)))
  ∧ (∀ n block,
       _extract_question_text (block_lines block) ≠ "" →
       is_Some (fst (_parse_single_mcq_block n block)))
  ∧ size (_extract_options (block_lines block_two_options)) = 2
  ∧ (λ q, (size (options q), (λ l, options q !! l) <$> letters)) <$>
      fst (_parse_single_mcq_block 1 block_two_options) =
      Some (4, [ Some "Yes"; Some "No"; Some "Option C"; Some "Option D" ]).
Proof.
  split.
  { rewrite parse_mcq_questions_value. apply parsed_from_Forall.
    intros n block q [-> _]%parse_single_some. cbn [options correct_answer].
    rewrite <- size_dom, kept_options_dom. split; [reflexivity|].
    split; [reflexivity|].
    unfold letter_set. rewrite elem_of_list_to_set. apply kept_answer_letter. }
  split.
  { intros n block q [-> _]%parse_single_some. cbv zeta. cbn [options].
    unfold kept_options. split.
    - intros letter text Hl. destruct (Nat.ltb _ 4); [|exact Hl].
      now rewrite fill_missing_lookup, Hl.
    - intros Hlt letter Hin Hl.
      destruct (Nat.ltb_spec (size (_extract_options (block_lines block))) 4); [|lia].
      rewrite fill_missing_lookup, Hl. now rewrite bool_decide_eq_true_2. }
  split.
  { intros n block Hq. rewrite parse_single_value. cbv zeta.
    destruct (String.eqb_spec (_extract_question_text (block_lines block)) "");
      [contradiction | eauto]. }
  split; vm_compute; reflexivity.
Qed.

End ParserTheorems.

Section SegmentationTheorems.
Import PyStr Re TextProcessor.

Lemma split_blocks_value content :
  fst (_split_into_question_blocks content) =
    first_nonempty [by_question_marker content; by_numbering content; by_blank_lines content].
Proof.
  unfold _split_into_question_blocks, by_question_marker, by_numbering, by_blank_lines.
  cbv zeta. cbn [first_nonempty].
  destruct (findall SI pattern1 content) as [|m1 ms1]; cbn [negb bool_decide fmap list_fmap];
    [|reflexivity].
  rewrite bool_decide_eq_true_2 by reflexivity. cbn [negb].
  destruct (findall S_ pattern2 content) as [|m2 ms2]; [|reflexivity].
  rewrite bool_decide_eq_true_2 by reflexivity. cbn [negb fmap list_fmap].
  destruct (List.filter looks_like_question _) as [|b bs]; reflexivity.
Qed.

Lemma parsed_from_nil i blocks :
  parsed_from i blocks = [] ↔ forallb unparseable blocks = true.
Proof.
  revert i. induction blocks as [|b blocks IH]; intros i; cbn [parsed_from forallb].
  - split; reflexivity.
  - destruct (fst (_parse_single_mcq_block i b)) as [q|] eqn:E.
    + apply parse_single_some in E as [_ ->]. split; discriminate.
    + apply parse_single_none in E as ->. apply IH.
Qed.

Lemma parsed_from_length i blocks :
  length (parsed_from i blocks) = length (List.filter (λ b, negb (unparseable b)) blocks).
Proof.
  revert i. induction blocks as [|b blocks IH]; intros i; cbn [parsed_from List.filter].
  - reflexivity.
  - destruct (fst (_parse_single_mcq_block i b)) as [q|] eqn:E.
    + apply parse_single_some in E as [_ ->]. cbn. now rewrite IH.
    + apply parse_single_none in E as ->. cbn. apply IH.
Qed.

Lemma parse_blocks_log i blocks k block :
  blocks !! k = Some block → unparseable block = true →
  WARNING ("Failed to parse question block " +:+ str_of_Z (i + Z.of_nat k))
    ∈ snd (parse_blocks i blocks).
Proof.
  revert i k. induction blocks as [|b blocks IH]; intros i k Hk Hu; [discriminate|].
  cbn [parse_blocks]. unfold mbind, Log_bind, log_bind.
  destruct k as [|k]; cbn in Hk.
  - injection Hk as ->. apply parse_single_none with (n := i) in Hu.
    destruct (_parse_single_mcq_block i block) as [[q|] lg]; [discriminate|].
    cbn [fst snd]. destruct (parse_blocks (i + 1) blocks) as [qs lg'].
    cbn [fst snd warning log_ret]. replace (i + Z.of_nat 0)%Z with i by lia.
    rewrite !elem_of_app, list_elem_of_singleton. auto.
  - specialize (IH (i + 1)%Z k Hk Hu).
    replace (i + 1 + Z.of_nat k)%Z with (i + Z.of_nat (S k))%Z in IH by lia.
    destruct (_parse_single_mcq_block i b) as [[q|] lg]; cbn [fst snd];
      destruct (parse_blocks (i + 1) blocks) as [qs lg'];
      cbn [fst snd warning log_ret] in *; rewrite !elem_of_app; auto.
Qed.

Lemma parse_mcq_questions_log content k block :
  fst (_split_into_question_blocks content) !! k = Some block →
  unparseable block = true →
  WARNING ("Failed to parse question block " +:+ str_of_Z (1 + Z.of_nat k))
    ∈ snd (parse_mcq_questions content).
Proof.
  intros Hk Hu. unfold parse_mcq_questions, mbind, Log_bind, log_bind.
  destruct (_split_into_question_blocks content) as [[|b blocks] lg]; cbn [fst snd] in *;
    [discriminate|].
  pose proof (parse_blocks_log 1 (b :: blocks) k block Hk Hu) as H.
  destruct (parse_blocks 1 (b :: blocks)) as [qs lg']. cbn [fst snd] in *.
  rewrite elem_of_app. auto.
Qed.

Lemma parse_quiz_questions_value content :
  fst (QuizService.parse_quiz_questions content "MCQ") =
    match parsed_from 1 (fst (_split_into_question_blocks content)) with
    | [] => error_response "No valid questions could be parsed" None
    | questions =>
        success_response ("Parsed " +:+ str_of_nat (length questions) +:+ " questions")
          (Some (QuizService.MCQ questions))
    end.
Proof.
  rewrite <- parse_mcq_questions_value.
  unfold QuizService.parse_quiz_questions. cbn [String.eqb Ascii.eqb Bool.eqb].
  unfold mbind, Log_bind, log_bind.
  destruct (parse_mcq_questions content) as [[|q qs] lg]; reflexivity.
Qed.

Lemma parse_quiz_questions_log content r :
  r ∈ snd (parse_mcq_questions content) →
  r ∈ snd (QuizService.parse_quiz_questions content "MCQ").
Proof.
  unfold QuizService.parse_quiz_questions. cbn [String.eqb Ascii.eqb Bool.eqb].
  unfold mbind, Log_bind, log_bind.
  destruct (parse_mcq_questions content) as [[|q qs] lg]; cbn [fst snd log_ret error];
    rewrite ?elem_of_app; auto.
Qed.

(** C4, as the specification words it, fails on a quiz whose one recognized
    block has no question text: a block is recognized and the call ends in
    the error all the same. *)
Lemma C4_recognized_block_yet_error :
  ¬ (fails_to_parse quiz_without_question_text ↔
     fst (_split_into_question_blocks quiz_without_question_text) = []).
Proof.
  intros [H _].
  assert (fails_to_parse quiz_without_question_text) as F
    by (unfold fails_to_parse; rewrite parse_quiz_questions_value; vm_compute; reflexivity).
  apply H in F. vm_compute in F. discriminate F.
Qed.

(** C4, amended.  The blocks of a quiz are those of the first of three
    segmentations that gives at least one: the [Question N:] markers, the
    [N.] or [N)] numbering, the blank-line split filtered by the options
    test.  Parsing fails with "No valid questions could be parsed" exactly
    when no question was parsed, that is when every recognized block lacks a
    question text, which covers the case of no block at all; otherwise the
    call succeeds with one question for each block that has a question text,
    in order, and each block that has none is left out with the warning
    "Failed to parse question block i" logged. *)
Theorem C4_parse_fails_iff_no_question (content : string) :
  let blocks := fst (_split_into_question_blocks content) in
  let questions := parsed_from 1 blocks in
  blocks = first_nonempty
             [by_question_marker content; by_numbering content; by_blank_lines content]
  ∧ (fails_to_parse content ↔ forallb unparseable blocks = true)
  ∧ (blocks = [] → fails_to_parse content)
  ∧ (forallb unparseable blocks = false →
       fst (QuizService.parse_quiz_questions content "MCQ") =
         success_response ("Parsed " +:+ str_of_nat (length questions) +:+ " questions")
           (Some (QuizService.MCQ questions))
       ∧ 0 < length questions)
  ∧ length questions = length (List.filter (λ b, negb (unparseable b)) blocks)
  ∧ (∀ k block, blocks !! k = Some block → unparseable block = true →
       WARNING ("Failed to parse question block " +:+ str_of_Z (1 + Z.of_nat k))
         ∈ snd (QuizService.parse_quiz_questions content "MCQ"))
  ∧ (λ r, (success r, message r)) (fst (QuizService.parse_quiz_questions quiz_text "MCQ")) =
      (true, "Parsed 2 questions").
Proof.
  cbv zeta. split; [apply split_blocks_value|].
  assert (fails_to_parse content ↔
          forallb unparseable (fst (_split_into_question_blocks content)) = true) as Hiff.
  { unfold fails_to_parse. rewrite parse_quiz_questions_value, <- (parsed_from_nil 1).
    unfold success_response, error_response.
    destruct (parsed_from 1 _); split; congruence. }
  split; [exact Hiff|].
  split; [intros E; apply Hiff; rewrite E; reflexivity|].
  split.
  { intros Hf. rewrite parse_quiz_questions_value.
    destruct (parsed_from 1 _) as [|q qs] eqn:E.
    - apply parsed_from_nil in E. congruence.
    - split; [reflexivity | cbn; lia]. }
  split; [apply parsed_from_length|].
  split.
  { intros k block Hk Hu. eapply parse_quiz_questions_log, parse_mcq_questions_log; eauto. }
  rewrite parse_quiz_questions_value. vm_compute. reflexivity.
Qed.

End SegmentationTheorems.

(** ** Claims on the answer checker *)

Section CheckerTheorems.
Import TextProcessor.

Lemma truediv_pos c t : t ≠ 0 →
  PyFloat.truediv c t = Some (PrimFloat.div (PyFloat.of_nat c) (PyFloat.of_nat t)).
Proof. destruct t; [congruence | reflexivity]. Qed.

Lemma length_nonempty {A} (l : list A) : l ≠ [] → length l ≠ 0.
Proof. destruct l; [congruence | discriminate]. Qed.

(** The rounding to tenths picks a nearest integer. *)
Lemma round_half_even_nearest n d : (0 < d)%Z →
  (Z.abs (2 * (n - PyFloat.round_half_even n d * d)) <= d)%Z.
Proof.
  intros Hd. unfold PyFloat.round_half_even.
  pose proof (Z.div_mod n d ltac:(lia)) as Hdm.
  pose proof (Z.mod_pos_bound n d Hd) as Hb.
  destruct (Z.compare_spec (2 * (n mod d)) d) as [E|L|G];
    [destruct (Z.even (n / d))|..]; nia.
Qed.

(** A float that is at least a positive finite float is at least every
    smaller one. *)
Lemma SFleb_lower ma ea mb eb x :
  (ea < eb ∨ (ea = eb ∧ (ma <= mb)%positive))%Z →
  SFleb (S754_finite false mb eb) x = true →
  SFleb (S754_finite false ma ea) x = true.
Proof.
  intros Hlt. unfold SFleb, SFcompare.
  destruct x as [s|s| |s m e]; try (destruct s); try discriminate; try reflexivity.
  change (Pos.compare_cont Eq mb m) with (Pos.compare mb m).
  change (Pos.compare_cont Eq ma m) with (Pos.compare ma m).
  destruct (Z.compare_spec eb e) as [E|L|G]; try discriminate.
  - subst e. destruct (Pos.compare_spec mb m) as [E'|L'|G']; try discriminate; intros _.
    + subst m. destruct (Z.compare_spec ea eb) as [E2|L2|G2]; try reflexivity; try lia.
      destruct (Pos.compare_spec ma mb); try reflexivity; lia.
    + destruct (Z.compare_spec ea eb) as [E2|L2|G2]; try reflexivity; try lia.
      destruct (Pos.compare_spec ma m); try reflexivity; lia.
  - intros _. destruct (Z.compare_spec ea e) as [E2|L2|G2]; try reflexivity; lia.
Qed.

Lemma ge_lower (lo hi p : float) ma ea mb eb :
  Prim2SF lo = S754_finite false ma ea → Prim2SF hi = S754_finite false mb eb →
  (ea < eb ∨ (ea = eb ∧ (ma <= mb)%positive))%Z →
  PyFloat.ge p lo = false → PyFloat.ge p hi = false.
Proof.
  intros Hlo Hhi Hlt. unfold PyFloat.ge. rewrite !FloatAxioms.leb_spec, Hlo, Hhi.
  destruct (SFleb (S754_finite false mb eb) (Prim2SF p)) eqn:E; [|reflexivity].
  now rewrite (SFleb_lower ma ea mb eb _ Hlt E).
Qed.

(** The band of a percentage, by its thresholds. *)
Lemma band_thresholds (p : float) :
  (PyFloat.ge p 90 = true → snd (band p) = "Excellent work!")
  ∧ (PyFloat.ge p 80 = true → PyFloat.ge p 90 = false → snd (band p) = "Great job!")
  ∧ (PyFloat.ge p 70 = true → PyFloat.ge p 80 = false → snd (band p) = "Good effort!")
  ∧ (PyFloat.ge p 60 = true → PyFloat.ge p 70 = false → snd (band p) = "Not bad!")
  ∧ (PyFloat.ge p 60 = false → snd (band p) = "Keep studying!").
Proof.
  assert (PyFloat.ge p 80 = false → PyFloat.ge p 90 = false) as H89.
  { eapply ge_lower; [vm_compute; reflexivity | vm_compute; reflexivity |]. right. split; [reflexivity|]. vm_compute. discriminate. }
  assert (PyFloat.ge p 70 = false → PyFloat.ge p 80 = false) as H78.
  { eapply ge_lower; [vm_compute; reflexivity | vm_compute; reflexivity |]. right. split; [reflexivity|]. vm_compute. discriminate. }
  assert (PyFloat.ge p 60 = false → PyFloat.ge p 70 = false) as H67.
  { eapply ge_lower; [vm_compute; reflexivity | vm_compute; reflexivity |]. left. reflexivity. }
  unfold band. repeat split.
  - intros ->. reflexivity.
  - intros -> ->. reflexivity.
  - intros -> H8. rewrite (H89 H8), H8. reflexivity.
  - intros -> H7. rewrite (H89 (H78 H7)), (H78 H7), H7. reflexivity.
  - intros H6. rewrite (H89 (H78 (H67 H6))), (H78 (H67 H6)), (H67 H6), H6. reflexivity.
Qed.

(** What [QuizService.check_mcq_answers] returns on a non-empty list and a
    non-empty answer map. *)
Lemma check_mcq_answers_value (questions : list Question) (user_answers : gmap Z string) :
  questions ≠ [] → user_answers ≠ ∅ →
  let c := count_correct user_answers questions in
  let t := length questions in
  fst (QuizService.check_mcq_answers questions user_answers) =
    success_response ("Quiz completed: " +:+ str_of_nat c +:+ "/" +:+ str_of_nat t)
      (Some {| QuizService.score := str_of_nat c +:+ "/" +:+ str_of_nat t;
               QuizService.percentage := PyFloat.round1 (raw_percentage c t);
               QuizService.correct_count := c;
               QuizService.total_questions := t;
               QuizService.feedback :=
                 results_text (fst (band (raw_percentage c t))) c t (raw_percentage c t)
                              (snd (band (raw_percentage c t))) |}).
Proof.
  intros Hq Ha. cbv zeta. unfold QuizService.check_mcq_answers, check_mcq_answers.
  rewrite (bool_decide_eq_false_2 _ Ha), (bool_decide_eq_false_2 _ Hq).
  cbn [orb]. rewrite truediv_pos by now apply length_nonempty.
  fold (raw_percentage (count_correct user_answers questions) (length questions)).
  destruct (band _) as [emoji msg]. reflexivity.
Qed.



(** C6, as the specification words it, fails on the empty answer map: the
    checker then answers "Please answer at least one question" and gives no
    total at all. *)
Lemma C6_empty_answers_rejected :
  ¬ ∃ d, data (fst (QuizService.check_mcq_answers five_questions ∅)) = Some d
         ∧ QuizService.total_questions d = length five_questions.
Proof. intros (d & H & _). vm_compute in H. discriminate H. Qed.

(** C6, amended.  On a non-empty question list and a non-empty answer map,
    the total is the number of all questions, answered or not, and the
    correct count is the number of questions whose number the map sends to
    their key: a question whose number is absent from the map is not counted
    as correct, and stays in the total. *)
Theorem C6_unanswered_count_as_incorrect
  (questions : list Question) (user_answers : gmap Z string) :
  questions ≠ [] → user_answers ≠ ∅ →
  ∃ d, data (fst (QuizService.check_mcq_answers questions user_answers)) = Some d
       ∧ QuizService.total_questions d = length questions
       ∧ QuizService.correct_count d =
           length (List.filter (λ q, bool_decide (user_answers !! number q =
                                                  Some (correct_answer q))) questions)
       ∧ (∀ q, q ∈ questions → user_answers !! number q = None →
            is_correct user_answers q = false)
       ∧ QuizService.correct_count d + 
           length (List.filter (λ q, bool_decide (user_answers !! number q = None)) questions)
         ≤ QuizService.total_questions d.
Proof.
  intros Hq Ha. rewrite check_mcq_answers_value by assumption.
  eexists. split; [reflexivity|].
  cbn [QuizService.total_questions QuizService.correct_count].
  split; [reflexivity|]. split; [reflexivity|]. split.
  - intros q _ Hn. unfold is_correct. rewrite Hn. now apply bool_decide_eq_false_2.
  - unfold count_correct, is_correct. clear Hq Ha.
    induction questions as [|q qs IH]; cbn [List.filter length]; [lia|].
    destruct (user_answers !! number q) as [a|] eqn:E.
    + rewrite (bool_decide_eq_false_2 (Some a = None)) by discriminate.
      destruct (bool_decide _); cbn [length]; lia.
    + rewrite (bool_decide_eq_false_2 (None = Some _)) by discriminate.
      rewrite bool_decide_eq_true_2 by reflexivity. cbn [length]. lia.
Qed.

(** The fifth of five questions is unanswered: it is not counted as correct
    and the total stays five. *)
Lemma C6_fifth_unanswered :
  ∃ d, data (fst (QuizService.check_mcq_answers five_questions three_right)) = Some d
       ∧ QuizService.total_questions d = 5
       ∧ QuizService.correct_count d = 3.
Proof.
  destruct (C6_unanswered_count_as_incorrect five_questions three_right)
    as (d & Hd & Ht & Hc & _).
  - discriminate.
  - apply insert_non_empty.
  - exists d. split; [exact Hd|]. split; [exact Ht|]. rewrite Hc. reflexivity.
Defined.

End CheckerTheorems.

(** ** Claims on the vector index *)

Section VectorTheorems.
Import PyStr Os VectorService.

Lemma app_nonempty (a s : string) : s ≠ "" → a +:+ s ≠ "".
Proof. destruct a; [auto | discriminate]. Qed.

Lemma endswith_slash_app (a s : string) :
  s ≠ "" → endswith "/" (a +:+ s) = endswith "/" s.
Proof.
  intros Hs. induction a as [|c a IH]; [reflexivity|].
  change (String c a +:+ s) with (String c (a +:+ s)).
  cbn [endswith]. rewrite IH.
  destruct (a +:+ s) eqn:E; [now apply app_nonempty in E|].
  cbn [String.eqb]. now destruct (Ascii.eqb "/" c).
Qed.

(** The directory of a user's indexes is not empty and ends in no separator. *)
Lemma user_vector_dir_shape (x : string) :
  path_join x "vectors" ≠ "" ∧ endswith "/" (path_join x "vectors") = false.
Proof.
  unfold path_join. cbn [startswith Ascii.eqb Bool.eqb andb].
  destruct (String.eqb x "" || endswith "/" x); split;
    try (apply app_nonempty; discriminate);
    try (apply app_nonempty, app_nonempty; discriminate).
  - now rewrite endswith_slash_app.
  - now rewrite !endswith_slash_app.
Qed.

Lemma startswith_slash_app (a s : string) :
  startswith "/" a = false → startswith "/" s = false → startswith "/" (a +:+ s) = false.
Proof. destruct a; cbn; auto. Qed.

(** The path of an index is its user's directory, a separator and a name. *)
Lemma vector_path_shape FAISS_PATH fs user_id pdf_id :
  startswith "/" pdf_id = false →
  fst (_get_vector_path FAISS_PATH fs user_id pdf_id) =
    path_join (path_join FAISS_PATH user_id) "vectors" +:+ "/" +:+ pdf_id +:+ "_vectors".
Proof.
  intros Hp. unfold _get_vector_path. cbn [fst].
  destruct (user_vector_dir_shape (path_join FAISS_PATH user_id)) as [Hne He].
  unfold path_join at 1. rewrite startswith_slash_app by (exact Hp || reflexivity).
  rewrite He, orb_false_r.
  destruct (String.eqb_spec (path_join (path_join FAISS_PATH user_id) "vectors") "");
    [contradiction | reflexivity].
Qed.

Lemma parents_go_length seen s p :
  p ∈ parents_go seen s → String.length p < String.length seen + String.length s.
Proof.
  revert seen. induction s as [|c s IH]; intros seen; cbn [parents_go].
  - intros H. now apply elem_of_nil in H.
  - rewrite elem_of_app. intros [H|H].
    + destruct (Ascii.eqb c "/" && negb (String.eqb seen "")); [|now apply elem_of_nil in H].
      apply list_elem_of_singleton in H as ->. rewrite length_rev. cbn. lia.
    + apply IH in H. cbn in *. lia.
Qed.

Lemma parents_length path p : p ∈ parents path → String.length p < String.length path.
Proof. intros H. apply parents_go_length in H. exact H. Qed.

Lemma makedirs_lookup (fs : gmap string node) path q :
  String.length path < String.length q → makedirs fs path !! q = fs !! q.
Proof.
  intros Hl. unfold makedirs.
  assert (∀ p, p ∈ parents path ++ [path] → p ≠ q) as Hne.
  { intros p [H|H]%elem_of_app Heq; subst.
    - apply parents_length in H. lia.
    - apply list_elem_of_singleton in H. subst. lia. }
  revert fs Hne. generalize (parents path ++ [path]).
  induction l as [|d l IH]; intros fs Hne; cbn [foldl]; [reflexivity|].
  rewrite IH by (intros p Hp; apply Hne; now right).
  unfold mkdir. destruct (fs !! d); [reflexivity|].
  apply lookup_insert_ne, Hne. now left.
Qed.

(** Creating a user's directory leaves the entry of an index as it was. *)
Lemma get_vector_path_lookup FAISS_PATH (fs : gmap string node) user_id pdf_id :
  startswith "/" pdf_id = false →
  snd (_get_vector_path FAISS_PATH fs user_id pdf_id)
    !! fst (_get_vector_path FAISS_PATH fs user_id pdf_id)
  = fs !! fst (_get_vector_path FAISS_PATH fs user_id pdf_id).
Proof.
  intros Hp. rewrite vector_path_shape by exact Hp.
  unfold _get_vector_path. cbn [snd]. apply makedirs_lookup.
  rewrite !length_app. cbn. lia.
Qed.

Lemma get_vector_path_fst FAISS_PATH (fs fs' : gmap string node) user_id pdf_id :
  fst (_get_vector_path FAISS_PATH fs user_id pdf_id) =
  fst (_get_vector_path FAISS_PATH fs' user_id pdf_id).
Proof. reflexivity. Qed.

Lemma rmtree_lookup (fs : gmap string node) path : rmtree fs path !! path = None.
Proof.
  unfold rmtree. apply map_lookup_filter_None. right. intros x _.
  cbn [fst]. rewrite String.eqb_refl. cbn. tauto.
Qed.

Section Service.
Variable FAISS_PATH : string.
Variable similarity_search : list Document -> string -> Z -> string + list Document.
Variable load_error : string -> string.

#[local] Abbreviation search := (search_pdf_vectors FAISS_PATH similarity_search load_error).
#[local] Abbreviation delete := (delete_pdf_vectors FAISS_PATH).
#[local] Abbreviation path_of fs user_id pdf_id :=
  (fst (_get_vector_path FAISS_PATH fs user_id pdf_id)).

Lemma delete_response fs user_id pdf_id :
  fst (delete fs user_id pdf_id) = success_response "PDF vectors deleted successfully" None.
Proof.
  unfold delete_pdf_vectors. destruct (_get_vector_path _ _ _ _) as [vp fs']. reflexivity.
Qed.

Lemma delete_removes fs user_id pdf_id :
  startswith "/" pdf_id = false →
  snd (delete fs user_id pdf_id) !! path_of fs user_id pdf_id = None.
Proof.
  intros Hp. pose proof (get_vector_path_lookup FAISS_PATH fs user_id pdf_id Hp) as Hl.
  unfold delete_pdf_vectors.
  destruct (_get_vector_path FAISS_PATH fs user_id pdf_id) as [vp fs'] eqn:E.
  cbn [fst snd] in *. unfold exists_. case_bool_decide as Hex.
  - apply rmtree_lookup.
  - destruct (fs' !! vp) eqn:E'; [exfalso; apply Hex; eauto | reflexivity].
Qed.

Lemma search_missing fs user_id pdf_id query k :
  startswith "/" pdf_id = false →
  fs !! path_of fs user_id pdf_id = None →
  fst (search fs user_id pdf_id query k) =
    error_response "Vector database not found. Please re-upload the PDF." None.
Proof.
  intros Hp Hn. pose proof (get_vector_path_lookup FAISS_PATH fs user_id pdf_id Hp) as Hl.
  unfold search_pdf_vectors.
  destruct (_get_vector_path FAISS_PATH fs user_id pdf_id) as [vp fs'] eqn:E.
  cbn [fst snd] in *. rewrite Hl, Hn. reflexivity.
Qed.

(** C7.  For a user id and a document id (the document id not an absolute
    path), on any file system: delete answers success whether or not the
    index exists; a search on a document whose index does not exist answers
    the error "Vector database not found. Please re-upload the PDF." with no
    result list; so does a search after a delete, whatever was stored
    before; and a second delete answers success again. *)
Theorem C7_delete_idempotent_search_not_found
  (fs : gmap string node) (user_id pdf_id query : string) (k : Z) :
  startswith "/" pdf_id = false →
  fst (delete fs user_id pdf_id) = success_response "PDF vectors deleted successfully" None
  ∧ (fs !! path_of fs user_id pdf_id = None →
       fst (delete fs user_id pdf_id) =
         success_response "PDF vectors deleted successfully" None
       ∧ fst (search fs user_id pdf_id query k) =
           error_response "Vector database not found. Please re-upload the PDF." None)
  ∧ fst (search (snd (delete fs user_id pdf_id)) user_id pdf_id query k) =
      error_response "Vector database not found. Please re-upload the PDF." None
  ∧ fst (delete (snd (delete fs user_id pdf_id)) user_id pdf_id) =
      success_response "PDF vectors deleted successfully" None.
Proof.
  intros Hp. split; [apply delete_response|].
  split; [intros Hn; split; [apply delete_response | now apply search_missing]|].
  split; [|apply delete_response].
  apply search_missing; [exact Hp|].
  rewrite (get_vector_path_fst FAISS_PATH _ fs). now apply delete_removes.
Qed.

(** C10.  When a search succeeds, every entry of its result list has the
    score 1.0, whatever the query and the stored chunks. *)
Theorem C10_score_is_constant
  (fs : gmap string node) (user_id pdf_id query : string) (k : Z)
  (hits : list SearchHit) :
  success (fst (search fs user_id pdf_id query k)) = true →
  data (fst (search fs user_id pdf_id query k)) = Some hits →
  Forall (λ hit, hit_score hit = 1%float) hits.
Proof.
  unfold search_pdf_vectors.
  destruct (_get_vector_path FAISS_PATH fs user_id pdf_id) as [vp fs'].
  destruct (fs' !! vp) as [[|stored]|]; cbn; try discriminate.
  destruct (similarity_search stored query k) as [e|docs]; cbn; try discriminate.
  intros _ [= <-]. apply Forall_fmap, Forall_true. reflexivity.
Qed.

End Service.

(** The sample index is found before the delete and not after it. *)
Lemma C7_sample_delete_then_search :
  success (fst (search_pdf_vectors "data/faiss" return_stored (λ _, "no index")
                  sample_fs "u1" "d1" "light" 5)) = true
  ∧ fst (delete_pdf_vectors "data/faiss" sample_fs "u1" "d1") =
      success_response "PDF vectors deleted successfully" None
  ∧ fst (search_pdf_vectors "data/faiss" return_stored (λ _, "no index")
           (snd (delete_pdf_vectors "data/faiss" sample_fs "u1" "d1")) "u1" "d1" "light" 5) =
      error_response "Vector database not found. Please re-upload the PDF." None.
Proof.
  split; [vm_compute; reflexivity|].
  destruct (C7_delete_idempotent_search_not_found "data/faiss" return_stored
              (λ _, "no index") sample_fs "u1" "d1" "light" 5) as (Hd & _ & Hs & _).
  - reflexivity.
  - split; [exact Hd | exact Hs].
Defined.

(** The two hits of a search on the sample index both score 1.0. *)
Lemma C10_sample_scores :
  ∃ hits, data (fst (search_pdf_vectors "data/faiss" return_stored (λ _, "no index")
                       sample_fs "u1" "d1" "light" 5)) = Some hits
          ∧ length hits = 2
          ∧ Forall (λ hit, hit_score hit = 1%float) hits.
Proof.
  eexists. split; [vm_compute; reflexivity|]. split; [reflexivity|].
  apply (C10_score_is_constant "data/faiss" return_stored (λ _, "no index")
           sample_fs "u1" "d1" "light" 5); vm_compute; reflexivity.
Defined.

End VectorTheorems.

(** ** Claims on the retrieval context *)

Section ChatTheorems.
Import PyStr ChatService.


Lemma weak_iff question context :
  _is_context_too_weak question context = true ↔
  len (strip context) < 50 ∨
  (len context < 200 ∧ (word_set question ∖ common_words) ∩ word_set context = ∅).
Proof.
  unfold _is_context_too_weak.
  destruct (Nat.ltb_spec (len (strip context)) 50) as [H50|H50]; [tauto|].
  cbv zeta. rewrite <- (leibniz_equiv_iff _ ∅), <- size_empty_iff.
  destruct (Nat.eqb_spec (size ((word_set question ∖ common_words) ∩ word_set context)) 0)
    as [H0|H0];
    destruct (Nat.ltb_spec (len context) 200) as [H200|H200]; cbn [andb];
    (split; [try tauto; try discriminate | try tauto; intros [?|[? ?]]; exfalso; lia]).
Qed.

Section Service.
Variable FAISS_PATH : string.
Variable similarity_search : list Document -> string -> Z -> string + list Document.
Variable load_error : string -> string.
Variable get_pdf_by_id : string -> string -> option PDF.
Variable model : option (string -> string + string).

#[local] Abbreviation search :=
  (VectorService.search_pdf_vectors FAISS_PATH similarity_search load_error).
#[local] Abbreviation chat :=
  (chat_with_pdf FAISS_PATH similarity_search load_error get_pdf_by_id model).


End Service.


End ChatTheorems.

(** ** Claims on saved quizzes *)

Section SavedQuizTheorems.
Import SavedQuiz.

(** C8.  For every saved quiz [q] and every clock, [from_dict (to_dict q)]
    succeeds and gives a quiz whose user_id, folder_id, pdf_id, pdf_name,
    quiz_name, quiz_type, difficulty, questions_data, topic_focus (also when
    it is None), created_at and updated_at are those of [q]. *)
Theorem C8_from_dict_to_dict (utcnow : nat → pyval) (q : SavedQuiz.t) :
  ∃ q', from_dict utcnow (to_dict q) = Some q'
        ∧ user_id q' = user_id q
        ∧ folder_id q' = folder_id q
        ∧ pdf_id q' = pdf_id q
        ∧ pdf_name q' = pdf_name q
        ∧ quiz_name q' = quiz_name q
        ∧ quiz_type q' = quiz_type q
        ∧ difficulty q' = difficulty q
        ∧ questions_data q' = questions_data q
        ∧ topic_focus q' = topic_focus q
        ∧ (topic_focus q = PNone → topic_focus q' = PNone)
        ∧ created_at q' = created_at q
        ∧ updated_at q' = updated_at q.
Proof.
  destruct q as [u f p pn qn qt d qd tf ca ua i].
  eexists. split; [vm_compute; reflexivity|].
  cbn. repeat split; auto.
Qed.

End SavedQuizTheorems.

(** ** Claims on the voice intent classifier *)

Section VoiceTheorems.
Import PyStr.

Section Service.
Variable FAISS_PATH : string.
Variable similarity_search : list Document -> string -> Z -> string + list Document.
Variable load_error : string -> string.
Variable get_pdf_by_id : string -> string -> option PDF.
Variable model : option (string -> string + string).
Variable _optimize_for_voice : string -> string.

#[local] Abbreviation chat :=
  (ChatService.chat_with_pdf FAISS_PATH similarity_search load_error get_pdf_by_id model).
#[local] Abbreviation handle :=
  (VoiceInterface._handle_voice_message_enhanced FAISS_PATH similarity_search load_error
     get_pdf_by_id model _optimize_for_voice).
#[local] Abbreviation respond :=
  (VoiceService.get_voice_response FAISS_PATH similarity_search load_error get_pdf_by_id
     model true _optimize_for_voice).

(** C9.  The classifier puts every utterance in one of the four buckets by
    membership tests on the lower-cased text, tried in order: the
    direct-answer patterns, then the concept patterns, then the help
    patterns, the first match deciding, else [general].  A direct-answer
    request made while the quiz is incomplete gets the hint-only prompt: the
    voice handler sends the guide-thinking prompt to the chat service, and
    the voice service, whose own direct-answer test is a list of regular
    expressions, sends its hint-only prompt; both differ from the prompt
    used otherwise. *)
Theorem C9_voice_intent (user_text : string) :
  let t := lower user_text in
  let bucket := VoiceInterface._classify_voice_question user_text in
  bucket ∈ ["direct_answer_request"; "concept_explanation"; "help_request"; "general"]
  ∧ (VoiceInterface.any_in VoiceInterface.direct_patterns t = true →
       bucket = "direct_answer_request")
  ∧ (VoiceInterface.any_in VoiceInterface.direct_patterns t = false →
     VoiceInterface.any_in VoiceInterface.concept_patterns t = true →
       bucket = "concept_explanation")
  ∧ (VoiceInterface.any_in VoiceInterface.direct_patterns t = false →
     VoiceInterface.any_in VoiceInterface.concept_patterns t = false →
     VoiceInterface.any_in VoiceInterface.help_patterns t = true →
       bucket = "help_request")
  ∧ (VoiceInterface.any_in VoiceInterface.direct_patterns t = false →
     VoiceInterface.any_in VoiceInterface.concept_patterns t = false →
     VoiceInterface.any_in VoiceInterface.help_patterns t = false →
       bucket = "general")
  ∧ VoiceInterface._classify_voice_question <$>
      [ "What is the answer to question 2?"; "Is it B?"; "Can you explain osmosis";
        "I am stuck here"; "Hello there" ] =
      [ "direct_answer_request"; "direct_answer_request"; "concept_explanation";
        "help_request"; "general" ]
  ∧ (bucket = "direct_answer_request" →
       ∀ quiz_context w quiz_user_id quiz_pdf_id,
         VoiceInterface.enhanced_prompt user_text quiz_context false =
           VoiceInterface.guide_thinking_prompt user_text
         ∧ VoiceInterface.enhanced_prompt user_text quiz_context true =
             VoiceInterface.explain_answer_prompt user_text
         ∧ VoiceInterface.guide_thinking_prompt user_text ≠
             VoiceInterface.explain_answer_prompt user_text
         ∧ handle w quiz_user_id quiz_pdf_id false user_text quiz_context =
             let '(result, w') :=
               chat w quiz_user_id quiz_pdf_id
                 (VoiceInterface.guide_thinking_prompt user_text) "Tutor" None in
             match (if success result then data result else None) with
             | Some d =>
                 (_optimize_for_voice (response d),
                  [("user", VoiceInterface.microphone +:+ " " +:+ user_text);
                   ("assistant", _optimize_for_voice (response d))], w')
             | None =>
                 ("I'm having trouble accessing the PDF content right now. Can you try rephrasing your question?",
                  [], w')
             end)
  ∧ (VoiceService._is_asking_for_direct_answer user_text = true →
       ∀ quiz_context w user_id pdf_id quiz_questions quiz_type quiz_answers,
         VoiceService.voice_prompt user_text quiz_context false =
           VoiceService.hint_only_prompt user_text quiz_context
         ∧ VoiceService.voice_prompt user_text quiz_context true =
             VoiceService.tutoring_prompt user_text quiz_context
         ∧ VoiceService.hint_only_prompt user_text quiz_context ≠
             VoiceService.tutoring_prompt user_text quiz_context
         ∧ fst (respond w user_text user_id pdf_id quiz_questions quiz_type quiz_answers
                  false) =
             fst (let '(result, w') :=
                    chat w user_id pdf_id
                      (VoiceService.hint_only_prompt user_text
                         (VoiceService._create_minimal_quiz_context quiz_questions quiz_type
                            quiz_answers false)) "Tutor" None in
                  match (if success result then data result else None) with
                  | Some d =>
                      (success_response "Voice response generated"
                         (Some (VoiceService.Spoken (_optimize_for_voice (response d))
                                  (length (split_ws (_optimize_for_voice (response d))))
                                  true)), w')
                  | None =>
                      (success_response "Fallback response"
                         (Some (VoiceService.Spoken
                                  "I'm not sure about that. Can you try asking differently?"
                                  10 true)), w')
                  end))
  ∧ VoiceService._is_asking_for_direct_answer <$>
      [ "Is B correct?"; "What's the answer?"; "Should I choose C"; "Explain osmosis" ] =
      [ true; true; true; false ].
Proof.
  cbv zeta. unfold VoiceInterface._classify_voice_question.
  split.
  { destruct (VoiceInterface.any_in VoiceInterface.direct_patterns _);
      [|destruct (VoiceInterface.any_in VoiceInterface.concept_patterns _);
        [|destruct (VoiceInterface.any_in VoiceInterface.help_patterns _)]];
      rewrite !elem_of_cons; auto 6. }
  split; [intros ->; reflexivity|].
  split; [intros -> ->; reflexivity|].
  split; [intros -> -> ->; reflexivity|].
  split; [intros -> -> ->; reflexivity|].
  split; [vm_compute; reflexivity|].
  split.
  { intros Hb quiz_context w quiz_user_id quiz_pdf_id.
    assert (∀ completed,
              VoiceInterface.enhanced_prompt user_text quiz_context completed =
                if negb completed then VoiceInterface.guide_thinking_prompt user_text
                else VoiceInterface.explain_answer_prompt user_text) as He.
    { intros completed. unfold VoiceInterface.enhanced_prompt,
        VoiceInterface._classify_voice_question. now rewrite Hb. }
    split; [apply He|]. split; [apply He|]. split.
    - intros H. vm_compute in H. discriminate H.
    - unfold VoiceInterface._handle_voice_message_enhanced. now rewrite (He false). }
  split.
  { intros Ha quiz_context w user_id pdf_id quiz_questions quiz_type quiz_answers.
    assert (∀ ctx completed,
              VoiceService.voice_prompt user_text ctx completed =
                if negb completed then VoiceService.hint_only_prompt user_text ctx
                else VoiceService.tutoring_prompt user_text ctx) as Hv.
    { intros ctx completed. unfold VoiceService.voice_prompt. rewrite Ha.
      now destruct completed. }
    split; [apply Hv|]. split; [apply Hv|]. split.
    - unfold VoiceService.hint_only_prompt, VoiceService.tutoring_prompt.
      intros H. do 4 apply String.app_inj in H. vm_compute in H. discriminate H.
    - unfold VoiceService.get_voice_response. cbn [negb]. rewrite (Hv _ false). cbn [negb].
      destruct (chat _ _ _ _ _ _) as [result w']. reflexivity. }
  vm_compute. reflexivity.
Qed.

End Service.

End VoiceTheorems.

(** * Further properties *)

#[local] Set Warnings "-clear-no-such-hyp".

(** ** The matcher and the subject it reads *)

Section MatcherRuns.
Import PyStr Re.

Lemma drop_nil n : drop n "" = "".
Proof. destruct n; reflexivity. Qed.

Lemma drop_S n s c r : drop n s = String c r → drop (S n) s = r.
Proof.
  revert s. induction n as [|n IH]; intros s; cbn [drop].
  - intros ->. reflexivity.
  - destruct s as [|d s]; [discriminate|]. apply IH.
Qed.

Lemma drop_add n m s : drop (n + m) s = drop m (drop n s).
Proof.
  revert s. induction n as [|n IH]; intros s; [reflexivity|].
  destruct s as [|c s]; cbn [drop Nat.add]; [now rewrite drop_nil | apply IH].
Qed.

Lemma substring_drop n s c r :
  drop n s = String c r → String.substring n 1 s = String c "".
Proof.
  revert s. induction n as [|n IH]; intros s; cbn [drop].
  - intros ->. cbn. now rewrite substring_0_0.
  - destruct s as [|d s]; [discriminate|]. intros H. cbn. now apply IH.
Qed.

Lemma lit_match_drop fl p prev s prev' s' :
  lit_match fl p prev s = Some (prev', s') → s' = drop (len p) s.
Proof.
  revert prev s. induction p as [|a p IH]; intros prev s; cbn [lit_match len String.length drop].
  - now intros [= _ <-].
  - destruct s as [|b s]; [discriminate|]. destruct (chr_eq fl a b); [|discriminate].
    apply IH.
Qed.

Lemma star_greedy_run {R} subj fl cl prev pos s caps (k : @cont R) res :
  drop pos subj = s →
  star_greedy fl cl prev pos s caps k = Some res →
  ∃ prev' pos' s', k prev' pos' s' caps = Some res ∧ drop pos' subj = s'.
Proof.
  revert prev pos. induction s as [|c s IH]; intros prev pos Hd; cbn [star_greedy].
  - eauto.
  - destruct (cls_match fl cl c); [|eauto].
    destruct (star_greedy fl cl (Some c) (S pos) s caps k) eqn:E.
    + intros [= <-]. eapply IH; [|exact E]. eapply drop_S, Hd.
    + eauto.
Qed.

Lemma star_lazy_run {R} subj fl cl prev pos s caps (k : @cont R) res :
  drop pos subj = s →
  star_lazy fl cl prev pos s caps k = Some res →
  ∃ prev' pos' s', k prev' pos' s' caps = Some res ∧ drop pos' subj = s'.
Proof.
  revert prev pos. induction s as [|c s IH]; intros prev pos Hd; cbn [star_lazy].
  - destruct (k prev pos "" caps) eqn:E; [|discriminate]. intros [= <-]. eauto.
  - destruct (k prev pos (String c s) caps) eqn:E.
    + intros [= <-]. eauto.
    + destruct (cls_match fl cl c); [|discriminate].
      apply IH. eapply drop_S, Hd.
Qed.

(** A successful match calls its continuation at an offset of the subject,
    with the rest of the subject from there. *)
Lemma rmatch_run subj r : ∀ R fl prev pos s caps (k : @cont R) res,
  drop pos subj = s →
  rmatch fl r prev pos s caps k = Some res →
  ∃ prev' pos' s' caps',
    k prev' pos' s' caps' = Some res ∧ drop pos' subj = s' ∧
    extends (groups r) caps caps'.
Proof.
  induction r as [p|cl|cl|cl|cl|a IHa b IHb|a IHa b IHb|n a IHa|a IHa| | |];
    intros R fl prev pos s caps k res Hd; cbn [rmatch groups].
  - destruct (lit_match fl p prev s) as [[prev' s']|] eqn:E; [|discriminate].
    apply lit_match_drop in E. intros H.
    exists prev', (pos + len p), s', caps. split; [exact H|]. split; [|apply extends_refl].
    now rewrite drop_add, Hd.
  - destruct s as [|c s]; [discriminate|].
    destruct (cls_match fl cl c); [|discriminate]. intros H.
    exists (Some c), (S pos), s, caps. split; [exact H|]. split; [|apply extends_refl].
    eapply drop_S, Hd.
  - intros (?&?&?&?&?)%(star_greedy_run subj); [|exact Hd]. eauto 8 using extends_refl.
  - intros (?&?&?&?&?)%(star_lazy_run subj); [|exact Hd]. eauto 8 using extends_refl.
  - destruct s as [|c s]; [discriminate|].
    destruct (cls_match fl cl c); [|discriminate].
    intros (?&?&?&?&?)%(star_greedy_run subj); [|eapply drop_S, Hd].
    eauto 8 using extends_refl.
  - intros (p1 & q1 & s1 & c1 & H1 & D1 & E1)%IHa; [|exact Hd].
    apply IHb in H1 as (p2 & q2 & s2 & c2 & H2 & D2 & E2); [|exact D1].
    exists p2, q2, s2, c2. split; [exact H2|]. split; [exact D2|].
    eapply extends_trans; [| |exact E1|exact E2]; set_solver.
  - destruct (rmatch fl a prev pos s caps k) eqn:E.
    + intros [= <-]. apply IHa in E as (p1 & q1 & s1 & c1 & H1 & D1 & E1); [|exact Hd].
      exists p1, q1, s1, c1. split; [exact H1|]. split; [exact D1|].
      eapply extends_trans; [| |exact E1|apply extends_refl]; set_solver.
    + intros (p1 & q1 & s1 & c1 & H1 & D1 & E1)%IHb; [|exact Hd].
      exists p1, q1, s1, c1. split; [exact H1|]. split; [exact D1|].
      eapply extends_trans; [| |exact E1|apply (extends_refl [])]; set_solver.
  - intros (p1 & q1 & s1 & c1 & H1 & D1 & (added & -> & F))%IHa; [|exact Hd].
    exists p1, q1, s1, ((n, (pos, q1)) :: added ++ caps). split; [exact H1|].
    split; [exact D1|].
    exists ((n, (pos, q1)) :: added). split; [reflexivity|].
    constructor; [set_solver|]. eapply Forall_impl; [exact F|]. simpl. set_solver.
  - destruct (rmatch fl a prev pos s caps (λ _ _ _ caps', Some caps')) eqn:E; [|discriminate].
    apply IHa in E as (p1 & q1 & s1 & c1 & [= ->] & _ & E1); [|exact Hd]. eauto 8.
  - destruct (at_bol fl prev); [|discriminate]. eauto 8 using extends_refl.
  - destruct (at_eol fl s); [|discriminate]. eauto 8 using extends_refl.
  - destruct (at_wordb prev s); [|discriminate]. eauto 8 using extends_refl.
Qed.

Lemma extends_nil caps caps' : extends [] caps caps' → caps' = caps.
Proof.
  intros (added & -> & F). destruct added as [|e added]; [reflexivity|].
  inversion F as [|? ? He _]; subst. now apply elem_of_nil in He.
Qed.

(** A letter pattern hands over with its one capture in front: a character
    of an allowed class, at its offset in the subject. *)
Lemma letter_pattern_run allowed subj r :
  letter_pattern allowed r →
  ∀ R fl prev pos s caps (k : @cont R) res,
    drop pos subj = s →
    rmatch fl r prev pos s caps k = Some res →
    ∃ cl c rest p prev' pos' s',
      allowed cl ∧ cls_match fl cl c = true ∧ drop p subj = String c rest ∧
      k prev' pos' s' ((1, (p, S p)) :: caps) = Some res.
Proof.
  induction 1 as [cl Hcl|cl post Hcl Hpost|pre r Hpre Hr IH];
    intros R fl prev pos s caps k res Hd; cbn [rmatch].
  - destruct s as [|c s]; [discriminate|].
    destruct (cls_match fl cl c) eqn:E; [|discriminate]. intros H.
    exists cl, c, s, pos, (Some c), (S pos), s. auto.
  - destruct s as [|c s]; [discriminate|].
    destruct (cls_match fl cl c) eqn:E; [|discriminate].
    intros (p2 & q2 & s2 & c2 & H2 & _ & E2)%(rmatch_run subj); [|eapply drop_S, Hd].
    rewrite Hpost in E2. apply extends_nil in E2 as ->.
    exists cl, c, s, pos, p2, q2, s2. auto.
  - intros (p1 & q1 & s1 & c1 & H1 & D1 & E1)%(rmatch_run subj); [|exact Hd].
    rewrite Hpre in E1. apply extends_nil in E1 as ->.
    eapply IH; eauto.
Qed.

Lemma search_from_run subj fl r prev pos s m :
  drop pos subj = s →
  search_from fl r prev pos s = Some m →
  ∃ prev' pos' s', match_here fl r prev' pos' s' = Some m ∧ drop pos' subj = s'.
Proof.
  revert prev pos. induction s as [|c s IH]; intros prev pos Hd; cbn [search_from].
  - destruct (match_here fl r prev pos "") eqn:E; [|discriminate]. intros [= <-]. eauto.
  - destruct (match_here fl r prev pos (String c s)) eqn:E.
    + intros [= <-]. eauto.
    + apply IH. eapply drop_S, Hd.
Qed.

(** What a search with a letter pattern captures as group 1. *)
Lemma letter_pattern_search allowed fl r subj m :
  letter_pattern allowed r →
  search fl r subj = Some m →
  ∃ cl c, allowed cl ∧ cls_match fl cl c = true ∧ group subj 1 m = Some (String c "").
Proof.
  intros Hr (prev & pos & s & Hm & Hd)%(search_from_run subj); [|reflexivity].
  unfold match_here in Hm.
  eapply (letter_pattern_run allowed subj) in Hm as
    (cl & c & rest & p & prev' & pos' & s' & Hcl & Hc & Hp & [= <-]); [|exact Hr|exact Hd].
  exists cl, c. split; [exact Hcl|]. split; [exact Hc|].
  unfold group, span. cbn. replace (S p - p) with 1 by lia.
  f_equal. eapply substring_drop, Hp.
Qed.

End MatcherRuns.

(** ** The answer key *)

Section AnswerKey.
Import PyStr Re TextProcessor.

Lemma answer_class_letter fl cl c :
  IGNORECASE fl = true → answer_class cl → cls_match fl cl c = true →
  upper (String c "") ∈ letters.
Proof.
  intros Hi Hcl. unfold cls_match. rewrite Hi.
  assert (cls_has (DOTALL fl) cl = cls_has false cl) as ->
    by (destruct Hcl as [-> | ->]; reflexivity).
  assert (∀ cl', answer_class cl' →
            forallb (λ n,
              implb (cls_has false cl' (ascii_of_nat n) ||
                       true && (cls_has false cl' (lower_char (ascii_of_nat n)) ||
                                cls_has false cl' (upper_char (ascii_of_nat n))))
                    (bool_decide (upper (String (ascii_of_nat n) "") ∈ letters)))
              (List.seq 0 256) = true) as Hall.
  { intros cl' [-> | ->]; vm_compute; reflexivity. }
  specialize (Hall cl Hcl). rewrite forallb_forall in Hall. intros Hc.
  specialize (Hall (nat_of_ascii c)). rewrite ascii_nat_embedding, Hc in Hall.
  cbn [implb] in Hall. eapply bool_decide_eq_true_1, Hall.
  apply in_seq. pose proof (nat_ascii_bounded c). lia.
Qed.

Lemma first_search_letter fl patterns block a :
  IGNORECASE fl = true →
  Forall (letter_pattern answer_class) patterns →
  first_search fl patterns block = Some a → a ∈ letters.
Proof.
  intros Hi. induction 1 as [|p ps Hp _ IH]; cbn [first_search]; [discriminate|].
  destruct (search fl p block) as [m|] eqn:E; [|exact IH].
  eapply letter_pattern_search in E as (cl & c & Hcl & Hc & ->); [|exact Hp].
  intros [= <-]. cbn [default]. eapply answer_class_letter; eassumption.
Qed.

Lemma answer_patterns_shape : Forall (letter_pattern answer_class) answer_patterns.
Proof.
  unfold answer_patterns, answer_class.
  repeat first [apply List.Forall_nil | apply List.Forall_cons]; cbn [seq];
    repeat first [ apply lp_group; auto
                 | apply lp_group_then; [auto | reflexivity]
                 | apply lp_after; [reflexivity|] ].
Qed.

Lemma emphasis_patterns_shape : Forall (letter_pattern answer_class) emphasis_patterns.
Proof.
  unfold emphasis_patterns, answer_class.
  repeat first [apply List.Forall_nil | apply List.Forall_cons]; cbn [seq];
    repeat first [ apply lp_group; auto
                 | apply lp_group_then; [auto | reflexivity]
                 | apply lp_after; [reflexivity|] ].
Qed.

Lemma find_letters (f : string → bool) a : List.find f letters = Some a → a ∈ letters.
Proof. intros [H _]%List.find_some. now apply list_elem_of_In. Qed.

Lemma option_marker_letter lines a : option_marker lines = Some a → a ∈ letters.
Proof.
  induction lines as [|l lines IH]; cbn [option_marker]; [discriminate|].
  destruct (marked_letter l) as [b|] eqn:E; [|exact IH].
  intros [= <-]. eapply find_letters, E.
Qed.

Lemma extract_correct_answer_letter block lines a :
  fst (_extract_correct_answer block lines) = Some a → a ∈ letters.
Proof.
  rewrite extract_correct_answer_value. cbn [first_some].
  destruct (first_search IM answer_patterns block) eqn:E1.
  { intros [= <-]. eapply first_search_letter, E1; [reflexivity|apply answer_patterns_shape]. }
  destruct (asterisk_marker block) eqn:E2.
  { intros [= <-]. eapply find_letters, E2. }
  destruct (option_marker lines) eqn:E3.
  { intros [= <-]. eapply option_marker_letter, E3. }
  destruct (first_search I_ emphasis_patterns block) eqn:E4; [|discriminate].
  intros [= <-]. eapply first_search_letter, E4; [reflexivity|apply emphasis_patterns_shape].
Qed.

(** X1.  Whatever the four strategies of [_extract_correct_answer] find in a
    block is one of the upper-case letters A, B, C, D: a lower-case letter of
    the text is returned in upper case, and no strategy returns anything
    else.  So a parsed question carries the letter found, and the key "A" is
    a default only when every strategy fails; the validity test after the
    extraction never rejects a letter that was found. *)
Theorem X1_found_answer_is_kept (n : Z) (block : string) (q : Question) :
  fst (_parse_single_mcq_block n block) = Some q →
  let found := fst (_extract_correct_answer block (block_lines block)) in
  (∀ a, found = Some a → a ∈ letters ∧ correct_answer q = a)
  ∧ (correct_answer q ≠ "A" → found = Some (correct_answer q))
  ∧ (found = None ↔
       WARNING "No correct answer pattern found" ∈
         snd (_extract_correct_answer block (block_lines block))).
Proof.
  intros [-> _]%parse_single_some. cbv zeta. cbn [correct_answer].
  split; [|split].
  - intros a Ha. pose proof (extract_correct_answer_letter _ _ _ Ha) as Hl.
    split; [exact Hl|]. rewrite Ha. unfold kept_answer.
    rewrite bool_decide_eq_true_2 by exact Hl.
    destruct (String.eqb_spec a "") as [->|_]; [|reflexivity].
    unfold letters in Hl. set_solver.
  - destruct (fst (_extract_correct_answer block (block_lines block))) as [a|] eqn:E.
    + pose proof (extract_correct_answer_letter _ _ _ E) as Hl.
      unfold kept_answer. rewrite bool_decide_eq_true_2 by exact Hl.
      destruct (String.eqb_spec a "") as [->|_]; [|reflexivity].
      unfold letters in Hl. set_solver.
    + cbn. congruence.
  - unfold _extract_correct_answer.
    destruct (first_search IM answer_patterns block);
      [cbn; split; [discriminate | set_solver]|].
    destruct (asterisk_marker block); [cbn; split; [discriminate | set_solver]|].
    destruct (option_marker (block_lines block)); [cbn; split; [discriminate | set_solver]|].
    destruct (first_search I_ emphasis_patterns block);
      [cbn; split; [discriminate | set_solver]|].
    cbn. split; [set_solver | reflexivity].
Qed.

Lemma X1_marked_block :
  ∃ q, fst (_parse_single_mcq_block 1 block_marked) = Some q ∧
       fst (_extract_correct_answer block_marked (block_lines block_marked)) = Some "C" ∧
       correct_answer q = "C".
Proof.
  eexists. split; [rewrite parse_single_value; vm_compute; reflexivity|].
  assert (fst (_extract_correct_answer block_marked (block_lines block_marked)) = Some "C")
    as E by (vm_compute; reflexivity).
  split; [exact E|].
  refine (proj2 (proj1 (X1_found_answer_is_kept 1 block_marked _ _) "C" E)).
  rewrite parse_single_value; vm_compute; reflexivity.
Defined.

End AnswerKey.

(** ** The question text and the numbering *)

Section QuestionText.
Import PyStr Re TextProcessor.

(** [List.find] returns the first element that passes the test. *)
Lemma find_first {A} (f : A → bool) l x :
  List.find f l = Some x →
  ∃ pre post, l = pre ++ x :: post ∧ f x = true ∧ Forall (λ y, f y = false) pre.
Proof.
  induction l as [|y l IH]; cbn [List.find]; [discriminate|].
  destruct (f y) eqn:E.
  - intros [= ->]. exists [], l. auto.
  - intros (pre & post & -> & Hx & Hpre)%IH. exists (y :: pre), post. auto.
Qed.

Lemma find_nothing {A} (f : A → bool) l :
  List.find f l = None ↔ Forall (λ y, f y = false) l.
Proof.
  induction l as [|y l IH]; cbn [List.find].
  - split; [constructor | reflexivity].
  - destruct (f y) eqn:E.
    + split; [discriminate|]. intros [H _]%Forall_cons. congruence.
    + rewrite IH. split; [now constructor | now intros [_ H]%Forall_cons].
Qed.

Lemma startswith_app_contains a b s :
  startswith (a +:+ b) s = true → contains b s = true.
Proof.
  revert s. induction a as [|c a IH]; intros s.
  - change ("" +:+ b) with b. intros H. destruct s; cbn [contains]; now rewrite H.
  - change (String c a +:+ b) with (String c (a +:+ b)).
    destruct s as [|d s]; cbn [startswith]; [discriminate|].
    intros [_ H]%andb_prop. apply IH in H. cbn [contains]. rewrite H. apply orb_true_r.
Qed.

Lemma contains_app a b s : contains (a +:+ b) s = true → contains b s = true.
Proof.
  induction s as [|d s IH]; cbn [contains].
  - rewrite orb_false_r. apply startswith_app_contains.
  - intros [H|H]%orb_prop.
    + now apply startswith_app_contains in H.
    + rewrite (IH H). apply orb_true_r.
Qed.

Lemma first_test_eligible line :
  negb (is_option_line line) && negb (contains "Correct Answer:" line) &&
    negb (contains "Answer:" line) && ends_like_question line
  = eligible line && ends_like_question line.
Proof.
  unfold eligible. destruct (is_option_line line); [reflexivity|]. cbn [negb andb].
  destruct (contains "Answer:" line) eqn:E; [now rewrite andb_false_r|].
  destruct (contains "Correct Answer:" line) eqn:E'; [|reflexivity].
  apply (contains_app "Correct " "Answer:") in E'. congruence.
Qed.

Lemma extract_question_text_value lines :
  _extract_question_text lines =
    match List.find (λ line, eligible line && ends_like_question line) lines with
    | Some line => line
    | None => default "" (List.find eligible lines)
    end.
Proof.
  unfold _extract_question_text.
  assert (∀ l, List.find (λ line, negb (is_option_line line) &&
                           negb (contains "Correct Answer:" line) &&
                           negb (contains "Answer:" line) && ends_like_question line) l
               = List.find (λ line, eligible line && ends_like_question line) l) as ->.
  { induction l as [|y l IH]; [reflexivity|]. cbn [List.find].
    now rewrite first_test_eligible, IH. }
  destruct (List.find _ lines); [reflexivity|].
  unfold eligible. destruct (List.find _ lines); reflexivity.
Qed.

Lemma strip_kept pieces : Forall (λ l, l ≠ "") (nonblank_stripped pieces).
Proof.
  unfold nonblank_stripped. apply Forall_fmap, Forall_forall.
  intros p [_ Hp]%list_elem_of_In%filter_In. cbn.
  destruct (String.eqb_spec (strip p) ""); [discriminate | assumption].
Qed.

(** X2.  The question text of a block is one of its stripped non-blank
    lines: the first line that is neither an option line nor contains
    "Answer:" and ends in "?", ":" or ".", and, when no line is like that,
    the first line that is neither an option line nor contains "Answer:".
    A block gives no question exactly when every one of its lines is an
    option line or contains "Answer:". *)
Theorem X2_question_text (n : Z) (block : string) :
  let lines := block_lines block in
  (fst (_parse_single_mcq_block n block) = None ↔
     Forall (λ line, is_option_line line = true ∨ contains "Answer:" line = true) lines)
  ∧ (∀ q, fst (_parse_single_mcq_block n block) = Some q →
       ∃ pre post,
         lines = pre ++ question q :: post
         ∧ is_option_line (question q) = false
         ∧ contains "Answer:" (question q) = false
         ∧ (ends_like_question (question q) = true →
              Forall (λ line, eligible line && ends_like_question line = false) pre)
         ∧ (ends_like_question (question q) = false →
              Forall (λ line, eligible line = false) pre ∧
              Forall (λ line, eligible line = true → ends_like_question line = false) post)).
Proof.
  cbv zeta. pose proof (strip_kept (split nl block)) as Hne. fold (block_lines block) in Hne.
  split.
  - rewrite parse_single_none. unfold unparseable.
    rewrite extract_question_text_value.
    destruct (List.find (λ line, eligible line && ends_like_question line) _) as [l|] eqn:E1.
    { apply find_first in E1 as (pre & post & El & [He _]%andb_prop & _).
      split.
      - intros ->%String.eqb_eq. rewrite El in Hne.
        apply Forall_app in Hne as [_ [H _]%Forall_cons]. congruence.
      - rewrite El. intros [_ [H _]%Forall_cons]%Forall_app. unfold eligible in He.
        destruct H as [H|H]; rewrite H in He; cbn in He;
          [discriminate | now rewrite andb_false_r in He]. }
    destruct (List.find eligible _) as [l|] eqn:E2; cbn [default from_option id].
    { apply find_first in E2 as (pre & post & El & He & _).
      split.
      - intros ->%String.eqb_eq. rewrite El in Hne.
        apply Forall_app in Hne as [_ [H _]%Forall_cons]. congruence.
      - rewrite El. intros [_ [H _]%Forall_cons]%Forall_app. unfold eligible in He.
        destruct H as [H|H]; rewrite H in He; cbn in He;
          [discriminate | now rewrite andb_false_r in He]. }
    split; [intros _ | reflexivity].
    apply find_nothing in E2. eapply Forall_impl; [exact E2|]. cbn. unfold eligible.
    intros l. destruct (is_option_line l), (contains "Answer:" l); cbn; auto; discriminate.
  - intros q [-> Hu]%parse_single_some. cbn [question].
    unfold unparseable in Hu. rewrite extract_question_text_value in *.
    destruct (List.find (λ line, eligible line && ends_like_question line) _) as [l|] eqn:E1.
    { apply find_first in E1 as (pre & post & El & [He Hq]%andb_prop & Hpre).
      exists pre, post. unfold eligible in He. apply andb_prop in He as [H1 H2].
      apply negb_true_iff in H1, H2. repeat split; auto; congruence. }
    destruct (List.find eligible _) as [l|] eqn:E2; cbn [default from_option id] in *; [|discriminate].
    apply find_nothing in E1.
    apply find_first in E2 as (pre & post & El & He & Hpre).
    exists pre, post. pose proof He as He'. unfold eligible in He'.
    apply andb_prop in He' as [H1 H2]. apply negb_true_iff in H1, H2.
    repeat split; auto.
    + rewrite El in E1. apply Forall_app in E1 as [_ [E _]%Forall_cons].
      rewrite He in E. cbn in E. congruence.
    + rewrite El in E1. apply Forall_app in E1 as [_ [_ E]%Forall_cons].
      eapply Forall_impl; [exact E|]. cbn. intros l' H' H''. now rewrite H'' in H'.
Qed.

End QuestionText.

Section Numbering.
Import PyStr Re TextProcessor.

Lemma parsed_from_elem i blocks q :
  q ∈ parsed_from i blocks ↔
  ∃ k block, blocks !! k = Some block ∧
             fst (_parse_single_mcq_block (i + Z.of_nat k) block) = Some q.
Proof.
  revert i. induction blocks as [|b blocks IH]; intros i; cbn [parsed_from].
  - split; [intros H; now apply elem_of_nil in H | intros (k & block & H & _); discriminate].
  - assert (q ∈ parsed_from (i + 1) blocks ↔
            ∃ k block, (b :: blocks) !! S k = Some block ∧
                       fst (_parse_single_mcq_block (i + Z.of_nat (S k)) block) = Some q)
      as Hrest.
    { rewrite IH. split; intros (k & block & Hk & Hq); exists k, block; (split; [exact Hk|]).
      - now replace (i + Z.of_nat (S k))%Z with (i + 1 + Z.of_nat k)%Z by lia.
      - now replace (i + 1 + Z.of_nat k)%Z with (i + Z.of_nat (S k))%Z by lia. }
    destruct (fst (_parse_single_mcq_block i b)) as [q0|] eqn:E.
    + rewrite elem_of_cons, Hrest. split.
      * intros [-> | (k & block & H)]; [|eauto].
        exists 0, b. split; [reflexivity|]. now replace (i + Z.of_nat 0)%Z with i by lia.
      * intros ([|k] & block & Hk & Hq); [|eauto].
        injection Hk as <-. replace (i + Z.of_nat 0)%Z with i in Hq by lia. left. congruence.
    + rewrite Hrest. split; [intros (k & block & H); eauto|].
      intros ([|k] & block & Hk & Hq); [|eauto].
      injection Hk as <-. replace (i + Z.of_nat 0)%Z with i in Hq by lia. congruence.
Qed.

Lemma parsed_from_lower i blocks :
  Forall (λ q, (i ≤ number q)%Z) (parsed_from i blocks).
Proof.
  apply Forall_forall. intros q (k & block & _ & [-> _]%parse_single_some)%parsed_from_elem.
  cbn [number]. lia.
Qed.

Lemma parsed_from_sorted i blocks :
  StronglySorted Z.lt (number <$> parsed_from i blocks).
Proof.
  revert i. induction blocks as [|b blocks IH]; intros i; cbn [parsed_from].
  - constructor.
  - destruct (fst (_parse_single_mcq_block i b)) as [q|] eqn:E; [|apply IH].
    apply parse_single_some in E as [-> _]. cbn [fmap list_fmap number].
    constructor; [apply IH|]. apply Forall_fmap.
    eapply Forall_impl; [apply (parsed_from_lower (i + 1))|]. cbn. lia.
Qed.

(** X3.  The number of a parsed question is the position of its block among
    the blocks of the quiz, counted from 1: the blocks that give no question
    leave a gap and do not shift the numbers that follow, and the number
    written in the text plays no part.  So the numbers go strictly up the
    list, no two questions share one, and none is below 1 or above the count
    of blocks. *)
Theorem X3_numbered_by_block_position (content : string) :
  let blocks := fst (_split_into_question_blocks content) in
  let questions := fst (parse_mcq_questions content) in
  (∀ q, q ∈ questions ↔
        ∃ k block, blocks !! k = Some block ∧
                   fst (_parse_single_mcq_block (1 + Z.of_nat k) block) = Some q ∧
                   number q = (1 + Z.of_nat k)%Z)
  ∧ StronglySorted Z.lt (number <$> questions)
  ∧ NoDup (number <$> questions)
  ∧ Forall (λ q, (1 ≤ number q ≤ Z.of_nat (length blocks))%Z) questions
  ∧ length questions ≤ length blocks.
Proof.
  cbv zeta. rewrite parse_mcq_questions_value.
  set (blocks := fst (_split_into_question_blocks content)).
  assert (∀ q, q ∈ parsed_from 1 blocks ↔
               ∃ k block, blocks !! k = Some block ∧
                          fst (_parse_single_mcq_block (1 + Z.of_nat k) block) = Some q ∧
                          number q = (1 + Z.of_nat k)%Z) as Hel.
  { intros q. rewrite parsed_from_elem. split.
    - intros (k & block & Hk & Hq). exists k, block. split; [exact Hk|]. split; [exact Hq|].
      now apply parse_single_some in Hq as [-> _].
    - intros (k & block & Hk & Hq & _). eauto. }
  split; [exact Hel|]. split; [apply parsed_from_sorted|]. split; [|split].
  - pose proof (parsed_from_sorted 1 blocks) as Hs.
    induction Hs as [|x l _ IH Hx]; constructor; [|exact IH].
    intros Hin. rewrite Forall_forall in Hx. specialize (Hx _ Hin). lia.
  - apply Forall_forall. intros q (k & block & Hk & _ & ->)%Hel.
    apply lookup_lt_Some in Hk. lia.
  - rewrite parsed_from_length. apply List.filter_length_le.
Qed.

End Numbering.

(** ** The answer checker at its edges *)

Section CheckerEdges.
Import TextProcessor.

Lemma count_correct_agree (ua1 ua2 : gmap Z string) questions :
  (∀ q, q ∈ questions → ua1 !! number q = ua2 !! number q) →
  count_correct ua1 questions = count_correct ua2 questions.
Proof.
  intros H. unfold count_correct. f_equal. apply List.filter_ext_in.
  intros q Hq%list_elem_of_In. unfold is_correct. now rewrite (H q Hq).
Qed.

(** X4.  The checker of the quiz service succeeds exactly when the answer
    map and the question list are both non-empty.  With no answer it asks
    for one and logs nothing; with answers and no question the division by
    the empty total is caught: the answer is "Failed to check answers" and
    the error is logged, after the feedback text of the text processor has
    come back as "No answers to check.". *)
Theorem X4_checker_succeeds_iff_both_nonempty
  (questions : list Question) (user_answers : gmap Z string) :
  (success (fst (QuizService.check_mcq_answers questions user_answers)) = true ↔
     user_answers ≠ ∅ ∧ questions ≠ [])
  ∧ (user_answers = ∅ →
       QuizService.check_mcq_answers questions user_answers =
         (error_response "Please answer at least one question" None, []))
  ∧ (user_answers ≠ ∅ → questions = [] →
       QuizService.check_mcq_answers questions user_answers =
         (error_response "Failed to check answers" None,
          [ERROR "Error checking MCQ answers: division by zero"])
       ∧ check_mcq_answers user_answers questions = "No answers to check.")
  ∧ (check_mcq_answers user_answers questions = "No answers to check." ↔
       user_answers = ∅ ∨ questions = [])
  ∧ check_mcq_answers user_answers questions ≠ "Error checking answers.".
Proof.
  assert (∀ e c t p m, results_text e c t p m ≠ "No answers to check." ∧
                       results_text e c t p m ≠ "Error checking answers.") as Hres.
  { intros e c t p m. unfold results_text, PyStr.nl. split; discriminate. }
  split; [|split; [|split; [|split]]].
  - unfold QuizService.check_mcq_answers.
    case_bool_decide as Ha; [cbn; split; [discriminate | tauto]|].
    destruct questions as [|q questions].
    + cbn. split; [discriminate | intros [_ H]; congruence].
    + rewrite truediv_pos by discriminate. cbn. split; [auto | reflexivity].
  - intros ->. reflexivity.
  - intros Ha ->. unfold QuizService.check_mcq_answers, check_mcq_answers.
    rewrite (bool_decide_eq_false_2 _ Ha). split; reflexivity.
  - unfold check_mcq_answers.
    case_bool_decide as Ha; [cbn; tauto|]. case_bool_decide as Hq; [cbn; tauto|].
    cbn [orb]. rewrite truediv_pos by now apply length_nonempty.
    destruct (band _) as [e m]. split; [intros H; now apply Hres in H | tauto].
  - unfold check_mcq_answers.
    case_bool_decide as Ha; [cbn; discriminate|]. case_bool_decide as Hq; [cbn; discriminate|].
    cbn [orb]. rewrite truediv_pos by now apply length_nonempty.
    destruct (band _) as [e m]. apply Hres.
Qed.

(** X5.  A score depends on the answers given under the numbers of the
    questions only: two non-empty answer maps that agree on every question
    number are scored alike, whatever else they hold, and the correct count
    never exceeds the total. *)
Theorem X5_only_answers_to_asked_numbers_count
  (questions : list Question) (answers answers' : gmap Z string) :
  answers ≠ ∅ → answers' ≠ ∅ →
  (∀ q, q ∈ questions → answers !! number q = answers' !! number q) →
  QuizService.check_mcq_answers questions answers =
    QuizService.check_mcq_answers questions answers'
  ∧ count_correct answers questions ≤ length questions.
Proof.
  intros Ha Ha' Hagree. split.
  - unfold QuizService.check_mcq_answers, check_mcq_answers.
    rewrite (bool_decide_eq_false_2 _ Ha), (bool_decide_eq_false_2 _ Ha').
    now rewrite (count_correct_agree answers answers' questions Hagree).
  - unfold count_correct. apply List.filter_length_le.
Qed.

Lemma X5_stray_answer_ignored :
  QuizService.check_mcq_answers five_questions three_right =
    QuizService.check_mcq_answers five_questions (<[99%Z := "B"]> three_right)
  ∧ count_correct three_right five_questions ≤ length five_questions.
Proof.
  apply (X5_only_answers_to_asked_numbers_count five_questions three_right
           (<[99%Z := "B"]> three_right)).
  - intros H. apply (f_equal (λ m : gmap Z string, m !! 1%Z)) in H. vm_compute in H.
    discriminate H.
  - intros H. apply (f_equal (λ m : gmap Z string, m !! 99%Z)) in H. vm_compute in H.
    discriminate H.
  - intros q Hq. rewrite lookup_insert_ne; [reflexivity|].
    unfold five_questions in Hq. set_solver.
Defined.

End CheckerEdges.

(** ** The vector index: round trip, side effects and isolation *)

Section PathFacts.
Import PyStr Os.

Lemma string_app_assoc (a b c : string) : (a +:+ b) +:+ c = a +:+ b +:+ c.
Proof.
  induction a as [|x a IH]; [reflexivity|].
  change ((String x a +:+ b) +:+ c) with (String x ((a +:+ b) +:+ c)).
  now rewrite IH.
Qed.

Lemma string_app_inv_tail (a b t : string) : a +:+ t = b +:+ t → a = b.
Proof.
  revert b. induction a as [|x a IH]; intros [|y b] H.
  - reflexivity.
  - apply (f_equal String.length) in H. rewrite !length_app in H. cbn in H. lia.
  - apply (f_equal String.length) in H. rewrite !length_app in H. cbn in H. lia.
  - change (String x (a +:+ t) = String y (b +:+ t)) in H. injection H as -> H.
    now rewrite (IH b H).
Qed.

Lemma contains_slash_cons c s :
  contains "/" (String c s) = Ascii.eqb "/" c || contains "/" s.
Proof. cbn [contains startswith]. now rewrite andb_true_r. Qed.

Lemma contains_slash_app a b :
  contains "/" (a +:+ b) = contains "/" a || contains "/" b.
Proof.
  induction a as [|x a IH].
  - change ("" +:+ b) with b. reflexivity.
  - change (String x a +:+ b) with (String x (a +:+ b)).
    now rewrite !contains_slash_cons, IH, orb_assoc.
Qed.

Lemma plain_startswith s : contains "/" s = false → startswith "/" s = false.
Proof. destruct s as [|c s]; [reflexivity|]. rewrite contains_slash_cons. cbn. now intros [-> _]%orb_false_elim. Qed.

Lemma plain_endswith s : contains "/" s = false → endswith "/" s = false.
Proof.
  induction s as [|c s IH]; [reflexivity|]. rewrite contains_slash_cons.
  intros [Hc Hs]%orb_false_elim. cbn [endswith String.eqb]. now rewrite Hc, IH.
Qed.

Lemma startswith_app_same p a b : startswith (p +:+ a) (p +:+ b) = startswith a b.
Proof.
  induction p as [|x p IH]; [reflexivity|].
  change (startswith (String x (p +:+ a)) (String x (p +:+ b)) = startswith a b).
  cbn [startswith]. now rewrite Ascii.eqb_refl, IH.
Qed.

(** Two texts cut at their first separator. *)
Lemma slash_split a a' r r' :
  contains "/" a = false → contains "/" a' = false →
  startswith (a +:+ "/" +:+ r) (a' +:+ "/" +:+ r') = true →
  a = a' ∧ startswith r r' = true.
Proof.
  revert a'. induction a as [|x a IH]; intros [|y a'].
  - intros _ _ H. split; [reflexivity | exact H].
  - rewrite contains_slash_cons. intros _ [Hy _]%orb_false_elim.
    change (startswith (String "/" r) (String y (a' +:+ "/" +:+ r')) = true → "" = String y a' ∧ startswith r r' = true).
    cbn [startswith]. now rewrite Hy.
  - rewrite contains_slash_cons. intros [Hx _]%orb_false_elim _.
    change (startswith (String x (a +:+ "/" +:+ r)) (String "/" r') = true → String x a = "" ∧ startswith r r' = true).
    cbn [startswith]. rewrite Ascii.eqb_sym, Hx. discriminate.
  - rewrite !contains_slash_cons. intros [_ Ha]%orb_false_elim [_ Ha']%orb_false_elim.
    change (startswith (String x (a +:+ "/" +:+ r)) (String y (a' +:+ "/" +:+ r')) = true → String x a = String y a' ∧ startswith r r' = true).
    cbn [startswith]. intros [->%Ascii.eqb_eq H]%andb_prop.
    destruct (IH a' Ha Ha' H) as [-> ?]. auto.
Qed.

Lemma startswith_refl s : startswith s s = true.
Proof. induction s as [|c s IH]; [reflexivity|]. cbn. now rewrite Ascii.eqb_refl. Qed.

Lemma startswith_app_l a b : startswith a (a +:+ b) = true.
Proof.
  induction a as [|c a IH]; [reflexivity|].
  change (startswith (String c a) (String c (a +:+ b)) = true). cbn.
  now rewrite Ascii.eqb_refl.
Qed.

Lemma rev_app_app a b s : String.rev_app a b +:+ s = String.rev_app a (b +:+ s).
Proof.
  revert b. induction a as [|c a IH]; intros b; [reflexivity|].
  cbn [String.rev_app]. now rewrite IH.
Qed.

(** A proper ancestor of a path is the text before one of its separators. *)
Lemma parents_go_prefix seen s p :
  p ∈ parents_go seen s → ∃ r, String.rev seen +:+ s = p +:+ "/" +:+ r.
Proof.
  revert seen. induction s as [|c s IH]; intros seen; cbn [parents_go].
  - intros H. now apply elem_of_nil in H.
  - rewrite elem_of_app. intros [H|H].
    + destruct (Ascii.eqb_spec c "/") as [->|]; cbn [andb] in H;
        [|now apply elem_of_nil in H].
      destruct (negb _); [|now apply elem_of_nil in H].
      apply list_elem_of_singleton in H as ->. exists s. reflexivity.
    + apply IH in H as [r Hr]. exists r. rewrite <- Hr.
      unfold String.rev. cbn [String.rev_app]. now rewrite !rev_app_app.
Qed.

Lemma parents_prefix path p : p ∈ parents path → ∃ r, path = p +:+ "/" +:+ r.
Proof. intros H. apply parents_go_prefix in H. exact H. Qed.

Lemma mkdir_keeps (fs : gmap string node) d p n :
  fs !! p = Some n → mkdir fs d !! p = Some n.
Proof.
  intros H. unfold mkdir. destruct (fs !! d) eqn:E; [exact H|].
  rewrite lookup_insert_ne; [exact H | congruence].
Qed.

Lemma mkdir_adds (fs : gmap string node) d p n :
  mkdir fs d !! p = Some n → fs !! p = Some n ∨ (fs !! p = None ∧ n = Directory).
Proof.
  unfold mkdir. destruct (fs !! d) eqn:E; [auto|].
  destruct (decide (d = p)) as [->|Hne].
  - rewrite lookup_insert_eq. intros [= <-]. auto.
  - rewrite lookup_insert_ne by exact Hne. auto.
Qed.

(** [makedirs] never touches a node that exists, and adds directories only. *)
Lemma makedirs_keeps (fs : gmap string node) path p n :
  fs !! p = Some n → makedirs fs path !! p = Some n.
Proof.
  unfold makedirs. generalize (parents path ++ [path]). intros dirs. revert fs.
  induction dirs as [|d dirs IH]; intros fs H; [exact H|].
  cbn [foldl]. apply IH, mkdir_keeps, H.
Qed.

Lemma makedirs_adds (fs : gmap string node) path p n :
  makedirs fs path !! p = Some n → fs !! p = Some n ∨ (fs !! p = None ∧ n = Directory).
Proof.
  unfold makedirs. generalize (parents path ++ [path]). intros dirs. revert fs.
  induction dirs as [|d dirs IH]; intros fs; cbn [foldl]; [auto|].
  intros [H|[H ->]]%IH; [now apply mkdir_adds in H|].
  right. split; [|reflexivity].
  destruct (fs !! p) as [n'|] eqn:E; [|reflexivity].
  apply (mkdir_keeps _ d) in E. congruence.
Qed.

Lemma makedirs_leaf (fs : gmap string node) path : is_Some (makedirs fs path !! path).
Proof.
  unfold makedirs. rewrite foldl_app. cbn [foldl].
  generalize (foldl mkdir fs (parents path)). intros fs'.
  unfold mkdir. destruct (fs' !! path) eqn:E; [rewrite E; eauto|].
  rewrite lookup_insert_eq. eauto.
Qed.

Lemma makedirs_elsewhere (fs : gmap string node) path q :
  q ∉ parents path → q ≠ path → makedirs fs path !! q = fs !! q.
Proof.
  intros Hp Hq. unfold makedirs.
  assert (∀ p, p ∈ parents path ++ [path] → p ≠ q) as Hne.
  { intros p [H|H]%elem_of_app Heq; subst; [contradiction|].
    apply list_elem_of_singleton in H. congruence. }
  revert fs Hne. generalize (parents path ++ [path]).
  induction l as [|d l IH]; intros fs Hne; cbn [foldl]; [reflexivity|].
  rewrite IH by (intros p Hp'; apply Hne; now right).
  unfold mkdir. destruct (fs !! d); [reflexivity|].
  apply lookup_insert_ne, Hne. now left.
Qed.

End PathFacts.

Section VectorExtras.
Import PyStr Os VectorService.

Lemma user_dir_plain FAISS_PATH user_id :
  plain_id user_id →
  path_join (path_join FAISS_PATH user_id) "vectors" =
    root_of FAISS_PATH +:+ user_id +:+ "/" +:+ "vectors".
Proof.
  intros [Hne Hs].
  assert (path_join FAISS_PATH user_id = root_of FAISS_PATH +:+ user_id) as ->.
  { unfold path_join, root_of. rewrite (plain_startswith _ Hs).
    destruct (String.eqb FAISS_PATH "" || endswith "/" FAISS_PATH); [reflexivity|].
    now rewrite string_app_assoc. }
  unfold path_join at 1. cbn [startswith Ascii.eqb Bool.eqb andb].
  rewrite endswith_slash_app by exact Hne. rewrite (plain_endswith _ Hs), orb_false_r.
  destruct (String.eqb_spec (root_of FAISS_PATH +:+ user_id) "") as [E|_].
  - now apply app_nonempty in E.
  - now rewrite !string_app_assoc.
Qed.

Lemma vector_path_plain FAISS_PATH fs user_id pdf_id :
  plain_id user_id → plain_id pdf_id →
  fst (_get_vector_path FAISS_PATH fs user_id pdf_id) =
    root_of FAISS_PATH +:+ user_id +:+ "/" +:+ "vectors/" +:+ pdf_id +:+ "_vectors".
Proof.
  intros Hu [_ Hp]. rewrite vector_path_shape by now apply plain_startswith.
  rewrite user_dir_plain by exact Hu. now rewrite !string_app_assoc.
Qed.

(** Two documents with plain ids have unrelated index paths: neither path is
    the other, lies below the other, or is a directory on the way to the
    other user's indexes. *)
Lemma vector_paths_apart FAISS_PATH fs user_id pdf_id user_id' pdf_id' :
  plain_id user_id → plain_id pdf_id → plain_id user_id' → plain_id pdf_id' →
  (user_id, pdf_id) ≠ (user_id', pdf_id') →
  let vp := fst (_get_vector_path FAISS_PATH fs user_id pdf_id) in
  let vp' := fst (_get_vector_path FAISS_PATH fs user_id' pdf_id') in
  let dir := path_join (path_join FAISS_PATH user_id) "vectors" in
  vp' ≠ vp ∧ startswith (vp +:+ "/") vp' = false ∧ (vp' ∉ parents dir) ∧ vp' ≠ dir.
Proof.
  intros Hu Hp Hu' Hp' Hne. cbv zeta.
  rewrite !vector_path_plain, user_dir_plain by assumption.
  set (X := root_of FAISS_PATH).
  destruct Hu as [_ Hu], Hu' as [_ Hu']. destruct Hp as [_ Hp], Hp' as [_ Hp'].
  assert (∀ a a' R R', contains "/" a = false → contains "/" a' = false →
            startswith (X +:+ a +:+ "/" +:+ R) (X +:+ a' +:+ "/" +:+ R') = true →
            a = a' ∧ startswith R R' = true) as Hcut.
  { intros a a' R R' Ha Ha'. rewrite startswith_app_same. now apply slash_split. }
  assert (∀ t, contains "/" (pdf_id' +:+ "_vectors") = true → t) as Hno.
  { intros t. rewrite contains_slash_app, Hp'. discriminate. }
  repeat split.
  - intros E.
    assert (startswith (X +:+ user_id +:+ "/" +:+ "vectors/" +:+ pdf_id +:+ "_vectors")
              (X +:+ user_id' +:+ "/" +:+ "vectors/" +:+ pdf_id' +:+ "_vectors") = true) as H
      by (rewrite E; apply startswith_refl).
    apply Hcut in H as [-> _]; [|assumption..]. apply String.app_inj, String.app_inj in E.
    apply (String.app_inj "/" ("vectors/" +:+ pdf_id' +:+ "_vectors")) in E.
    apply (String.app_inj "vectors/") in E. apply string_app_inv_tail in E. congruence.
  - apply not_true_is_false. rewrite !string_app_assoc. intros [-> H]%Hcut; [|assumption..].
    change (startswith ("vectors/" +:+ pdf_id +:+ "_vectors" +:+ "/")
              ("vectors/" +:+ pdf_id' +:+ "_vectors") = true) in H.
    rewrite startswith_app_same, <- string_app_assoc in H.
    apply startswith_app_contains in H. now apply Hno.
  - intros [r Hr]%parents_prefix.
    assert (startswith (X +:+ user_id' +:+ "/" +:+ "vectors/" +:+ pdf_id' +:+ "_vectors")
              (X +:+ user_id +:+ "/" +:+ "vectors") = true) as H.
    { rewrite Hr. apply startswith_app_l. }
    apply Hcut in H as [_ H]; [|assumption..]. change (startswith (String "v" (String "e" (String "c" (String "t" (String "o" (String "r" (String "s" (String "/" (pdf_id' +:+ "_vectors"))))))))) "vectors" = true) in H.
    cbn in H. discriminate H.
  - intros E.
    assert (startswith (X +:+ user_id' +:+ "/" +:+ "vectors/" +:+ pdf_id' +:+ "_vectors")
              (X +:+ user_id +:+ "/" +:+ "vectors") = true) as H
      by (rewrite E; apply startswith_refl).
    apply Hcut in H as [_ H]; [|assumption..]. change (startswith (String "v" (String "e" (String "c" (String "t" (String "o" (String "r" (String "s" (String "/" (pdf_id' +:+ "_vectors"))))))))) "vectors" = true) in H.
    cbn in H. discriminate H.
Qed.

Section Service.
Variable FAISS_PATH : string.
Variable similarity_search : list Document -> string -> Z -> string + list Document.
Variable from_documents_error : list Document -> option string.
Variable load_error : string -> string.

#[local] Abbreviation search := (search_pdf_vectors FAISS_PATH similarity_search load_error).
#[local] Abbreviation create := (create_pdf_vectors FAISS_PATH from_documents_error).
#[local] Abbreviation delete := (delete_pdf_vectors FAISS_PATH).
#[local] Abbreviation path_of user_id pdf_id :=
  (fst (_get_vector_path FAISS_PATH ∅ user_id pdf_id)).
#[local] Abbreviation dir_of user_id :=
  (path_join (path_join FAISS_PATH user_id) "vectors").
#[local] Abbreviation answer := (answer_of similarity_search load_error).

Lemma search_value fs user_id pdf_id query k :
  search fs user_id pdf_id query k =
    (answer (makedirs fs (dir_of user_id) !! path_of user_id pdf_id)
            (path_of user_id pdf_id) query k,
     makedirs fs (dir_of user_id)).
Proof.
  unfold search_pdf_vectors, _get_vector_path, answer_of.
  destruct (makedirs fs _ !! _) as [[|stored]|]; try reflexivity.
  destruct (similarity_search stored query k); [reflexivity|].
  now rewrite length_fmap.
Qed.

Lemma create_value fs user_id pdf_id documents :
  documents ≠ [] → from_documents_error documents = None →
  create fs user_id pdf_id documents =
    (success_response "Vectors created successfully"
       (Some {| vector_path := path_of user_id pdf_id; chunk_count := length documents |}),
     <[path_of user_id pdf_id := FaissIndex documents]> (makedirs fs (dir_of user_id))).
Proof.
  intros Hd He. unfold create_pdf_vectors. rewrite He.
  destruct documents; [congruence | reflexivity].
Qed.

Lemma delete_value fs user_id pdf_id :
  snd (delete fs user_id pdf_id) =
    if exists_ (makedirs fs (dir_of user_id)) (path_of user_id pdf_id)
    then rmtree (makedirs fs (dir_of user_id)) (path_of user_id pdf_id)
    else makedirs fs (dir_of user_id).
Proof. reflexivity. Qed.

(** X6.  An index that was created is the index a search reads: after a
    successful [create_pdf_vectors] for a user and a document, a search for
    the same user and document runs the similarity search on exactly the
    documents given, and answers with its hits or with its error; the
    response of the creation names the path and the number of documents; and
    creating again replaces what was stored. *)
Theorem X6_create_then_search
  (fs : gmap string node) (user_id pdf_id query : string) (k : Z) (documents : list Document) :
  documents ≠ [] → from_documents_error documents = None →
  let created := create fs user_id pdf_id documents in
  fst created =
    success_response "Vectors created successfully"
      (Some {| vector_path := path_of user_id pdf_id; chunk_count := length documents |})
  ∧ snd created !! path_of user_id pdf_id = Some (FaissIndex documents)
  ∧ fst (search (snd created) user_id pdf_id query k) =
      match similarity_search documents query k with
      | inl e => error_response ("Search failed: " +:+ e) None
      | inr docs =>
          success_response ("Found " +:+ str_of_nat (length docs) +:+ " documents")
            (Some (format_hit <$> docs))
      end
  ∧ (∀ documents',
       documents' ≠ [] → from_documents_error documents' = None →
       snd (create (snd created) user_id pdf_id documents') !! path_of user_id pdf_id =
         Some (FaissIndex documents')).
Proof.
  intros Hd He. cbv zeta. rewrite create_value by assumption. cbn [fst snd].
  split; [reflexivity|]. split; [apply lookup_insert_eq|]. split.
  - rewrite search_value. cbn [fst].
    rewrite (makedirs_keeps _ _ _ (FaissIndex documents)) by apply lookup_insert_eq.
    reflexivity.
  - intros documents' Hd' He'. rewrite create_value by assumption. cbn [snd].
    apply lookup_insert_eq.
Qed.

(** X7.  A search writes nothing but directories that were missing: every
    node of the file system is still there afterwards, unchanged, and a node
    that is new is a directory.  The directory of the user's indexes is there
    after any search, found or not: looking for an index creates it. *)
Theorem X7_search_only_adds_directories
  (fs : gmap string node) (user_id pdf_id query : string) (k : Z) :
  let after := snd (search fs user_id pdf_id query k) in
  (∀ path n, fs !! path = Some n → after !! path = Some n)
  ∧ (∀ path n, after !! path = Some n → fs !! path = None → n = Directory)
  ∧ (∀ path docs, after !! path = Some (FaissIndex docs) ↔ fs !! path = Some (FaissIndex docs))
  ∧ is_Some (after !! dir_of user_id).
Proof.
  cbv zeta. rewrite search_value. cbn [snd].
  split; [intros path n; apply makedirs_keeps|].
  split; [intros path n [H|[_ H]]%makedirs_adds; [congruence | auto]|].
  split; [|apply makedirs_leaf].
  intros path docs. split; [|apply makedirs_keeps].
  intros [H|[_ H]]%makedirs_adds; [exact H | discriminate].
Qed.

Lemma lookup_elsewhere fs user_id pdf_id user_id' pdf_id' :
  plain_id user_id → plain_id pdf_id → plain_id user_id' → plain_id pdf_id' →
  (user_id, pdf_id) ≠ (user_id', pdf_id') →
  makedirs fs (dir_of user_id) !! path_of user_id' pdf_id' = fs !! path_of user_id' pdf_id'.
Proof.
  intros Hu Hp Hu' Hp' Hne.
  destruct (vector_paths_apart FAISS_PATH ∅ _ _ _ _ Hu Hp Hu' Hp' Hne) as (_ & _ & H3 & H4).
  now apply makedirs_elsewhere.
Qed.

Lemma search_plain fs user_id pdf_id query k :
  plain_id pdf_id →
  fst (search fs user_id pdf_id query k) =
    answer (fs !! path_of user_id pdf_id) (path_of user_id pdf_id) query k.
Proof.
  intros [_ Hp]. rewrite search_value. cbn [fst]. f_equal.
  apply (get_vector_path_lookup FAISS_PATH fs user_id pdf_id), plain_startswith, Hp.
Qed.

(** X8.  Documents do not interfere.  For user and document ids that are
    not empty and hold no path separator, creating the index of one document
    or deleting it leaves the entry of every other document, of the same or
    of another user, as it was, so a search for the other document answers
    as before. *)
Theorem X8_documents_do_not_interfere
  (fs : gmap string node) (user_id pdf_id user_id' pdf_id' query : string) (k : Z)
  (documents : list Document) :
  plain_id user_id → plain_id pdf_id → plain_id user_id' → plain_id pdf_id' →
  (user_id, pdf_id) ≠ (user_id', pdf_id') →
  let created := snd (create fs user_id pdf_id documents) in
  let deleted := snd (delete fs user_id pdf_id) in
  created !! path_of user_id' pdf_id' = fs !! path_of user_id' pdf_id'
  ∧ deleted !! path_of user_id' pdf_id' = fs !! path_of user_id' pdf_id'
  ∧ fst (search created user_id' pdf_id' query k) = fst (search fs user_id' pdf_id' query k)
  ∧ fst (search deleted user_id' pdf_id' query k) = fst (search fs user_id' pdf_id' query k).
Proof.
  intros Hu Hp Hu' Hp' Hne. cbv zeta.
  destruct (vector_paths_apart FAISS_PATH ∅ _ _ _ _ Hu Hp Hu' Hp' Hne) as (H1 & H2 & _).
  pose proof (lookup_elsewhere fs _ _ _ _ Hu Hp Hu' Hp' Hne) as Hl.
  assert (snd (create fs user_id pdf_id documents) !! path_of user_id' pdf_id' =
          fs !! path_of user_id' pdf_id') as Hc.
  { unfold create_pdf_vectors. destruct documents as [|d ds]; [reflexivity|].
    destruct (from_documents_error (d :: ds)); [reflexivity|].
    cbn [_get_vector_path snd]. rewrite lookup_insert_ne by exact (λ E, H1 (eq_sym E)). exact Hl. }
  assert (snd (delete fs user_id pdf_id) !! path_of user_id' pdf_id' =
          fs !! path_of user_id' pdf_id') as Hd.
  { rewrite delete_value. destruct (exists_ _ _); [|exact Hl].
    unfold rmtree. rewrite <- Hl.
    destruct (makedirs fs (dir_of user_id) !! path_of user_id' pdf_id') as [n|] eqn:E.
    - apply map_lookup_filter_Some. split; [exact E|]. cbn [fst].
      rewrite H2. destruct (String.eqb_spec (path_of user_id' pdf_id') (path_of user_id pdf_id));
        [contradiction | reflexivity].
    - apply map_lookup_filter_None. now left. }
  split; [exact Hc|]. split; [exact Hd|].
  rewrite !search_plain by assumption. now rewrite Hc, Hd.
Qed.

End Service.

(** Storing two chunks for document [d1] of user [u1] and searching for them. *)
Lemma X6_sample_round_trip :
  snd (create_pdf_vectors "data/faiss" (λ _, None) ∅ "u1" "d1" sample_docs)
    !! "data/faiss/u1/vectors/d1_vectors" = Some (FaissIndex sample_docs)
  ∧ fst (search_pdf_vectors "data/faiss" return_stored (λ _, "no index")
           (snd (create_pdf_vectors "data/faiss" (λ _, None) ∅ "u1" "d1" sample_docs))
           "u1" "d1" "light" 5) =
      success_response "Found 2 documents" (Some (format_hit <$> sample_docs)).
Proof.
  destruct (X6_create_then_search "data/faiss" return_stored (λ _, None) (λ _, "no index")
              ∅ "u1" "d1" "light" 5 sample_docs) as (_ & H1 & H2 & _).
  - discriminate.
  - reflexivity.
  - split; [exact H1 | exact H2].
Defined.

(** Deleting document [d2] of user [u1] leaves the index of [d1] in place. *)
Lemma X8_sample_other_document :
  snd (delete_pdf_vectors "data/faiss" sample_fs "u1" "d2")
    !! fst (_get_vector_path "data/faiss" ∅ "u1" "d1") = Some (FaissIndex sample_docs)
  ∧ fst (search_pdf_vectors "data/faiss" return_stored (λ _, "no index")
           (snd (delete_pdf_vectors "data/faiss" sample_fs "u1" "d2")) "u1" "d1" "light" 5) =
      success_response "Found 2 documents" (Some (format_hit <$> sample_docs)).
Proof.
  assert (plain_id "u1" ∧ plain_id "d1" ∧ plain_id "d2") as (Hu & Hd1 & Hd2)
    by (repeat split; discriminate || reflexivity).
  assert (("u1", "d2") ≠ ("u1", "d1")) as Hne by discriminate.
  destruct (X8_documents_do_not_interfere "data/faiss" return_stored (λ _, None)
              (λ _, "no index") sample_fs "u1" "d2" "u1" "d1" "light" 5 []
              Hu Hd2 Hu Hd1 Hne) as (_ & H2 & _ & H4).
  split; [rewrite H2 | rewrite H4]; vm_compute; reflexivity.
Defined.

End VectorExtras.

(** ** The chat service: what a call sends, answers and leaves behind *)

Section ChatExtras.
Import PyStr ChatService.

Lemma contains_prefix x s : startswith x s = true → contains x s = true.
Proof. intros H. destruct s; cbn [contains]; now rewrite H. Qed.

Lemma contains_app_r x a s : contains x s = true → contains x (a +:+ s) = true.
Proof.
  intros H. induction a as [|c a IH]; [exact H|].
  change (String c a +:+ s) with (String c (a +:+ s)). cbn [contains].
  rewrite IH. apply orb_true_r.
Qed.

(** A text holds what is spliced into it. *)
Lemma contains_mid x a b : contains x (a +:+ x +:+ b) = true.
Proof. apply contains_app_r, contains_prefix, startswith_app_l. Qed.

Lemma startswith_split x s : startswith x s = true → ∃ q, s = x +:+ q.
Proof.
  revert s. induction x as [|c x IH]; intros s; [exists s; reflexivity|].
  destruct s as [|d s]; cbn [startswith]; [discriminate|].
  intros [->%Ascii.eqb_eq [q ->]%IH]%andb_prop. exists q. reflexivity.
Qed.

Lemma contains_split x s : contains x s = true ↔ ∃ p q, s = p +:+ x +:+ q.
Proof.
  split; [|intros (p & q & ->); apply contains_mid].
  induction s as [|c s IH]; cbn [contains].
  - rewrite orb_false_r. intros [q ->]%startswith_split. exists "", q. reflexivity.
  - intros [[q ->]%startswith_split | (p & q & ->)%IH]%orb_prop.
    + exists "", q. reflexivity.
    + exists (String c p), q. reflexivity.
Qed.

Lemma contains_trans x y z :
  contains x y = true → contains y z = true → contains x z = true.
Proof.
  intros (p & q & ->)%contains_split (p' & q' & ->)%contains_split.
  apply contains_split. exists (p' +:+ p), (q +:+ q'). now rewrite !string_app_assoc.
Qed.

Lemma explanation_holds question context :
  contains question (explanation_template question context) = true ∧
  contains context (explanation_template question context) = true.
Proof.
  unfold explanation_template. split; [apply contains_mid|].
  rewrite <- string_app_assoc, <- string_app_assoc. apply contains_mid.
Qed.

Lemma quiz_feedback_holds question context :
  contains question (quiz_feedback_template question context) = true ∧
  contains context (quiz_feedback_template question context) = true.
Proof.
  unfold quiz_feedback_template. split; [apply contains_mid|].
  rewrite <- string_app_assoc, <- string_app_assoc. apply contains_mid.
Qed.

Lemma tutor_holds question context :
  contains question (tutor_template question context) = true ∧
  contains context (tutor_template question context) = true.
Proof.
  unfold tutor_template. split; [apply contains_mid|].
  rewrite <- string_app_assoc, <- string_app_assoc. apply contains_mid.
Qed.

Lemma tutor_quiz_holds quiz_context question context :
  contains quiz_context (tutor_quiz_template quiz_context question context) = true ∧
  contains question (tutor_quiz_template quiz_context question context) = true ∧
  contains context (tutor_quiz_template quiz_context question context) = true.
Proof.
  unfold tutor_quiz_template. split; [apply contains_mid|]. split.
  - rewrite <- string_app_assoc, <- string_app_assoc. apply contains_mid.
  - rewrite <- string_app_assoc, <- string_app_assoc, <- string_app_assoc, <- string_app_assoc.
    apply contains_mid.
Qed.

Lemma enhanced_question_holds quiz_context question :
  contains quiz_context (enhanced_question_text quiz_context question) = true ∧
  contains question (enhanced_question_text quiz_context question) = true.
Proof.
  unfold enhanced_question_text. split; [apply contains_mid|].
  rewrite <- string_app_assoc, <- string_app_assoc. apply contains_mid.
Qed.

Section Service.
Variable FAISS_PATH : string.
Variable similarity_search : list Document -> string -> Z -> string + list Document.
Variable load_error : string -> string.
Variable get_pdf_by_id : string -> string -> option PDF.
Variable model : option (string -> string + string).

#[local] Abbreviation search :=
  (VectorService.search_pdf_vectors FAISS_PATH similarity_search load_error).
#[local] Abbreviation chat :=
  (chat_with_pdf FAISS_PATH similarity_search load_error get_pdf_by_id model).

(** The reply and the world after the generator of a mode has run with a
    loaded model: one prompt more, which holds the question, the context and
    the quiz context that was passed on. *)
Lemma generate_value m w question context mode quiz_context :
  ∃ prompt,
    (if String.eqb mode "Quiz Me"
     then _generate_quiz_feedback (Some m) w question context quiz_context
     else if String.eqb mode "Tutor"
          then _generate_tutor_response (Some m) w question context quiz_context
          else _generate_explanation (Some m) w question context) =
    (match m prompt with inr reply => reply | inl _ => "" end,
     {| fs := fs w; llm_calls := llm_calls w ++ [prompt] |})
    ∧ contains question prompt = true
    ∧ contains context prompt = true
    ∧ (∀ qc, truthy quiz_context = Some qc →
             mode = "Quiz Me" ∨ mode = "Tutor" → contains qc prompt = true).
Proof.
  assert (∀ w0 prompt, invoke (Some m) w0 prompt =
            (match m prompt with inr reply => reply | inl _ => "" end,
             {| fs := fs w0; llm_calls := llm_calls w0 ++ [prompt] |})) as Hinv.
  { intros w0 prompt. unfold invoke. destruct (m prompt); reflexivity. }
  unfold _generate_quiz_feedback, _generate_tutor_response, _generate_explanation.
  destruct (String.eqb_spec mode "Quiz Me") as [->|Hq].
  { eexists. split; [apply Hinv|].
    destruct (truthy quiz_context) as [qc|].
    - destruct (quiz_feedback_holds (enhanced_question_text qc question) context) as [H1 H2].
      destruct (enhanced_question_holds qc question) as [H3 H4].
      split; [exact (contains_trans _ _ _ H4 H1)|]. split; [exact H2|].
      intros ? [= <-] _. exact (contains_trans _ _ _ H3 H1).
    - destruct (quiz_feedback_holds question context) as [H1 H2].
      split; [exact H1|]. split; [exact H2|]. discriminate. }
  destruct (String.eqb_spec mode "Tutor") as [->|Ht].
  { destruct (truthy quiz_context) as [qc|].
    - eexists. split; [apply Hinv|].
      destruct (tutor_quiz_holds qc question context) as (H1 & H2 & H3).
      split; [exact H2|]. split; [exact H3|]. intros ? [= <-] _. exact H1.
    - eexists. split; [apply Hinv|].
      destruct (tutor_holds question context) as [H1 H2].
      split; [exact H1|]. split; [exact H2|]. discriminate. }
  eexists. split; [apply Hinv|].
  destruct (explanation_holds question context) as [H1 H2].
  split; [exact H1|]. split; [exact H2|]. intros qc _ [?|?]; contradiction.
Qed.

#[local] Abbreviation found_by w user_id pdf_id question :=
  (fst (search (fs w) user_id pdf_id question 6)).
#[local] Abbreviation context_of hits := (join (nl +:+ nl) (content <$> hits)).
#[local] Abbreviation caveat :=
  (warning_sign +:+ " The document may not fully cover this topic." +:+ nl +:+ nl).

(** A call that gets past the checks and finds a context that is not weak. *)
Lemma chat_generated m pdf w user_id pdf_id question mode quiz_context hit hits :
  get_pdf_by_id pdf_id user_id = Some pdf → processed pdf = true →
  (if success (found_by w user_id pdf_id question)
   then data (found_by w user_id pdf_id question) else None) = Some (hit :: hits) →
  _is_context_too_weak question (context_of (hit :: hits)) = false →
  ∃ prompt,
    chat_with_pdf FAISS_PATH similarity_search load_error get_pdf_by_id (Some m)
      w user_id pdf_id question mode quiz_context =
      (let reply := match m prompt with inr reply => reply | inl _ => "" end in
       if String.eqb reply "" then error_response "Failed to generate response" None
       else success_response "Response generated successfully"
              (Some {| response :=
                         if Nat.ltb (len (context_of (hit :: hits))) 100
                         then caveat +:+ TextProcessor.clean_ai_output reply
                         else TextProcessor.clean_ai_output reply;
                       mode := mode;
                       context_used := length (hit :: hits) |}),
       {| fs := snd (search (fs w) user_id pdf_id question 6);
          llm_calls := llm_calls w ++ [prompt] |})
    ∧ contains question prompt = true
    ∧ contains (context_of (hit :: hits)) prompt = true
    ∧ (∀ qc, truthy quiz_context = Some qc →
             mode = "Quiz Me" ∨ mode = "Tutor" → contains qc prompt = true).
Proof.
  intros Hpdf Hproc Hhits Hweak. unfold chat_with_pdf.
  rewrite Hpdf, Hproc. cbn [negb].
  destruct (search (fs w) user_id pdf_id question 6) as [sr fs'] eqn:Es.
  cbn [fst snd] in *. rewrite Hhits, Hweak.
  destruct (generate_value m {| fs := fs'; llm_calls := llm_calls w |}
              question (context_of (hit :: hits)) mode quiz_context)
    as (prompt & -> & H1 & H2 & H3).
  exists prompt. split; [|auto]. cbv zeta. cbn [fs llm_calls].
  destruct (String.eqb _ ""); reflexivity.
Qed.

(** A call that stops before the model is asked. *)
Lemma chat_stopped w user_id pdf_id question mode quiz_context :
  let r := chat w user_id pdf_id question mode quiz_context in
  let searched := {| fs := snd (search (fs w) user_id pdf_id question 6);
                     llm_calls := llm_calls w |} in
  match model with
  | None => r = (error_response "AI model not available" None, w)
  | Some m =>
  match get_pdf_by_id pdf_id user_id with
  | None => r = (error_response "PDF not found" None, w)
  | Some pdf =>
  if negb (processed pdf) then r = (error_response "PDF is still being processed" None, w)
  else
  match (if success (found_by w user_id pdf_id question)
         then data (found_by w user_id pdf_id question) else None) with
  | None | Some [] =>
      r = (error_response "No relevant information found in the PDF" None, searched)
  | Some hits =>
      if _is_context_too_weak question (context_of hits)
      then r = (success_response "Response generated successfully"
                  (Some {| response := not_enough_information; mode := mode;
                           context_used := 0 |}), searched)
      else True
  end end end.
Proof.
  cbv zeta. unfold chat_with_pdf. destruct model as [m|]; [|reflexivity].
  destruct (get_pdf_by_id pdf_id user_id) as [pdf|]; [|reflexivity].
  destruct (processed pdf); cbn [negb]; [|reflexivity].
  destruct (search (fs w) user_id pdf_id question 6) as [sr fs'] eqn:Es. cbn [fst snd].
  destruct (if success sr then data sr else None) as [[|hit hits]|]; try reflexivity.
  destruct (_is_context_too_weak question _); [reflexivity | exact I].
Qed.

(** X9.  A call that returns data has found hits.  Over a weak context the
    data is the canned message with no context counted and no prompt sent.
    Otherwise the model was asked once and replied with a non-empty text, the
    data counts the hits, and the answer is the cleaned reply, with the
    caveat on the document's coverage put in front exactly when the context
    is shorter than 100 characters; such a context has at least 50 characters
    after trimming and shares a word with the question that is not a stop
    word, or it would have been weak. *)
Theorem X9_answer_shape
  (w : World) (user_id pdf_id question asked_mode : string) (quiz_context : option string)
  (d : ChatData) :
  data (fst (chat w user_id pdf_id question asked_mode quiz_context)) = Some d →
  let w' := snd (chat w user_id pdf_id question asked_mode quiz_context) in
  mode d = asked_mode
  ∧ success (fst (chat w user_id pdf_id question asked_mode quiz_context)) = true
  ∧ ∃ hits,
      hits ≠ []
      ∧ success (found_by w user_id pdf_id question) = true
      ∧ data (found_by w user_id pdf_id question) = Some hits
      ∧ if _is_context_too_weak question (context_of hits)
        then response d = not_enough_information ∧ context_used d = 0
             ∧ llm_calls w' = llm_calls w
        else context_used d = length hits
             ∧ (∃ m prompt reply,
                  model = Some m ∧ m prompt = inr reply ∧ reply ≠ ""
                  ∧ llm_calls w' = llm_calls w ++ [prompt]
                  ∧ response d =
                      if Nat.ltb (len (context_of hits)) 100
                      then caveat +:+ TextProcessor.clean_ai_output reply
                      else TextProcessor.clean_ai_output reply)
             ∧ (len (context_of hits) < 100 →
                  50 ≤ len (strip (context_of hits))
                  ∧ (word_set question ∖ common_words) ∩ word_set (context_of hits) ≠ ∅).
Proof.
  cbv zeta. pose proof (chat_stopped w user_id pdf_id question asked_mode quiz_context) as Hs.
  cbv zeta in Hs. destruct model as [m|] eqn:Hm; [|rewrite Hs; discriminate].
  destruct (get_pdf_by_id pdf_id user_id) as [pdf|] eqn:Hpdf; [|rewrite Hs; discriminate].
  destruct (processed pdf) eqn:Hproc; cbn [negb] in Hs; [|rewrite Hs; discriminate].
  destruct (success (found_by w user_id pdf_id question)) eqn:Hsucc;
    [|rewrite Hs; discriminate].
  destruct (data (found_by w user_id pdf_id question)) as [[|hit hits]|] eqn:Hdata;
    try (rewrite Hs; discriminate).
  destruct (_is_context_too_weak question (context_of (hit :: hits))) eqn:Hweak.
  - rewrite Hs. cbn [fst snd data success success_response]. intros [= <-].
    split; [reflexivity|]. split; [reflexivity|].
    exists (hit :: hits). rewrite Hweak. repeat split; auto; discriminate.
  - clear Hs.
    destruct (chat_generated m pdf w user_id pdf_id question asked_mode quiz_context hit hits)
      as (prompt & -> & _); auto; [now rewrite Hsucc|].
    cbv zeta. cbn [fst snd].
    destruct (m prompt) as [e|reply] eqn:Hreply; [discriminate|].
    destruct (String.eqb_spec reply "") as [->|Hne]; [discriminate|].
    cbn [data success success_response llm_calls]. intros [= <-].
    split; [reflexivity|]. split; [reflexivity|].
    exists (hit :: hits). rewrite Hweak. repeat split; auto; try discriminate.
    + exists m, prompt, reply. auto.
    + apply not_true_iff_false in Hweak. rewrite weak_iff in Hweak. lia.
    + intros Hi. apply not_true_iff_false in Hweak. rewrite weak_iff in Hweak.
      apply Hweak. right. split; [lia | exact Hi].
Qed.


(** X11.  Whatever a call answers, it sends the model at most one prompt
    and keeps the prompts sent before; a prompt that is sent holds the
    question asked and the whole retrieved context, and in the modes
    "Quiz Me" and "Tutor" the quiz context that was passed, if it is not
    empty.  The call keeps every node of the file system and stores no
    index. *)
Theorem X11_one_prompt_with_question_and_context
  (w : World) (user_id pdf_id question mode : string) (quiz_context : option string) :
  let w' := snd (chat w user_id pdf_id question mode quiz_context) in
  (∃ sent,
     llm_calls w' = llm_calls w ++ sent ∧ length sent ≤ 1 ∧
     ∀ prompt, prompt ∈ sent →
       contains question prompt = true
       ∧ (∃ hits, data (found_by w user_id pdf_id question) = Some hits ∧
                  contains (context_of hits) prompt = true)
       ∧ (∀ qc, truthy quiz_context = Some qc →
                mode = "Quiz Me" ∨ mode = "Tutor" → contains qc prompt = true))
  ∧ (∀ path n, fs w !! path = Some n → fs w' !! path = Some n)
  ∧ (∀ path docs, fs w' !! path = Some (FaissIndex docs) ↔
                  fs w !! path = Some (FaissIndex docs)).
Proof.
  cbv zeta.
  assert (∀ fs0 : gmap string node,
            (fs0 = fs w ∨ fs0 = snd (search (fs w) user_id pdf_id question 6)) →
            (∀ path n, fs w !! path = Some n → fs0 !! path = Some n)
            ∧ (∀ path docs, fs0 !! path = Some (FaissIndex docs) ↔
                            fs w !! path = Some (FaissIndex docs))) as Hfs.
  { intros fs0 [->| ->]; [tauto|]. rewrite search_value. cbn [snd].
    split; [intros path n; apply makedirs_keeps|].
    intros path docs. split; [|apply makedirs_keeps].
    intros [H|[_ H]]%makedirs_adds; [exact H | discriminate]. }
  assert (∀ w0 : World, llm_calls w0 = llm_calls w →
            ∃ sent, llm_calls w0 = llm_calls w ++ sent ∧ length sent ≤ 1 ∧
                    ∀ prompt : string, prompt ∈ sent → False) as Hnone.
  { intros w0 ->. exists []. rewrite app_nil_r. split; [reflexivity|].
    split; [cbn; lia|]. intros prompt H. now apply elem_of_nil in H. }
  pose proof (chat_stopped w user_id pdf_id question mode quiz_context) as Hs.
  cbv zeta in Hs.
  assert (∀ Q : string → Prop,
            (∃ sent, llm_calls w = llm_calls w ++ sent ∧ length sent ≤ 1 ∧
                     ∀ prompt : string, prompt ∈ sent → Q prompt)) as Hsame.
  { intros Q. destruct (Hnone w eq_refl) as (sent & H1 & H2 & H3).
    exists sent. repeat split; auto. intros prompt Hp. destruct (H3 prompt Hp). }
  destruct model as [m|] eqn:Hm; [|rewrite Hs; cbn [snd]; split; [apply Hsame | apply Hfs; auto]].
  destruct (get_pdf_by_id pdf_id user_id) as [pdf|] eqn:Hpdf;
    [|rewrite Hs; cbn [snd]; split; [apply Hsame | apply Hfs; auto]].
  destruct (processed pdf) eqn:Hproc; cbn [negb] in Hs;
    [|rewrite Hs; cbn [snd]; split; [apply Hsame | apply Hfs; auto]].
  destruct (success (found_by w user_id pdf_id question)) eqn:Hsucc;
    [|rewrite Hs; cbn [snd fs llm_calls]; split; [apply Hsame | apply Hfs; auto]].
  destruct (data (found_by w user_id pdf_id question)) as [[|hit hits]|] eqn:Hdata;
    try (rewrite Hs; cbn [snd fs llm_calls]; split; [apply Hsame | apply Hfs; auto]).
  destruct (_is_context_too_weak question (context_of (hit :: hits))) eqn:Hweak;
    [rewrite Hs; cbn [snd fs llm_calls]; split; [apply Hsame | apply Hfs; auto]|].
  clear Hs.
  destruct (chat_generated m pdf w user_id pdf_id question mode quiz_context hit hits)
    as (prompt & -> & H1 & H2 & H3); auto; [now rewrite Hsucc|].
  cbv zeta. cbn [snd fs llm_calls]. split; [|apply Hfs; auto].
  exists [prompt]. split; [reflexivity|]. split; [cbn; lia|].
  intros p ->%list_elem_of_singleton. split; [exact H1|]. split; [|exact H3].
  exists (hit :: hits). auto.
Qed.

End Service.

(** A question on light finds the 57 characters of the sample index: the
    call succeeds in the mode asked for. *)
Lemma X9_sample_answer :
  ∃ d, data (fst (chat_with_pdf "data/faiss" return_stored (λ _, "no index") sample_pdf
                    sample_model sample_world "u1" "d1" "light energy" "Explain" None)) =
         Some d
       ∧ mode d = "Explain"
       ∧ context_used d = 2
       ∧ success (fst (chat_with_pdf "data/faiss" return_stored (λ _, "no index") sample_pdf
                         sample_model sample_world "u1" "d1" "light energy" "Explain" None)) =
           true.
Proof.
  destruct (data (fst (chat_with_pdf "data/faiss" return_stored (λ _, "no index") sample_pdf
                         sample_model sample_world "u1" "d1" "light energy" "Explain" None)))
    as [d|] eqn:Hd; [|vm_compute in Hd; discriminate Hd].
  exists d. split; [reflexivity|].
  destruct (X9_answer_shape "data/faiss" return_stored (λ _, "no index") sample_pdf
              sample_model sample_world "u1" "d1" "light energy" "Explain" None d Hd)
    as (Hmode & Hsucc & _).
  split; [exact Hmode|]. split; [|exact Hsucc].
  vm_compute in Hd. injection Hd as <-. reflexivity.
Defined.


End ChatExtras.

(** ** Saved quizzes read back from a document *)

Section SavedQuizExtras.
Import SavedQuiz.

Lemma to_dict_dom (q : SavedQuiz.t) : dom (to_dict q) = list_to_set stored_keys.
Proof. unfold to_dict. rewrite dom_list_to_map_L. reflexivity. Qed.

(** X12.  [from_dict] fails, with a KeyError, exactly when one of the eight
    keys it reads by subscript is missing.  When it succeeds, the quiz has no
    database id, its attributes are the values stored under the eleven keys
    of [to_dict], a missing topic is None and a missing timestamp is a
    reading of the clock; any other key of the document is ignored, and a
    document with exactly the eleven keys is given back by [to_dict]
    unchanged. *)
Theorem X12_from_dict_reads_its_keys (utcnow : nat → pyval) (data : gmap string pyval) :
  (from_dict utcnow data = None ↔ ∃ key, key ∈ required_keys ∧ data !! key = None)
  ∧ (∀ q, from_dict utcnow data = Some q →
       _id q = None
       ∧ (∀ key v, key ∈ stored_keys → data !! key = Some v → to_dict q !! key = Some v)
       ∧ (data !! "topic_focus" = None → topic_focus q = PNone)
       ∧ (data !! "created_at" = None → created_at q = utcnow 2)
       ∧ (data !! "updated_at" = None → updated_at q = utcnow 3)
       ∧ (∀ key v, key ∉ stored_keys → from_dict utcnow (<[key := v]> data) = Some q)
       ∧ (dom data = list_to_set stored_keys → to_dict q = data)).
Proof.
  assert (∀ q, from_dict utcnow data = Some q →
            ∀ key v, key ∈ stored_keys → data !! key = Some v → to_dict q !! key = Some v)
    as Hkeys.
  { intros q Hq key v Hk Hv. unfold from_dict in Hq.
    destruct (data !! "user_id") as [v1|] eqn:E1; [|discriminate].
    destruct (data !! "folder_id") as [v2|] eqn:E2; [|discriminate].
    destruct (data !! "pdf_id") as [v3|] eqn:E3; [|discriminate].
    destruct (data !! "pdf_name") as [v4|] eqn:E4; [|discriminate].
    destruct (data !! "quiz_name") as [v5|] eqn:E5; [|discriminate].
    destruct (data !! "quiz_type") as [v6|] eqn:E6; [|discriminate].
    destruct (data !! "difficulty") as [v7|] eqn:E7; [|discriminate].
    destruct (data !! "questions_data") as [v8|] eqn:E8; [|discriminate].
    cbn in Hq. injection Hq as <-.
    unfold stored_keys, required_keys in Hk. cbn [app] in Hk.
    repeat (apply elem_of_cons in Hk as [->|Hk]);
      [..|now apply elem_of_nil in Hk];
      match goal with
      | E : data !! ?k = Some ?x, Hv : data !! ?k = Some v |- _ !! ?k = _ =>
          rewrite E in Hv; injection Hv as <-; reflexivity
      | Hv : data !! ?k = Some v |- _ !! ?k = _ => rewrite Hv; reflexivity
      end. }
  split.
  - unfold from_dict. split.
    + intros H.
      destruct (data !! "user_id") eqn:E1; [|exists "user_id"; split; [set_solver | auto]].
      destruct (data !! "folder_id") eqn:E2; [|exists "folder_id"; split; [set_solver | auto]].
      destruct (data !! "pdf_id") eqn:E3; [|exists "pdf_id"; split; [set_solver | auto]].
      destruct (data !! "pdf_name") eqn:E4; [|exists "pdf_name"; split; [set_solver | auto]].
      destruct (data !! "quiz_name") eqn:E5; [|exists "quiz_name"; split; [set_solver | auto]].
      destruct (data !! "quiz_type") eqn:E6; [|exists "quiz_type"; split; [set_solver | auto]].
      destruct (data !! "difficulty") eqn:E7; [|exists "difficulty"; split; [set_solver | auto]].
      destruct (data !! "questions_data") eqn:E8;
        [|exists "questions_data"; split; [set_solver | auto]].
      discriminate H.
    + intros (key & Hk & Hv). unfold required_keys in Hk.
      repeat (apply elem_of_cons in Hk as [->|Hk]); [..|now apply elem_of_nil in Hk];
        rewrite Hv; cbn;
        repeat match goal with |- context [data !! ?k] => destruct (data !! k); cbn end;
        reflexivity.
  - intros q Hq. pose proof (Hkeys q Hq) as Hk.
    split; [|split; [exact Hk|]].
    { unfold from_dict in Hq.
      repeat match type of Hq with context [data !! ?k ≫= _] =>
        destruct (data !! k); [cbn in Hq | discriminate Hq] end.
      injection Hq as <-. reflexivity. }
    assert (∀ key v, key ∉ stored_keys → from_dict utcnow (<[key := v]> data) = Some q) as Hig.
    { intros key v Hn. rewrite <- Hq. unfold from_dict, stored_keys, required_keys in *.
      cbn [app] in Hn. rewrite !lookup_insert_ne by set_solver. reflexivity. }
    unfold from_dict in Hq.
    repeat match type of Hq with context [data !! ?k ≫= _] =>
      destruct (data !! k); [cbn in Hq | discriminate Hq] end.
    injection Hq as <-. cbn [topic_focus created_at updated_at __init__].
    split; [intros ->; reflexivity|]. split; [intros ->; reflexivity|].
    split; [intros ->; reflexivity|]. split; [exact Hig|].
    intros Hdom. apply map_eq. intros key.
    destruct (decide (key ∈ stored_keys)) as [Hin|Hout].
    + assert (is_Some (data !! key)) as [v Hv].
      { apply elem_of_dom. rewrite Hdom. now apply elem_of_list_to_set. }
      rewrite Hv. now apply Hk.
    + assert (data !! key = None) as ->.
      { apply not_elem_of_dom. rewrite Hdom. now rewrite elem_of_list_to_set. }
      apply not_elem_of_dom. rewrite to_dict_dom. now rewrite elem_of_list_to_set.
Qed.

End SavedQuizExtras.

(** ** Quiz generation: the arguments as they are normalised *)

Section QuizGenerationExtras.
Import PyStr QuizGenerator.

Lemma string_app_nil_r (s : string) : s +:+ "" = s.
Proof. induction s as [|c s IH]; [reflexivity|]. change (String c (s +:+ "") = String c s). now rewrite IH. Qed.

Section Service.
Variable FAISS_PATH : string.
Variable similarity_search : list Document -> string -> Z -> string + list Document.
Variable load_error : string -> string.
Variable get_pdf_by_id : string -> string -> option PDF.
Variable model : option (string -> string + string).
Variable float_of_str : string -> option float.

#[local] Abbreviation search :=
  (VectorService.search_pdf_vectors FAISS_PATH similarity_search load_error).
#[local] Abbreviation generate m :=
  (generate_quiz FAISS_PATH similarity_search load_error get_pdf_by_id m float_of_str).
#[local] Abbreviation count_of num_questions :=
  (normal_count (converted float_of_str num_questions)).
#[local] Abbreviation type_of quiz_type := (normal_choice ["MCQ"; "Open-ended"] "MCQ" quiz_type).
#[local] Abbreviation difficulty_of difficulty :=
  (normal_choice ["Easy"; "Medium"; "Hard"] "Medium" difficulty).
#[local] Abbreviation query_of quiz_type num_questions difficulty topic_focus :=
  (quiz_query (difficulty_of difficulty) (type_of quiz_type) (count_of num_questions)
     (default "" topic_focus)).

(** A call with both ids and a count that converts, by the checks that
    follow the normalisation. *)
Lemma generate_quiz_value w user_id pdf_id quiz_type num_questions difficulty topic_focus :
  converted float_of_str num_questions ≠ OverflowError →
  generate model w (Some user_id) (Some pdf_id) quiz_type num_questions difficulty topic_focus =
    match model with
    | None => (error_response "AI model not available" None, w)
    | Some m =>
    match get_pdf_by_id pdf_id user_id with
    | None => (error_response "PDF not found" None, w)
    | Some pdf =>
    if negb (processed pdf) then (error_response "PDF is still being processed" None, w)
    else
    let found :=
      search (fs w) user_id pdf_id
        (query_of quiz_type num_questions difficulty topic_focus) 8 in
    match (if success (fst found) then data (fst found) else None) with
    | None | Some [] =>
        (error_response "No content available to generate quiz" None,
         {| fs := snd found; llm_calls := llm_calls w |})
    | Some hits =>
        let prompt :=
          quiz_prompt (type_of quiz_type) (context_of hits) (count_of num_questions)
            (difficulty_of difficulty) in
        let reply := match m prompt with inr reply => reply | inl _ => "" end in
        (if String.eqb reply "" then error_response "Failed to generate quiz content" None
         else success_response "Quiz generated successfully"
                (Some {| content := TextProcessor.clean_ai_output reply;
                         type := type_of quiz_type;
                         num_questions := count_of num_questions;
                         difficulty := difficulty_of difficulty;
                         topic_focus := default "" topic_focus |}),
         {| fs := snd found; llm_calls := llm_calls w ++ [prompt] |})
    end end end.
Proof.
  intros Hconv. unfold generate_quiz.
  assert (converted float_of_str
            match num_questions with NumNone => NumInt 3 | _ => num_questions end =
          converted float_of_str num_questions) as -> by (destruct num_questions; reflexivity).
  assert (∀ n, (if (n <? 1)%Z || (10 <? n)%Z then Z.min (Z.max n 1) 10 else n) =
               Z.max 1 (Z.min n 10)) as Hn.
  { intros n. destruct (Z.ltb_spec n 1), (Z.ltb_spec 10 n); cbn [orb]; lia. }
  assert ((if bool_decide (match quiz_type with Some t => t | None => "MCQ" end
                           ∈ ["MCQ"; "Open-ended"])
           then match quiz_type with Some t => t | None => "MCQ" end
           else "MCQ") = type_of quiz_type) as Ht.
  { unfold normal_choice. destruct quiz_type as [t|]; [reflexivity|].
    rewrite bool_decide_eq_true_2 by set_solver. reflexivity. }
  assert ((if bool_decide (match difficulty with Some d => d | None => "Medium" end
                           ∈ ["Easy"; "Medium"; "Hard"])
           then match difficulty with Some d => d | None => "Medium" end
           else "Medium") = difficulty_of difficulty) as Hd.
  { unfold normal_choice. destruct difficulty as [t|]; [reflexivity|].
    rewrite bool_decide_eq_true_2 by set_solver. reflexivity. }
  assert (match topic_focus with Some t => t | None => "" end = default "" topic_focus)
    as Hf by (destruct topic_focus; reflexivity).
  assert (∀ base tf,
            (if negb (String.eqb tf "") then base +:+ " about " +:+ tf else base) =
            base +:+ (if String.eqb tf "" then "" else " about " +:+ tf)) as Hq.
  { intros base tf. destruct (String.eqb tf ""); cbn [negb];
      rewrite ?string_app_nil_r; reflexivity. }
  assert (∀ (m : string → string + string) w0 prompt,
            ChatService.invoke (Some m) w0 prompt =
              (match m prompt with inr reply => reply | inl _ => "" end,
               {| fs := fs w0; llm_calls := llm_calls w0 ++ [prompt] |})) as Hinv.
  { intros m w0 prompt. unfold ChatService.invoke. destruct (m prompt); reflexivity. }
  destruct (converted float_of_str num_questions) as [n| |] eqn:Ec; [| |congruence].
  all: cbv beta iota zeta; rewrite ?Hn, Ht, Hd, Hf; unfold quiz_query, normal_count.
  all: try change (Z.max 1 (Z.min 3 10)) with 3%Z.
  all: destruct model as [m|]; [|reflexivity].
  all: destruct (get_pdf_by_id pdf_id user_id) as [pdf|]; [|reflexivity].
  all: destruct (negb (processed pdf)); [reflexivity|].
  all: rewrite Hq, !string_app_assoc.
  all: match goal with |- context [search ?a ?b ?c ?d ?e] =>
         destruct (search a b c d e) as [sr fs'] end.
  all: cbn [fst snd].
  all: destruct (if success sr then data sr else None) as [[|hit hits]|]; try reflexivity.
  all: unfold _generate_mcq_quiz, _generate_open_ended_quiz, quiz_prompt.
  all: destruct (String.eqb (type_of quiz_type) "MCQ"); rewrite ?Hinv; cbn [fs llm_calls].
  all: try match goal with |- context [String.eqb ?r ""] => destruct (String.eqb r "") end.
  all: reflexivity.
Qed.


Lemma normal_choice_allowed allowed fallback given :
  fallback ∈ allowed → normal_choice allowed fallback given ∈ allowed.
Proof.
  intros Hf. unfold normal_choice. destruct given as [name|]; [|exact Hf].
  case_bool_decide; assumption.
Qed.

Lemma normal_count_range outcome : (1 ≤ normal_count outcome ≤ 10)%Z.
Proof. destruct outcome; cbn; lia. Qed.



(** An infinite float cannot be converted; a NaN, a missing number and a
    number of another type count as 3. *)
Lemma converted_infinity (x : float) (negative : bool) :
  Prim2SF x = S754_infinity negative →
  converted float_of_str (NumFloat x) = OverflowError.
Proof. intros H. unfold converted, int_of_float. now rewrite H. Qed.

End Service.



End QuizGenerationExtras.

(** ** The saved quizzes of a folder *)

Section CollectionFacts.
Import SavedQuizService.

Lemma find_index {A} (f : A → bool) (l : list A) x :
  List.find f l = Some x →
  ∃ i, l !! i = Some x ∧ f x = true ∧ ∀ j y, j < i → l !! j = Some y → f y = false.
Proof.
  induction l as [|y l IH]; cbn [List.find]; [discriminate|].
  destruct (f y) eqn:E.
  - intros [= ->]. exists 0. repeat split; auto. intros j z Hj. lia.
  - intros (i & Hi & Hx & Hlt)%IH. exists (S i). repeat split; auto.
    intros [|j] z Hj; cbn; [now intros [= <-]|]. apply Hlt. lia.
Qed.

Lemma find_none_lookup {A} (f : A → bool) (l : list A) :
  List.find f l = None ↔ ∀ j y, l !! j = Some y → f y = false.
Proof. rewrite find_nothing, Forall_lookup. reflexivity. Qed.

Lemma find_some_lookup {A} (f : A → bool) (l : list A) j y :
  l !! j = Some y → f y = true → is_Some (List.find f l).
Proof.
  intros Hj Hy. destruct (List.find f l) eqn:E; [eauto|].
  rewrite find_none_lookup in E. rewrite (E j y Hj) in Hy. discriminate.
Qed.

Lemma filter_sublist {A} (f : A → bool) (l : list A) : List.filter f l `sublist_of` l.
Proof.
  induction l as [|x l IH]; cbn [List.filter]; [constructor|].
  destruct (f x); now constructor.
Qed.

Lemma delete_one_value (f : document → bool) c :
  match List.find f c with
  | Some d =>
      ∃ i, c !! i = Some d ∧ f d = true
           ∧ (∀ j y, j < i → c !! j = Some y → f y = false)
           ∧ delete_one f c = (delete i c, 1)
  | None => delete_one f c = (c, 0)
  end.
Proof.
  induction c as [|x c IH]; cbn [List.find delete_one]; [reflexivity|].
  destruct (f x) eqn:E.
  - exists 0. repeat split; auto. intros j y Hj. lia.
  - destruct (List.find f c) as [d|].
    + destruct IH as (i & Hi & Hd & Hlt & ->). exists (S i). repeat split; auto.
      intros [|j] y Hj; cbn; [now intros [= <-]|]. apply Hlt. lia.
    + now rewrite IH.
Qed.

Lemma update_one_value (f : document → bool) change same c :
  match List.find f c with
  | Some d =>
      ∃ i, c !! i = Some d ∧ f d = true
           ∧ (∀ j y, j < i → c !! j = Some y → f y = false)
           ∧ update_one f change same c =
               (<[i := change d]> c, if same d (change d) then 0 else 1)
  | None => update_one f change same c = (c, 0)
  end.
Proof.
  induction c as [|x c IH]; cbn [List.find update_one]; [reflexivity|].
  destruct (f x) eqn:E.
  - exists 0. repeat split; auto. intros j y Hj. lia.
  - destruct (List.find f c) as [d|].
    + destruct IH as (i & Hi & Hd & Hlt & ->). exists (S i). repeat split; auto.
      intros [|j] y Hj; cbn; [now intros [= <-]|]. apply Hlt. lia.
    + now rewrite IH.
Qed.

Lemma named_key user_id folder_id quiz_name d :
  named user_id folder_id quiz_name d = true ↔ quiz_key d = (user_id, folder_id, quiz_name).
Proof.
  unfold named, quiz_key. rewrite !andb_true_iff, !String.eqb_eq. split.
  - intros [[-> ->] ->]. reflexivity.
  - intros [= -> -> ->]. auto.
Qed.

Lemma owned_iff quiz_id user_id d :
  owned quiz_id user_id d = true ↔ _id d = quiz_id ∧ SavedQuizService.user_id d = user_id.
Proof. unfold owned. now rewrite andb_true_iff, Nat.eqb_eq, String.eqb_eq. Qed.

(** No document is named so exactly when the key is not among the keys. *)
Lemma find_named_none user_id folder_id quiz_name c :
  List.find (named user_id folder_id quiz_name) c = None ↔
  (user_id, folder_id, quiz_name) ∉ quiz_key <$> c.
Proof.
  rewrite find_none_lookup, list_elem_of_fmap. split.
  - intros H (d & Hk & (j & Hj)%list_elem_of_lookup).
    symmetry in Hk. apply named_key in Hk. rewrite (H j d Hj) in Hk. discriminate.
  - intros H j d Hj. apply not_true_is_false. intros Hk%named_key.
    apply H. exists d. split; [now symmetry|]. eapply list_elem_of_lookup_2, Hj.
Qed.

Lemma well_kept_sublist c c' : c' `sublist_of` c → well_kept c → well_kept c'.
Proof.
  intros Hs [H1 H2]. split; eapply sublist_NoDup; eauto; now apply fmap_sublist.
Qed.

(** With ids that differ, one document answers to an id. *)
Lemma well_kept_id (c : list document) i j d d' :
  well_kept c → c !! i = Some d → c !! j = Some d' → _id d = _id d' → i = j.
Proof.
  intros [H _] Hi Hj E. rewrite NoDup_alt in H. apply (H i j (_id d)).
  - now rewrite list_lookup_fmap, Hi.
  - now rewrite list_lookup_fmap, Hj, E.
Qed.

End CollectionFacts.

Section SavedQuizServiceExtras.
Import SavedQuizService.

Lemma delete_members {A} (l : list A) i x :
  NoDup l → l !! i = Some x → ∀ y, y ∈ delete i l ↔ y ∈ l ∧ y ≠ x.
Proof.
  intros Hnd Hi y. apply list_elem_of_split_length in Hi as (l1 & l2 & -> & ->).
  rewrite delete_take_drop, take_app_length.
  replace (S (length l1)) with (length (l1 ++ [x])) by (rewrite List.length_app; cbn; lia).
  rewrite (app_assoc l1 [x] l2) at 1. rewrite drop_app_length.
  apply NoDup_app in Hnd as (_ & H1 & [H2 _]%NoDup_cons).
  rewrite !elem_of_app, elem_of_cons. split.
  - intros [H|H]; (split; [auto|]); intros ->; [now apply (H1 x H); left | contradiction].
  - intros [[H|[->|H]] Hne]; auto. contradiction.
Qed.

Lemma list_filter_members {A} (f : A → bool) l y :
  y ∈ List.filter f l ↔ y ∈ l ∧ f y = true.
Proof. rewrite !list_elem_of_In. apply filter_In. Qed.

Lemma NoDup_insert_fresh {A} (l : list A) i x :
  NoDup l → (∀ j y, j ≠ i → l !! j = Some y → y ≠ x) → NoDup (<[i := x]> l).
Proof.
  rewrite !NoDup_alt. intros Hnd Hx j k y Hj Hk.
  destruct (decide (j = i)) as [->|Hji], (decide (k = i)) as [->|Hki]; [reflexivity|..].
  - rewrite list_lookup_insert_ne in Hk by auto.
    apply list_lookup_insert_Some in Hj as [(_ & <- & _)|[? _]]; [|contradiction].
    now destruct (Hx k x Hki Hk).
  - rewrite list_lookup_insert_ne in Hj by auto.
    apply list_lookup_insert_Some in Hk as [(_ & <- & _)|[? _]]; [|contradiction].
    now destruct (Hx j x Hji Hj).
  - rewrite list_lookup_insert_ne in Hj, Hk by auto. eauto.
Qed.

Section Save.
Variable utcnow : nat -> Z.
Variable str_of_ObjectId : nat -> string.
Variable inserted_id : collection -> nat.
Variable strftime : Z -> string.

#[local] Abbreviation save := (save_quiz utcnow str_of_ObjectId inserted_id strftime).
#[local] Abbreviation display := (get_display_info str_of_ObjectId strftime).

(** X15.  Saving keeps the collection well kept: when no two documents
    share an id or share user, folder and name, and the database hands out
    an id not yet in use, this is so after [save_quiz] too.  The call
    succeeds exactly when the name is not taken in the folder of the user;
    then one document is added at the end, with the values given, the new
    id, and the two readings of the clock, and the data describe it.  A name
    that is taken gives the error and leaves the collection as it was. *)
Theorem X15_save_keeps_names_unique
  (c : collection) (user_id folder_id pdf_id pdf_name quiz_name quiz_type difficulty : string)
  (questions_data : list pyval) (topic_focus : option string) :
  well_kept c → inserted_id c ∉ _id <$> c →
  let r := fst (save c user_id folder_id pdf_id pdf_name quiz_name quiz_type difficulty
                  questions_data topic_focus) in
  let c' := snd (save c user_id folder_id pdf_id pdf_name quiz_name quiz_type difficulty
                   questions_data topic_focus) in
  well_kept c'
  ∧ (success r = true ↔ (user_id, folder_id, quiz_name) ∉ quiz_key <$> c)
  ∧ (success r = false →
       c' = c ∧
       r = error_response
             "Quiz name already exists in this folder. Please choose a different name." None)
  ∧ (success r = true →
       ∃ d, c' = c ++ [d]
            ∧ d = {| _id := inserted_id c;
                     SavedQuizService.user_id := user_id;
                     SavedQuizService.folder_id := folder_id;
                     SavedQuizService.pdf_id := pdf_id;
                     SavedQuizService.pdf_name := pdf_name;
                     SavedQuizService.quiz_name := quiz_name;
                     SavedQuizService.quiz_type := quiz_type;
                     SavedQuizService.difficulty := difficulty;
                     SavedQuizService.questions_data := questions_data;
                     SavedQuizService.topic_focus := topic_focus;
                     created_at := utcnow 0;
                     updated_at := utcnow 1 |}
            ∧ r = success_response "Quiz saved successfully!" (Some (display d))).
Proof.
  intros [Hid Hkey] Hfresh. cbv zeta. unfold save_quiz.
  destruct (List.find (named user_id folder_id quiz_name) c) as [d0|] eqn:E; cbn [fst snd].
  - split; [split; assumption|]. split; [|split; [auto | discriminate]].
    split; [discriminate|]. intros H. apply find_named_none in H. congruence.
  - pose proof E as Hfree. apply find_named_none in Hfree.
    split; [|split; [tauto|split; [discriminate|eauto]]].
    split; rewrite fmap_app; apply NoDup_app; (split; [assumption|]);
      (split; [|apply NoDup_singleton]); cbn; intros x Hx ->%list_elem_of_singleton;
      contradiction.
Qed.

End Save.

Section Rename.
Variable utcnow : nat -> Z.
Variable ObjectId : string -> string + nat.

#[local] Abbreviation rename := (update_quiz_name utcnow ObjectId).

#[local] Ltac conjuncts := repeat match goal with |- _ ∧ _ => split end.

#[local] Abbreviation renamed new_name d :=
  {| _id := _id d;
     SavedQuizService.user_id := SavedQuizService.user_id d;
     SavedQuizService.folder_id := SavedQuizService.folder_id d;
     SavedQuizService.pdf_id := SavedQuizService.pdf_id d;
     SavedQuizService.pdf_name := SavedQuizService.pdf_name d;
     SavedQuizService.quiz_name := new_name;
     SavedQuizService.quiz_type := SavedQuizService.quiz_type d;
     SavedQuizService.difficulty := SavedQuizService.difficulty d;
     SavedQuizService.questions_data := SavedQuizService.questions_data d;
     SavedQuizService.topic_focus := SavedQuizService.topic_focus d;
     created_at := created_at d;
     updated_at := utcnow 0 |}.

(** X16.  Renaming keeps the collection well kept and touches one document
    at most: the ids stay as they are, every document that is not the quiz of
    that id owned by that user stays as it is, and a call that fails leaves
    the whole collection as it was.  A call that succeeds has renamed the
    quiz of that id and user and set its time of update; the quiz of another
    user is answered with "Quiz not found". *)
Theorem X16_rename_keeps_names_unique
  (c : collection) (quiz_id user_id new_name : string) :
  well_kept c →
  let r := fst (rename c quiz_id user_id new_name) in
  let c' := snd (rename c quiz_id user_id new_name) in
  well_kept c'
  ∧ _id <$> c' = _id <$> c
  ∧ (∀ i d, c !! i = Some d →
            ¬ (ObjectId quiz_id = inr (_id d) ∧ SavedQuizService.user_id d = user_id) →
            c' !! i = Some d)
  ∧ (success r = false → c' = c)
  ∧ (success r = true →
       ∃ i d, c !! i = Some d
              ∧ ObjectId quiz_id = inr (_id d) ∧ SavedQuizService.user_id d = user_id
              ∧ c' = <[i := renamed new_name d]> c)
  ∧ (∀ d, d ∈ c → ObjectId quiz_id = inr (_id d) →
          SavedQuizService.user_id d ≠ user_id →
          r = error_response "Quiz not found" None).
Proof.
  intros Hwk. cbv zeta. unfold update_quiz_name, collection in *.
  destruct (ObjectId quiz_id) as [e|oid] eqn:Eo; cbn [fst snd].
  { conjuncts; auto; discriminate. }
  destruct (List.find (owned oid user_id) c) as [quiz_data|] eqn:Ef; cbn [fst snd].
  2:{ conjuncts; auto; discriminate. }
  pose proof Ef as (i & Hi & [Hq1 Hq2]%owned_iff & Hfirst)%find_index.
  assert (∀ d, d ∈ c → @inr string nat oid = inr (_id d) →
            SavedQuizService.user_id d ≠ user_id →
            False) as Hother.
  { intros d (j & Hj)%list_elem_of_lookup [= Hd] Hu.
    assert (i = j) as -> by (eapply (well_kept_id c); eauto; congruence).
    congruence. }
  match goal with |- context [List.find ?f c] =>
    destruct (List.find f c) as [other|] eqn:En end; cbn [fst snd].
  { conjuncts; auto; try discriminate. intros d Hd Ho Hu. destruct (Hother d Hd Ho Hu). }
  pose proof (update_one_value (owned oid user_id) (λ d, renamed new_name d)
    (λ d d', String.eqb (quiz_name d) (quiz_name d') && Z.eqb (updated_at d) (updated_at d'))
    c) as Hu.
  rewrite Ef in Hu. destruct Hu as (i' & Hi' & _ & Hfirst' & ->).
  assert (i' = i) as -> by (eapply (well_kept_id c); eauto).
  assert (well_kept (<[i := renamed new_name quiz_data]> c)) as Hwk'.
  { destruct Hwk as [Hid Hkey]. split.
    - rewrite list_fmap_insert. cbn [_id].
      rewrite list_insert_id; [exact Hid|]. now rewrite list_lookup_fmap, Hi.
    - rewrite list_fmap_insert. apply NoDup_insert_fresh; [exact Hkey|].
      intros j k Hji Hj Hk. rewrite list_lookup_fmap in Hj.
      destruct (c !! j) as [d'|] eqn:Hd'; [|discriminate]. injection Hj as <-.
      rewrite find_none_lookup in En. specialize (En j d' Hd').
      apply andb_false_iff in En as [En|En].
      + apply not_true_iff_false in En. apply En, named_key. rewrite Hk.
        unfold quiz_key. cbn [SavedQuizService.user_id SavedQuizService.folder_id
                               SavedQuizService.quiz_name]. now rewrite Hq2.
      + apply negb_false_iff, Nat.eqb_eq in En.
        apply Hji. apply (well_kept_id c j i d' quiz_data);
          [split; assumption | assumption | assumption | congruence]. }
  assert (_id <$> <[i := renamed new_name quiz_data]> c = _id <$> c) as Hids.
  { rewrite list_fmap_insert. cbn [_id]. apply list_insert_id.
    now rewrite list_lookup_fmap, Hi. }
  assert (∀ j d, c !! j = Some d →
            ¬ (@inr string nat oid = inr (_id d) ∧ SavedQuizService.user_id d = user_id) →
            <[i := renamed new_name quiz_data]> c !! j = Some d) as Hrest.
  { intros j d Hj Hn. destruct (decide (i = j)) as [<-|Hne].
    - exfalso. apply Hn. rewrite Hi in Hj. injection Hj as <-. now rewrite Hq1.
    - now rewrite list_lookup_insert_ne. }
  destruct (String.eqb _ _ && Z.eqb _ _) eqn:Esame; cbn [Nat.ltb Nat.leb fst snd].
  - apply andb_prop in Esame as [En'%String.eqb_eq Et%Z.eqb_eq].
    cbn [quiz_name updated_at] in En', Et.
    assert (renamed new_name quiz_data = quiz_data) as Hrd.
    { destruct quiz_data. cbn in *. now subst. }
    rewrite Hrd in *. rewrite list_insert_id in * by exact Hi.
    conjuncts; auto; try discriminate. intros d Hd Ho Hu. destruct (Hother d Hd Ho Hu).
  - conjuncts; auto; try discriminate;
      [|intros d Hd Ho Hu; destruct (Hother d Hd Ho Hu)].
    intros _. exists i, quiz_data. rewrite Hq1. auto.
Qed.

End Rename.
End SavedQuizServiceExtras.

Section SavedQuizDeletes.
Import SavedQuizService.

Lemma filter_twice {A} (f : A → bool) (l : list A) :
  List.filter f (List.filter (λ x, negb (f x)) l) = [].
Proof.
  induction l as [|x l IH]; [reflexivity|]. cbn [List.filter].
  destruct (f x) eqn:E; cbn [negb List.filter]; [exact IH|]. now rewrite E.
Qed.

Lemma of_pdf_iff pdf_id user_id d :
  of_pdf pdf_id user_id d = true ↔
  SavedQuizService.pdf_id d = pdf_id ∧ SavedQuizService.user_id d = user_id.
Proof. unfold of_pdf. now rewrite andb_true_iff, !String.eqb_eq. Qed.

Lemma of_folder_iff folder_id user_id d :
  of_folder folder_id user_id d = true ↔
  SavedQuizService.folder_id d = folder_id ∧ SavedQuizService.user_id d = user_id.
Proof. unfold of_folder. now rewrite andb_true_iff, !String.eqb_eq. Qed.

Lemma delete_many_value (f : document → bool) (c : list document) :
  let c' := fst (delete_many f c) in
  (∀ d, d ∈ c' ↔ d ∈ c ∧ f d = false)
  ∧ snd (delete_many f c) = length (List.filter f c)
  ∧ length (List.filter f c') = 0
  ∧ length c' + length (List.filter f c) = length c
  ∧ c' `sublist_of` c.
Proof.
  cbv zeta. unfold delete_many. cbn [fst snd]. split; [|split; [reflexivity|split; [|split]]].
  - intros d. rewrite list_filter_members, negb_true_iff. reflexivity.
  - now rewrite filter_twice.
  - rewrite Nat.add_comm. apply List.filter_length.
  - apply filter_sublist.
Qed.

Section Service.
Variable ObjectId : string -> string + nat.
Variable str_of_ObjectId : nat -> string.
Variable strftime : Z -> string.

(** X17.  The deletes remove what they name and nothing else, and keep the
    collection well kept.  [delete_quiz] removes the quiz of the id when the
    user owns it, and succeeds exactly then; the quiz of another user is not
    found, not deleted, and [get_quiz_by_id] does not show it to the user
    either.  [delete_quizzes_by_pdf] and [delete_quizzes_by_folder] remove
    the quizzes of the user for the document or in the folder, report how
    many they were, and leave none of them to count. *)
Theorem X17_deletes_remove_what_they_name
  (c : collection) (quiz_id pdf_id folder_id user_id : string) :
  well_kept c →
  (let r := fst (delete_quiz ObjectId c quiz_id user_id) in
   let c' := snd (delete_quiz ObjectId c quiz_id user_id) in
   well_kept c'
   ∧ (∀ d, d ∈ c' ↔
           d ∈ c ∧ ¬ (ObjectId quiz_id = inr (_id d) ∧ SavedQuizService.user_id d = user_id))
   ∧ (success r = true ↔
        ∃ d, d ∈ c ∧ ObjectId quiz_id = inr (_id d) ∧ SavedQuizService.user_id d = user_id)
   ∧ (success (get_quiz_by_id ObjectId str_of_ObjectId strftime c quiz_id user_id) = true ↔
        ∃ d, d ∈ c ∧ ObjectId quiz_id = inr (_id d) ∧ SavedQuizService.user_id d = user_id)
   ∧ success (get_quiz_by_id ObjectId str_of_ObjectId strftime c' quiz_id user_id) = false)
  ∧ (let r := fst (delete_quizzes_by_pdf c pdf_id user_id) in
     let c' := snd (delete_quizzes_by_pdf c pdf_id user_id) in
     well_kept c'
     ∧ (∀ d, d ∈ c' ↔
             d ∈ c ∧ ¬ (SavedQuizService.pdf_id d = pdf_id ∧
                        SavedQuizService.user_id d = user_id))
     ∧ success r = true
     ∧ data r = Some (get_quiz_count_by_pdf c pdf_id user_id)
     ∧ get_quiz_count_by_pdf c' pdf_id user_id = 0
     ∧ length c' + get_quiz_count_by_pdf c pdf_id user_id = length c)
  ∧ (let r := fst (delete_quizzes_by_folder c folder_id user_id) in
     let c' := snd (delete_quizzes_by_folder c folder_id user_id) in
     well_kept c'
     ∧ (∀ d, d ∈ c' ↔
             d ∈ c ∧ ¬ (SavedQuizService.folder_id d = folder_id ∧
                        SavedQuizService.user_id d = user_id))
     ∧ success r = true
     ∧ (∃ n, data r = Some n ∧ length c' + n = length c)).
Proof.
  intros Hwk. unfold collection in *. split; [|split].
  - cbv zeta. unfold delete_quiz, get_quiz_by_id.
    destruct (ObjectId quiz_id) as [e|oid] eqn:Eo; cbn [fst snd success error_response].
    { split; [exact Hwk|]. split; [intros d; split; [intros H; split; [exact H|]|tauto]|].
      - intros [H' _]. discriminate H'.
      - split; [split; [discriminate | intros (d & _ & H & _); discriminate H]|].
        split; [split; [discriminate | intros (d & _ & H & _); discriminate H]|reflexivity]. }
    assert (∀ c0 : list document,
              success (match List.find (owned oid user_id) c0 with
                       | Some quiz_data =>
                           success_response "Quiz retrieved successfully"
                             (Some {| quiz_info :=
                                        get_display_info str_of_ObjectId strftime quiz_data;
                                      questions := questions_data quiz_data;
                                      details_pdf_id := SavedQuizService.pdf_id quiz_data;
                                      details_pdf_name := pdf_name quiz_data |})
                       | None => error_response "Quiz not found" None
                       end) = true ↔
              ∃ d, d ∈ c0 ∧ @inr string nat oid = inr (_id d) ∧
                   SavedQuizService.user_id d = user_id) as Hget.
    { intros c0. destruct (List.find (owned oid user_id) c0) as [d|] eqn:Ef; cbn.
      - apply find_index in Ef as (i & Hi & [H1 H2]%owned_iff & _).
        split; [intros _|reflexivity]. exists d. rewrite H1.
        split; [eapply list_elem_of_lookup_2, Hi | auto].
      - rewrite find_none_lookup in Ef. split; [discriminate|].
        intros (d & (j & Hj)%list_elem_of_lookup & [= H1] & H2).
        assert (owned oid user_id d = true) as Ho by (apply owned_iff; auto).
        rewrite (Ef j d Hj) in Ho. discriminate Ho. }
    pose proof (delete_one_value (owned oid user_id) c) as Hd.
    pose proof (Hget c) as Hgc.
    destruct (List.find (owned oid user_id) c) as [d0|] eqn:Ef.
    + destruct Hd as (i & Hi & [H1 H2]%owned_iff & _ & ->). cbn [fst snd Nat.ltb Nat.leb].
      assert (NoDup c) as Hnd by (destruct Hwk as [H _]; eapply NoDup_fmap_1, H).
      assert (∀ d, d ∈ delete i c ↔
                d ∈ c ∧ ¬ (@inr string nat oid = inr (_id d) ∧
                           SavedQuizService.user_id d = user_id)) as Hmem.
      { intros d. rewrite (delete_members c i d0 Hnd Hi). split.
        - intros [Hdc Hne]. split; [exact Hdc|]. intros [[= Ho] Hu]. apply Hne.
          apply list_elem_of_lookup in Hdc as [j Hj].
          assert (j = i) as -> by (eapply (well_kept_id c); eauto; congruence).
          congruence.
        - intros [Hdc Hn]. split; [exact Hdc|]. intros ->. apply Hn. now rewrite H1. }
      split; [eapply well_kept_sublist; [apply sublist_delete | exact Hwk]|].
      split; [exact Hmem|]. split.
      { cbn. split; [intros _|reflexivity]. exists d0. rewrite H1.
        split; [eapply list_elem_of_lookup_2, Hi | auto]. }
      split; [exact Hgc|].
      apply not_true_iff_false. rewrite Hget. intros (d & Hdc%Hmem & Ho & Hu).
      destruct Hdc as [_ Hdc]. apply Hdc. auto.
    + rewrite Hd. cbn [fst snd Nat.ltb Nat.leb]. rewrite find_none_lookup in Ef.
      assert (∀ d, d ∈ c → ¬ (@inr string nat oid = inr (_id d) ∧
                               SavedQuizService.user_id d = user_id)) as Hno.
      { intros d (j & Hj)%list_elem_of_lookup [[= Ho] Hu].
        assert (owned oid user_id d = true) as Hod by (apply owned_iff; auto).
        rewrite (Ef j d Hj) in Hod. discriminate Hod. }
      split; [exact Hwk|]. split; [intros d; split; [intros H; auto | tauto]|].
      split; [cbn; split; [discriminate | intros (d & Hdc & Ho & Hu); now destruct (Hno d Hdc)]|].
      split; [exact Hgc|].
      apply not_true_iff_false. rewrite Hget. intros (d & Hdc & Ho & Hu).
      now destruct (Hno d Hdc).
  - cbv zeta. unfold delete_quizzes_by_pdf, get_quiz_count_by_pdf.
    destruct (delete_many_value (of_pdf pdf_id user_id) c) as (Hm & Hn & Hz & Hl & Hs).
    destruct (delete_many (of_pdf pdf_id user_id) c) as [c' n]. cbn [fst snd] in *. subst n.
    split; [eapply well_kept_sublist; eauto|].
    split; [intros d; rewrite Hm, <- of_pdf_iff, not_true_iff_false; reflexivity|].
    repeat split; auto.
  - cbv zeta. unfold delete_quizzes_by_folder.
    destruct (delete_many_value (of_folder folder_id user_id) c) as (Hm & Hn & Hz & Hl & Hs).
    destruct (delete_many (of_folder folder_id user_id) c) as [c' n].
    cbn [fst snd] in *. subst n.
    split; [eapply well_kept_sublist; eauto|].
    split; [intros d; rewrite Hm, <- of_folder_iff, not_true_iff_false; reflexivity|].
    split; [reflexivity|]. eexists. split; [reflexivity | exact Hl].
Qed.

End Service.
End SavedQuizDeletes.

Section DefaultName.
Import SavedQuizService.

Lemma filter_out_shorter (x : string) (l : list string) :
  x ∈ l → length (List.filter (λ y, negb (String.eqb y x)) l) < length l.
Proof.
  induction l as [|y l IH]; [intros H; now apply elem_of_nil in H|].
  cbn [List.filter]. destruct (String.eqb_spec y x) as [->|Hne]; cbn [negb length].
  - intros _. pose proof (List.filter_length_le (λ y, negb (String.eqb y x)) l). lia.
  - intros [->|H]%elem_of_cons; [contradiction|]. apply IH in H. lia.
Qed.

(** Among more names than there are names taken, tried in a row, one is
    free; all before the first free one are taken. *)
Lemma first_free (name : nat → string) (taken : list string) fuel k :
  Inj (=) (=) name → length taken < fuel →
  ∃ j, k ≤ j < k + fuel ∧ (name j ∉ taken) ∧ ∀ i, k ≤ i < j → name i ∈ taken.
Proof.
  intros Hinj. revert k taken. induction fuel as [|fuel IH]; intros k taken Hlen; [lia|].
  destruct (decide (name k ∈ taken)) as [Hin|Hout].
  - destruct (IH (S k) (List.filter (λ y, negb (String.eqb y (name k))) taken))
      as (j & Hj & Hfree & Hbefore).
    { pose proof (filter_out_shorter _ _ Hin). lia. }
    exists j. split; [lia|]. split.
    + intros H. apply Hfree, list_filter_members. split; [exact H|].
      apply negb_true_iff, String.eqb_neq. intros E%Hinj. lia.
    + intros i Hi. destruct (decide (i = k)) as [->|Hne]; [exact Hin|].
      eapply proj1, list_filter_members, Hbefore. lia.
  - exists k. split; [lia|]. split; [exact Hout|]. intros i Hi. lia.
Qed.

Section Service.
Variable utcnow : nat -> Z.
Variable str_of_ObjectId : nat -> string.
Variable inserted_id : collection -> nat.
Variable strftime : Z -> string.
Variable today : string.

Lemma default_name_inj clean_pdf_name :
  Inj (=) (=) (λ k, default_name today k clean_pdf_name).
Proof.
  intros i k H. unfold default_name, str_of_nat in H.
  apply String.app_inj, string_app_inv_tail in H. now apply pretty_nat_inj in H.
Qed.

(** The test of the loop: a document of the folder and the user has the
    name. *)
Lemma name_taken (c : list document) folder_id user_id name :
  is_Some (List.find (λ d, String.eqb (SavedQuizService.folder_id d) folder_id &&
                           String.eqb (SavedQuizService.user_id d) user_id &&
                           String.eqb (quiz_name d) name) c) ↔
  name ∈ quiz_name <$> List.filter (of_folder folder_id user_id) c.
Proof.
  rewrite list_elem_of_fmap. split.
  - intros [d Hd]. apply find_index in Hd as (i & Hi & Hf & _).
    apply andb_prop in Hf as [Hf Hn%String.eqb_eq]. exists d. split; [now symmetry|].
    apply list_filter_members. split; [eapply list_elem_of_lookup_2, Hi | exact Hf].
  - intros (d & -> & [(j & Hj)%list_elem_of_lookup Hf]%list_filter_members).
    eapply find_some_lookup; [exact Hj|]. unfold of_folder in Hf.
    now rewrite Hf, String.eqb_refl.
Qed.

Lemma free_name_value (c : list document) folder_id user_id clean fuel k j :
  k ≤ j < k + fuel →
  default_name today j clean ∉ quiz_name <$> List.filter (of_folder folder_id user_id) c →
  (∀ i, k ≤ i < j →
        default_name today i clean ∈ quiz_name <$> List.filter (of_folder folder_id user_id) c) →
  free_name today fuel c folder_id user_id clean k = Some (default_name today j clean).
Proof.
  revert k. induction fuel as [|fuel IH]; intros k Hj Hfree Hbefore; [lia|].
  cbn [free_name]. destruct (List.find _ c) as [d|] eqn:E.
  - assert (k ≠ j) as Hne.
    { intros ->. apply Hfree, name_taken. rewrite E. eauto. }
    apply IH; [lia | exact Hfree | intros i Hi; apply Hbefore; lia].
  - assert (k = j) as ->; [|reflexivity].
    destruct (decide (k = j)) as [|Hne]; [assumption|].
    assert (is_Some (@None document)) as [? H]; [|discriminate H].
    rewrite <- E. apply name_taken, Hbefore. lia.
Qed.

(** X18.  The loop that looks for a default name ends: with as many rounds
    as the folder of the user holds quizzes, and one more, it has found a
    name, and more rounds give the same name.  The name is "Quiz k - " with
    the document name without ".pdf" and ".PDF" and the date, for the first
    number k above the count of quizzes whose name is free; k is at most
    twice the count plus one.  No quiz of the user in the folder has this
    name, so saving under it is not refused. *)
Theorem X18_default_name_is_free
  (c : collection) (pdf_name folder_id user_id : string) (fuel : nat) :
  let count := length (List.filter (of_folder folder_id user_id) c) in
  let clean := replace ".PDF" "" (replace ".pdf" "" pdf_name) in
  count < fuel →
  ∃ k,
    generate_default_quiz_name today fuel c pdf_name folder_id user_id =
      Some (default_name today k clean)
    ∧ count + 1 ≤ k ≤ 2 * count + 1
    ∧ (∀ i, count + 1 ≤ i < k → (user_id, folder_id, default_name today i clean) ∈ quiz_key <$> c)
    ∧ ((user_id, folder_id, default_name today k clean) ∉ quiz_key <$> c)
    ∧ (∀ pdf_id quiz_type difficulty questions_data topic_focus,
         success (fst (save_quiz utcnow str_of_ObjectId inserted_id strftime c
                         user_id folder_id pdf_id pdf_name (default_name today k clean)
                         quiz_type difficulty questions_data topic_focus)) = true).
Proof.
  cbv zeta. intros Hfuel. unfold collection in *.
  set (count := length (List.filter (of_folder folder_id user_id) c)) in *.
  set (clean := replace ".PDF" "" (replace ".pdf" "" pdf_name)).
  set (taken := quiz_name <$> List.filter (of_folder folder_id user_id) c).
  assert (length taken = count) as Hlen by (unfold taken; now rewrite length_fmap).
  destruct (first_free (λ k, default_name today k clean) taken (S count) (count + 1))
    as (j & Hj & Hfree & Hbefore); [apply default_name_inj | lia |].
  assert (∀ name, name ∈ taken ↔ (user_id, folder_id, name) ∈ quiz_key <$> c) as Hkey.
  { intros name. unfold taken. rewrite !list_elem_of_fmap. split.
    - intros (d & -> & [Hd [Hf Hu]%of_folder_iff]%list_filter_members).
      exists d. unfold quiz_key. rewrite Hf, Hu. auto.
    - intros (d & [= Hu Hf Hn] & Hd). exists d. split; [exact Hn|].
      apply list_filter_members. split; [exact Hd|]. apply of_folder_iff. auto. }
  exists j. split; [|split; [lia|split; [|split]]].
  - unfold generate_default_quiz_name. fold count. fold clean.
    apply free_name_value; [lia | exact Hfree | exact Hbefore].
  - intros i Hi. apply Hkey, Hbefore. lia.
  - now rewrite <- Hkey.
  - intros. unfold save_quiz.
    destruct (List.find _ c) as [d|] eqn:E; [|reflexivity].
    exfalso. apply Hfree, Hkey. apply find_index in E as (i & Hi & Hn%named_key & _).
    apply list_elem_of_fmap. exists d. split; [now symmetry|].
    eapply list_elem_of_lookup_2, Hi.
Qed.

End Service.

(** Saving "Final" into the sample folder, where "Midterm" is taken. *)
Lemma X15_sample_save :
  well_kept (snd (save_quiz (λ n, Z.of_nat n) (λ n, pretty n) next_id (λ _, "11/04/2026")
                    sample_collection "u1" "f1" "d1" "notes.pdf" "Final" "MCQ" "Medium"
                    [] None))
  ∧ success (fst (save_quiz (λ n, Z.of_nat n) (λ n, pretty n) next_id (λ _, "11/04/2026")
                    sample_collection "u1" "f1" "d1" "notes.pdf" "Final" "MCQ" "Medium"
                    [] None)) = true
  ∧ success (fst (save_quiz (λ n, Z.of_nat n) (λ n, pretty n) next_id (λ _, "11/04/2026")
                    sample_collection "u1" "f1" "d1" "notes.pdf" "Midterm" "MCQ" "Medium"
                    [] None)) = false.
Proof.
  assert (well_kept sample_collection) as Hwk.
  { split; refine (bool_decide_unpack _ _); vm_compute; exact I. }
  assert (next_id sample_collection ∉ _id <$> sample_collection) as Hfresh.
  { intros H. pose proof (bool_decide_pack _ H) as H'. vm_compute in H'. exact H'. }
  split; [|split; [|reflexivity]].
  - apply (X15_save_keeps_names_unique (λ n, Z.of_nat n) (λ n, pretty n) next_id
             (λ _, "11/04/2026") sample_collection "u1" "f1" "d1" "notes.pdf" "Final"
             "MCQ" "Medium" [] None Hwk Hfresh).
  - reflexivity.
Defined.

(** The quiz "Midterm" of user [u1] is renamed; user [u2] cannot rename it. *)
Lemma X16_sample_rename :
  well_kept (snd (update_quiz_name (λ _, 7%Z) sample_ObjectId sample_collection
                    "2" "u1" "Final"))
  ∧ snd (update_quiz_name (λ _, 7%Z) sample_ObjectId sample_collection "2" "u2" "Final") =
      sample_collection.
Proof.
  assert (well_kept sample_collection) as Hwk.
  { split; refine (bool_decide_unpack _ _); vm_compute; exact I. }
  split.
  - apply (X16_rename_keeps_names_unique (λ _, 7%Z) sample_ObjectId sample_collection
             "2" "u1" "Final" Hwk).
  - apply (X16_rename_keeps_names_unique (λ _, 7%Z) sample_ObjectId sample_collection
             "2" "u2" "Final" Hwk). reflexivity.
Defined.

(** Deleting quiz 1 of user [u1] leaves a well kept collection. *)
Lemma X17_sample_delete :
  well_kept (snd (delete_quiz sample_ObjectId sample_collection "1" "u1"))
  ∧ success (get_quiz_by_id sample_ObjectId (λ n, pretty n) (λ _, "11/04/2026")
               (snd (delete_quiz sample_ObjectId sample_collection "1" "u1")) "1" "u1") = false.
Proof.
  assert (well_kept sample_collection) as Hwk.
  { split; refine (bool_decide_unpack _ _); vm_compute; exact I. }
  destruct (X17_deletes_remove_what_they_name sample_ObjectId (λ n, pretty n)
              (λ _, "11/04/2026") sample_collection "1" "d1" "f1" "u1" Hwk)
    as ((H1 & _ & _ & _ & H2) & _).
  split; [exact H1 | exact H2].
Defined.

(** The folder holds two quizzes and "Quiz 3 - notes - 11/04/2026" is
    taken: a later number is proposed. *)
Lemma X18_sample_default_name :
  ∃ k, generate_default_quiz_name "11/04/2026" 3 sample_collection "notes.pdf" "f1" "u1" =
         Some (default_name "11/04/2026" k "notes")
       ∧ 3 ≤ k ≤ 5.
Proof.
  destruct (X18_default_name_is_free (λ n, Z.of_nat n) (λ n, pretty n) next_id
              (λ _, "11/04/2026") "11/04/2026" sample_collection "notes.pdf" "f1" "u1" 3)
    as (k & H1 & H2 & _).
  - cbv. lia.
  - exists k. split; [exact H1 | exact H2].
Defined.

End DefaultName.
